(** * Distance-based downsampling of Y-chromosome sequences

    A shallow embedding of [5-cdhit-层次聚类降采样/2_distance_downsample.py]:
    the metadata reader, the priority resolver, the medoid rule, the
    per-threshold selection and the threshold search of [main]; then the
    reader of the distance file, the writers of the output files and [main]
    as a whole.

    Conventions of the embedding.
    - A [numpy.float64] is either NaN or a finite value, and a finite value
      is represented by the rational it denotes ([float64] below).  Rounding
      and infinities are not represented: [NumPy.add] and [NumPy.sum] are
      exact.  The statements name the sums and the sentinel of the script
      through these operations, and a statement that needs a sum to be the
      exact one says for which values.
    - Python integers that index sequences are [nat]; [args.target], which
      [argparse] accepts with any sign, is a [Z].
    - A Python [str] is a [string] whose characters are code points below 256.
    - Raised exceptions are the [Err] results of [result]; every [raise] of
      the script has its own constructor of [exn].
    - The calls into SciPy ([squareform], [linkage], [fcluster]) are recorded,
      in order, in a log of [event]s next to the result of [main].
      [squareform] is embedded from its documented behaviour; [linkage] and
      [fcluster] are the fields of the interface [SciPy].  [fcluster] is taken
      to return its labels: a run in which it raises is not represented.
    - A text file is the list of its lines.  The conversions [int] and
      [float] of the strings of the distance file are parameters of its
      reader, and the records [SeqIO.parse] yields are an input of
      [write_fasta_subset]. *)

From Stdlib Require Import Ascii String QArith Lqa.
From stdpp Require Import base option list sorting gmap strings pretty.

Local Open Scope nat_scope.

(** ** Results and exceptions *)

Inductive exn : Type :=
| MetadataEmpty          (* read_meta: "Metadata file ... is empty or malformed." *)
| PriorityExceedsTarget  (* ensure_priority_subset: "Priority samples alone ..." *)
| MatrixHasNaN           (* main: "Distance matrix contains NaN values; ..." *)
| IndexError             (* an index outside a sequence or an array *)
| EmptyReduction         (* numpy: argmin or max of an empty array *)
| LinkageError.          (* scipy.cluster.hierarchy.linkage refused its input *)

Inductive result (A : Type) : Type :=
| Ok (a : A)
| Err (e : exn).
Arguments Ok {A} a.
Arguments Err {A} e.

#[global] Instance result_ret : MRet result := λ A a, Ok a.
#[global] Instance result_bind : MBind result := λ A B f r,
  match r with
  | Ok a => f a
  | Err e => Err e
  end.

Definition of_option {A} (o : option A) (e : exn) : result A :=
  match o with
  | Some a => Ok a
  | None => Err e
  end.

(** [seq[i] for i in idxs]: an [IndexError] at the first index out of range. *)
Definition index_many {A} (seq : list A) (idxs : list nat) : result (list A) :=
  mapM (λ i, of_option (seq !! i) IndexError) idxs.

(** ** NumPy values and array operations *)

Module NumPy.

Inductive float64 : Type :=
| NaN
| Fin (q : Q).

Definition isnan (x : float64) : bool :=
  match x with NaN => true | Fin _ => false end.

(** [x < y], [x <= y] and [x == y]: every comparison with NaN is false. *)
Definition lt (x y : float64) : bool :=
  match x, y with
  | Fin p, Fin q => negb (Qle_bool q p)
  | _, _ => false
  end.

Definition le (x y : float64) : bool :=
  match x, y with
  | Fin p, Fin q => Qle_bool p q
  | _, _ => false
  end.

Definition eqb (x y : float64) : bool :=
  match x, y with
  | Fin p, Fin q => Qeq_bool p q
  | _, _ => false
  end.

Definition add (x y : float64) : float64 :=
  match x, y with
  | Fin p, Fin q => Fin (p + q)
  | _, _ => NaN
  end.

Definition zero : float64 := Fin 0.

(** [a.sum()] of a one-dimensional array. *)
Definition sum (a : list float64) : float64 := foldl add zero a.

(** [np.any(np.isnan(a))]. *)
Definition any_isnan (a : list float64) : bool := existsb isnan a.

(** [np.argmin(a)]: the position of the first NaN when there is one, else
    the first position of the least value.  The loop of NumPy keeps the
    best value [mp] and replaces it by [x] when [mp <= x] does not hold. *)
Fixpoint argmin_go (mp : float64) (best pos : nat) (a : list float64) : nat :=
  match a with
  | [] => best
  | x :: a' =>
      if isnan mp then best
      else if le mp x then argmin_go mp best (S pos) a'
      else argmin_go x pos (S pos) a'
  end.

Definition argmin (a : list float64) : result nat :=
  match a with
  | [] => Err EmptyReduction
  | x :: a' => Ok (argmin_go x 0 1 a')
  end.

(** The order [np.sort] puts a float array in: ascending, NaN last. *)
Definition sort_le (x y : float64) : Prop :=
  match x, y with
  | _, NaN => True
  | NaN, Fin _ => False
  | Fin p, Fin q => (p <= q)%Q
  end.

#[global] Instance sort_le_dec x y : Decision (sort_le x y).
Proof.
  destruct x as [|p], y as [|q]; simpl;
    [left; exact I | right; tauto | left; exact I |].
  destruct (Qlt_le_dec q p) as [H|H]; [right | left; exact H].
  intros H'. exact (Qlt_not_le _ _ H H').
Defined.

(** The mask [ar[1:] != ar[:-1]] of [np.unique]: an element is kept when it
    is the first one or is not [==] to the element before it. *)
Fixpoint drop_repeats (prev : float64) (a : list float64) : list float64 :=
  match a with
  | [] => []
  | x :: a' => if eqb x prev then drop_repeats x a' else x :: drop_repeats x a'
  end.

(** [np.unique(a)]: sort, then keep the first element of every run. *)
Definition unique (a : list float64) : list float64 :=
  match merge_sort sort_le a with
  | [] => []
  | x :: a' => x :: drop_repeats x a'
  end.

(** [a.max()]: NaN when the array holds one. *)
Definition max2 (x y : float64) : float64 :=
  if isnan x then x else if isnan y then y else if lt x y then y else x.

Definition max (a : list float64) : result float64 :=
  match a with
  | [] => Err EmptyReduction
  | x :: a' => Ok (foldl max2 x a')
  end.

(** Python's builtin [min(x, y)]: [y] when [y < x], else [x]. *)
Definition py_min (x y : float64) : float64 := if lt y x then y else x.

End NumPy.

Export NumPy (float64, NaN, Fin).

(** ** SciPy *)

(** [scipy.spatial.distance.squareform(X, checks=False)] on a square matrix:
    the entries above the diagonal, row after row.  The matrix of the script
    is allocated by [np.zeros((n, n))], so the shape test of [squareform]
    never fails. *)
Definition squareform (X : list (list float64)) : list float64 :=
  mjoin (imap (λ i row, drop (S i) row) X).

Inductive linkage_method : Type :=
| single | complete | average | weighted | centroid.

(** [linkage(condensed, method)] and [fcluster(Z, t, criterion="distance")]:
    the hierarchy, or [None] when [linkage] raises, and the flat cluster
    label of every observation. *)
Class SciPy : Type := {
  dendrogram : Type;
  linkage : list float64 → linkage_method → option dendrogram;
  fcluster : dendrogram → float64 → list nat;
}.

(** The calls into SciPy, in the order the script makes them. *)
Inductive event : Type :=
| CallSquareform
| CallLinkage (condensed : list float64) (method : linkage_method)
| CallFcluster (t : float64).

(** A computation of [main]: its result and the calls it made. *)
Definition M (A : Type) : Type := (result A * list event)%type.

#[global] Instance M_ret : MRet M := λ A a, (Ok a, []).
#[global] Instance M_bind : MBind M := λ A B f m,
  match m.1 with
  | Ok a => let m' := f a in (m'.1, m.2 ++ m'.2)
  | Err e => (Err e, m.2)
  end.

Definition lift {A} (r : result A) : M A := (r, []).
Definition call {A} (e : event) (r : result A) : M A := (r, [e]).
Definition raise {A} (e : exn) : M A := (Err e, []).

(** ** The script *)

Definition isspace (c : ascii) : bool :=
  let n := nat_of_ascii c in
  (Nat.leb 9 n && Nat.leb n 13) || (Nat.leb 28 n && Nat.leb n 32)
  || Nat.eqb n 133 || Nat.eqb n 160.

Fixpoint lstrip (s : string) : string :=
  match s with
  | EmptyString => EmptyString
  | String c s' => if isspace c then lstrip s' else s
  end.

Fixpoint rstrip (s : string) : string :=
  match s with
  | EmptyString => EmptyString
  | String c s' =>
      match rstrip s' with
      | EmptyString => if isspace c then EmptyString else String c EmptyString
      | r => String c r
      end
  end.

(** [s.strip()]. *)
Definition strip (s : string) : string := rstrip (lstrip s).

(** [s.split()]: the maximal runs of characters that are not whitespace;
    [cur] is the run being read. *)
Fixpoint split_go (cur : string) (s : string) : list string :=
  match s with
  | EmptyString => if decide (cur = EmptyString) then [] else [cur]
  | String c s' =>
      if isspace c
      then (if decide (cur = EmptyString) then split_go EmptyString s'
            else cur :: split_go EmptyString s')
      else split_go (cur +:+ String c EmptyString) s'
  end.

Definition split (s : string) : list string := split_go EmptyString s.

(** The body of the loop of [read_meta] on one line of the file. *)
Definition read_meta_line (mapping : gmap string string) (line : string)
  : gmap string string :=
  let line := strip line in
  if decide (line = EmptyString) then mapping
  else
    match split line with
    | sample_id :: group :: _ => <[sample_id := group]> mapping
    | _ => mapping
    end.

(** [read_meta] (lines 79-93), on the lines of the metadata file. *)
Definition read_meta (lines : list string) : result (gmap string string) :=
  let mapping := foldl read_meta_line ∅ lines in
  if decide (mapping = ∅) then Err MetadataEmpty else Ok mapping.

(** [base_id] (lines 129-131), [label.split("_", 1)[0]]: what comes before
    the first underscore. *)
Fixpoint base_id (label : string) : string :=
  match label with
  | EmptyString => EmptyString
  | String c s => if decide (c = "_"%char) then EmptyString else String c (base_id s)
  end.

(** [full_matrix[np.ix_(rows, cols)]]. *)
Definition ix_ (full_matrix : list (list float64)) (rows cols : list nat)
  : result (list (list float64)) :=
  mapM (λ i, row ← of_option (full_matrix !! i) IndexError; index_many row cols) rows.

(** [medoid_index] (lines 134-140). *)
Definition medoid_index (full_matrix : list (list float64)) (indices : list nat)
  : result nat :=
  match indices with
  | [i] => Ok i
  | _ =>
      sub ← ix_ full_matrix indices indices;
      let sums := NumPy.sum <$> sub in
      k ← NumPy.argmin sums;
      of_option (indices !! k) IndexError
  end.

Record cluster_record : Type := {
  cluster_id : nat;
  size : nat;
  required_count : nat;
  selected_ids : list string;
}.

(** [clusters[cluster_id].append(idx)] on a [defaultdict(list)]: the keys
    stay in the order of their first insertion. *)
Fixpoint clusters_append (clusters : list (nat * list nat)) (cid idx : nat)
  : list (nat * list nat) :=
  match clusters with
  | [] => [(cid, [idx])]
  | (c, members) :: rest =>
      if decide (c = cid) then (c, members ++ [idx]) :: rest
      else (c, members) :: clusters_append rest cid idx
  end.

(** The loop over [enumerate(cluster_labels)] (lines 153-155). *)
Definition build_clusters (cluster_labels : list nat) : list (nat * list nat) :=
  foldl (λ clusters p, clusters_append clusters p.2 p.1) []
        (imap (λ idx cid, (idx, cid)) cluster_labels).

(** [member_array[flags]]: the members whose flag is set. *)
Definition boolean_index (member_array : list nat) (flags : list bool) : list nat :=
  (filter (λ p, p.2 = true) (zip member_array flags)).*1.

(** The body of the loop over [clusters.items()] (lines 159-176). *)
Definition select_in_cluster (names : list string) (dist_matrix : list (list float64))
    (required_mask : list bool) (cl : nat * list nat)
  : result (list nat * cluster_record) :=
  let '(cid, members) := cl in
  flags ← index_many required_mask members;
  let required_in_cluster := boolean_index members flags in
  kept ← (if negb (Nat.eqb (length required_in_cluster) 0)
          then Ok required_in_cluster
          else medoid ← medoid_index dist_matrix members; Ok [medoid]);
  ids ← index_many names kept;
  Ok (kept, {| cluster_id := cid; size := length members;
               required_count := length required_in_cluster;
               selected_ids := ids |}).

(** The order of [cluster_records.sort(key=lambda rec: rec["cluster_id"])]. *)
Definition by_cluster_id (r1 r2 : cluster_record) : Prop :=
  cluster_id r1 ≤ cluster_id r2.

#[global] Instance by_cluster_id_dec : RelDecision by_cluster_id.
Proof. intros r1 r2. unfold by_cluster_id. apply _. Defined.

(** [select_at_threshold] after its call of [fcluster] (lines 153-182). *)
Definition select_from_labels (cluster_labels : list nat) (names : list string)
    (dist_matrix : list (list float64)) (required_mask : list bool)
  : result (list nat * list cluster_record) :=
  let clusters := build_clusters cluster_labels in
  per_cluster ← mapM (select_in_cluster names dist_matrix required_mask) clusters;
  let selected := mjoin (per_cluster.*1) in
  let cluster_records := per_cluster.*2 in
  let selected_unique := merge_sort le (elements (list_to_set selected : gset nat)) in
  let selected_ordered :=
    filter (λ idx, idx ∈ selected_unique) (seq 0 (length names)) in
  Ok (selected_ordered, merge_sort by_cluster_id cluster_records).

Record args : Type := {
  priority : string;                 (* --priority *)
  target : Z;                        (* --target *)
  linkage_arg : linkage_method;      (* --linkage *)
  max_threshold : option float64;    (* --max-threshold, None by default *)
}.

Record outcome : Type := {
  chosen_indices : list nat;
  chosen_records : list cluster_record;
  chosen_threshold : float64;
  selected_names : list string;
}.

(** [{sid for sid, grp in meta_map.items() if grp == priority_group}]. *)
Definition priority_ids (meta_map : gmap string string) (priority_group : string)
  : gset string :=
  dom (filter (λ kv, kv.2 = priority_group) meta_map).

(** [[idx for idx, name in enumerate(names) if base_id(name) in priority_ids]]. *)
Definition required_indices_of (names : list string) (ids : gset string) : list nat :=
  (filter (λ p, base_id p.2 ∈ ids) (imap (λ idx name, (idx, name)) names)).*1.

(** [required_mask = np.zeros(n, dtype=bool); required_mask[required_indices] = True]. *)
Definition required_mask_of (n : nat) (required_indices : list nat) : list bool :=
  foldl (λ mask idx, <[idx := true]> mask) (replicate n false) required_indices.

(** [ensure_priority_subset] (lines 185-189). *)
Definition ensure_priority_subset (required_indices : list nat) (target : Z)
  : result unit :=
  if (Z.of_nat (length required_indices) >? target)%Z
  then Err PriorityExceedsTarget else Ok ().

(** The literal [1e-6]. *)
Definition epsilon : float64 := Fin (1 # 1000000).

(** The mask [condensed > 0]: the strictly positive values. *)
Definition positive (x : float64) : Prop := NumPy.lt NumPy.zero x = true.

#[global] Instance positive_dec (x : float64) : Decision (positive x).
Proof. unfold positive. apply _. Defined.

(** Lines 266-274 of [main]: the thresholds the search goes through. *)
Definition candidate_thresholds (condensed : list float64)
    (max_threshold : option float64) : result (list float64) :=
  let positive_distances :=
    NumPy.unique (filter positive condensed) in
  let positive_distances :=
    if Nat.eqb (length positive_distances) 0 then [Fin 0] else positive_distances in
  max_distance ← NumPy.max positive_distances;
  let max_distance :=
    match max_threshold with
    | Some bound => NumPy.py_min max_distance bound
    | None => max_distance
    end in
  Ok (positive_distances ++ [NumPy.add max_distance epsilon]).

Section script.
Context `{SciPy}.

(** [select_at_threshold] (lines 143-182); [Zlink] is the [Z] of the script. *)
Definition select_at_threshold (Zlink : dendrogram) (threshold : float64)
    (names : list string) (dist_matrix : list (list float64))
    (required_mask : list bool) (required_indices : list nat) (target : Z)
  : M (list nat * list cluster_record) :=
  cluster_labels ← call (CallFcluster threshold) (Ok (fcluster Zlink threshold));
  lift (select_from_labels cluster_labels names dist_matrix required_mask).

(** The [for threshold in candidate_thresholds] loop of [main], with its
    [break]: [None] when the loop ends without one. *)
Fixpoint threshold_search (Zlink : dendrogram) (candidates : list float64)
    (names : list string) (dist_matrix : list (list float64))
    (required_mask : list bool) (required_indices : list nat) (target : Z)
  : M (option (list nat * list cluster_record * float64)) :=
  match candidates with
  | [] => mret None
  | threshold :: rest =>
      sel ← select_at_threshold Zlink threshold names dist_matrix
              required_mask required_indices target;
      if (Z.of_nat (length sel.1) <=? target)%Z
      then mret (Some (sel.1, sel.2, threshold))
      else threshold_search Zlink rest names dist_matrix
             required_mask required_indices target
  end.

(** Lines 276-307 of [main]: the loop, then the fallback on the last
    candidate when the loop ended without a [break]. *)
Definition choose_threshold (Zlink : dendrogram) (candidates : list float64)
    (names : list string) (dist_matrix : list (list float64))
    (required_mask : list bool) (required_indices : list nat) (target : Z)
  : M (list nat * list cluster_record * float64) :=
  found ← threshold_search Zlink candidates names dist_matrix
            required_mask required_indices target;
  match found with
  | Some chosen => mret chosen
  | None =>
      final ← lift (of_option (last candidates) IndexError);
      sel ← select_at_threshold Zlink final names dist_matrix
              required_mask required_indices target;
      mret (sel.1, sel.2, final)
  end.

(** [main] (lines 241-309) from the parsed inputs on: [meta_lines] are the lines of the
    metadata file, [names] and [dist_matrix] what [read_mldist] returns.
    The files written and the summary printed at the end are left out. *)
Definition main (a : args) (meta_lines : list string) (names : list string)
    (dist_matrix : list (list float64)) : M outcome :=
  meta_map ← lift (read_meta meta_lines);
  let n := length names in
  let required_indices := required_indices_of names (priority_ids meta_map (priority a)) in
  let required_mask := required_mask_of n required_indices in
  _ ← lift (ensure_priority_subset required_indices (target a));
  condensed ← call CallSquareform (Ok (squareform dist_matrix));
  if NumPy.any_isnan condensed then raise MatrixHasNaN
  else
    Zlink ← call (CallLinkage condensed (linkage_arg a))
                 (of_option (linkage condensed (linkage_arg a)) LinkageError);
    candidates ← lift (candidate_thresholds condensed (max_threshold a));
    chosen ← choose_threshold Zlink candidates names dist_matrix
               required_mask required_indices (target a);
    selected ← lift (index_many names chosen.1.1);
    mret {| chosen_indices := chosen.1.1; chosen_records := chosen.1.2;
            chosen_threshold := chosen.2; selected_names := selected |}.

End script.

(** ** The matrix reader, the writers and the whole of [main] *)

(** The outcome of a function that raises exceptions of its own. *)
Inductive checked (E A : Type) : Type :=
| Good (a : A)
| Bad (e : E).
Arguments Good {E A} a.
Arguments Bad {E A} e.

(** The [ValueError]s of [read_mldist]. *)
Inductive mldist_error : Type :=
| EmptyDistanceFile                 (* "Distance file ... appears to be empty." *)
| BadCount                          (* int() rejects the first line *)
| NegativeCount                     (* np.zeros rejects a negative dimension *)
| EndedPrematurely                  (* "... ended prematurely (expected n rows)." *)
| BlankRow (i : nat)                (* "Encountered blank line while parsing ... at row i." *)
| MissingDistances (name : string)  (* "Could not gather n distances for row name." *)
| BadDistance.                      (* np.array(..., dtype=float) rejects a value *)

(** [handle.readline()] on the lines that are left of a file: the next line
    with its line end, or the empty string at the end of the file. *)
Definition readline (handle : list string) : string * list string :=
  match handle with
  | [] => (EmptyString, [])
  | line :: rest => (line, rest)
  end.

(** The loop [while len(values) < n] of [read_mldist] (lines 116-121): the
    values of a row that is broken over several lines.  Returns the values
    and the lines left, [None] when the file ends first. *)
Fixpoint gather (n : nat) (values : list string) (handle : list string)
  : option (list string * list string) :=
  if decide (length values < n) then
    match handle with
    | [] => None
    | extra :: rest =>
        if decide (extra = EmptyString) then None
        else gather n (values ++ split (strip extra)) rest
    end
  else Some (values, handle).

Section mldist_reader.

(** [int(s)] of Python and the conversion of a string to a float of NumPy:
    [None] when they raise [ValueError]. *)
Variable py_int : string → option Z.
Variable np_float : string → option float64.

(** The loop [for i in range(n)] of [read_mldist] (lines 106-124), with
    [count] rows still to read from row [i] on. *)
Fixpoint read_rows (n count i : nat) (handle : list string)
  : checked mldist_error (list string * list (list float64)) :=
  match count with
  | 0 => Good ([], [])
  | S count' =>
      let '(line, handle) := readline handle in
      if decide (line = EmptyString) then Bad EndedPrematurely
      else
        match split (strip line) with
        | [] => Bad (BlankRow i)
        | name :: values =>
            match gather n values handle with
            | None => Bad (MissingDistances name)
            | Some (values, handle) =>
                match mapM np_float (take n values) with
                | None => Bad BadDistance
                | Some row =>
                    match read_rows n count' (S i) handle with
                    | Good (names, matrix) => Good (name :: names, row :: matrix)
                    | Bad e => Bad e
                    end
                end
            end
        end
  end.

(** [read_mldist] (lines 96-126), on the lines of the distance file. *)
Definition read_mldist (lines : list string)
  : checked mldist_error (list string * list (list float64)) :=
  let '(first, handle) := readline lines in
  if decide (first = EmptyString) then Bad EmptyDistanceFile
  else
    match py_int (strip first) with
    | None => Bad BadCount
    | Some n =>
        if (n <? 0)%Z then Bad NegativeCount
        else read_rows (Z.to_nat n) (Z.to_nat n) 0 handle
    end.

End mldist_reader.

(** The line end and the tabulator. *)
Definition newline : string := String "010"%char EmptyString.
Definition tab : string := String "009"%char EmptyString.

(** The text of a file made of the given lines, each with its line end. *)
Definition unlines (l : list string) : string :=
  foldr (λ line text, line +:+ newline +:+ text) EmptyString l.

(** [write_ids] (lines 192-195): the text written to the file, and
    [IndexError] when an index is out of range, after the lines before it
    were written. *)
Fixpoint write_ids (indices : list nat) (names : list string) : string * result unit :=
  match indices with
  | [] => (EmptyString, Ok ())
  | idx :: rest =>
      match names !! idx with
      | None => (EmptyString, Err IndexError)
      | Some name =>
          let w := write_ids rest names in
          (name +:+ newline +:+ w.1, w.2)
      end
  end.

(** One line of the cluster report. *)
Definition report_line (rec : cluster_record) : string :=
  pretty (cluster_id rec) +:+ tab +:+ pretty (size rec) +:+ tab
  +:+ pretty (required_count rec) +:+ tab
  +:+ String.concat "," (selected_ids rec) +:+ newline.

(** [write_cluster_report] (lines 198-210): the lines written to the file;
    the arguments [meta_map] and [priority_label] are not used. *)
Definition write_cluster_report (records : list cluster_record) : list string :=
  ("cluster_id" +:+ tab +:+ "size" +:+ tab +:+ "required_count" +:+ tab
   +:+ "selected_ids" +:+ newline)
  :: (report_line <$> records).

(** A record of [SeqIO.parse]: its [id] and what else it holds. *)
Definition fasta_record : Type := (string * string)%type.

(** The [RuntimeError] of [write_fasta_subset]. *)
Inductive fasta_error : Type :=
| WroteOtherCount (expected wrote : nat).

(** [write_fasta_subset] (lines 213-232) on the records of the FASTA file:
    the records written, and the error raised after they were written. *)
Definition write_fasta_subset (records : list fasta_record) (keep_names : list string)
  : list fasta_record * checked fasta_error unit :=
  let keep_set : gset string := list_to_set keep_names in
  let kept := filter (λ record, record.1 ∈ keep_set) records in
  let count := length kept in
  (kept,
   if decide (count ≠ base.size keep_set)
   then Bad (WroteOtherCount (base.size keep_set) count) else Good ()).

(** The ways a run of the script ends without a result. *)
Inductive failure : Type :=
| Raised (e : exn)
| DistanceFile (e : mldist_error)
| Fasta (e : fasta_error)
| BiopythonMissing.   (* ImportError in write_fasta_subset, turned into SystemExit *)

(** The files written by a run: the ids, the lines of the cluster report
    and the records of the FASTA subset; [None] for a file that was not
    opened. *)
Record files : Type := {
  ids_txt : option string;
  clusters_tsv : option (list string);
  subset_fasta : option (list fasta_record);
}.

Section whole_run.
Context `{SciPy}.
Variable py_int : string → option Z.
Variable np_float : string → option float64.

(** The writes at the end of [main] (lines 311-324).  [bio] holds the records
    [SeqIO.parse] yields from [--fasta], [None] when Biopython is not installed. *)
Definition write_outputs (write_fasta : bool) (names : list string) (o : outcome)
    (bio : option (list fasta_record)) : checked failure outcome * files :=
  let ids := write_ids (chosen_indices o) names in
  match ids.2 with
  | Err e =>
      (Bad (Raised e),
       {| ids_txt := Some ids.1; clusters_tsv := None; subset_fasta := None |})
  | Ok _ =>
      let report := write_cluster_report (chosen_records o) in
      if write_fasta then
        match bio with
        | None =>
            (Bad BiopythonMissing,
             {| ids_txt := Some ids.1; clusters_tsv := Some report;
                subset_fasta := None |})
        | Some records =>
            let subset := write_fasta_subset records (selected_names o) in
            (match subset.2 with
             | Bad e => Bad (Fasta e)
             | Good _ => Good o
             end,
             {| ids_txt := Some ids.1; clusters_tsv := Some report;
                subset_fasta := Some subset.1 |})
        end
      else
        (Good o,
         {| ids_txt := Some ids.1; clusters_tsv := Some report;
            subset_fasta := None |})
  end.

(** [main] (lines 235-335) as a whole, without the summary it prints: the
    metadata is read first, then the distance file; the embedding [main] of
    lines 241-309 reads the same metadata again. *)
Definition main_program (a : args) (write_fasta : bool)
    (meta_lines dist_lines : list string) (bio : option (list fasta_record))
  : checked failure outcome * list event * files :=
  let no_files := {| ids_txt := None; clusters_tsv := None; subset_fasta := None |} in
  match read_meta meta_lines with
  | Err e => (Bad (Raised e), [], no_files)
  | Ok _ =>
      match read_mldist py_int np_float dist_lines with
      | Bad e => (Bad (DistanceFile e), [], no_files)
      | Good (names, dist_matrix) =>
          let m := main a meta_lines names dist_matrix in
          match m.1 with
          | Err e => (Bad (Raised e), m.2, no_files)
          | Ok o =>
              let w := write_outputs write_fasta names o bio in
              (w.1, m.2, w.2)
          end
      end
  end.

End whole_run.

(** ** A reference instance of the SciPy interface

    A hierarchy is the binary tree that the rows of a linkage matrix
    describe.  [fcluster] with [criterion="distance"] puts two observations
    in one flat cluster when the largest merge height of the smallest subtree
    holding both is at most [t], and numbers the clusters in the order of
    SciPy's traversal: below a node, first the clusters of its left subtree,
    then those of its right subtree, then its left and its right child when
    they are observations. *)
Module Hierarchy.

Inductive tree : Type :=
| Leaf (i : nat)
| Node (l r : tree) (height : float64).

Fixpoint leaves (t : tree) : list nat :=
  match t with
  | Leaf i => [i]
  | Node l r _ => leaves l ++ leaves r
  end.

(** The largest merge height in a subtree. *)
Fixpoint max_dist (t : tree) : float64 :=
  match t with
  | Leaf _ => NumPy.zero
  | Node l r h => NumPy.max2 (NumPy.max2 h (max_dist l)) (max_dist r)
  end.

(** One pass over the tree: [leader] says that a node above already formed
    a cluster, [n_cluster] is the number of clusters formed so far. *)
Fixpoint assign (cutoff : float64) (t : tree) (leader : bool) (n_cluster : nat)
  : nat * list (nat * nat) :=
  match t with
  | Leaf i => (S n_cluster, [(i, S n_cluster)])
  | Node l r h =>
      let forms := negb leader && NumPy.le (max_dist t) cutoff in
      let leader' := leader || forms in
      let n0 := if forms then S n_cluster else n_cluster in
      let '(n1, o1) :=
        match l with
        | Node _ _ _ => assign cutoff l leader' n0
        | Leaf _ => (n0, [])
        end in
      let '(n2, o2) :=
        match r with
        | Node _ _ _ => assign cutoff r leader' n1
        | Leaf _ => (n1, [])
        end in
      let '(n3, o3) :=
        match l with
        | Leaf i => if leader' then (n2, [(i, n2)]) else (S n2, [(i, S n2)])
        | Node _ _ _ => (n2, [])
        end in
      let '(n4, o4) :=
        match r with
        | Leaf i => if leader' then (n3, [(i, n3)]) else (S n3, [(i, S n3)])
        | Node _ _ _ => (n3, [])
        end in
      (n4, o1 ++ o2 ++ o3 ++ o4)
  end.

Definition label_of (T : list (nat * nat)) (i : nat) : nat :=
  match list_find (λ p, p.1 = i) T with
  | Some (_, p) => p.2
  | None => 0
  end.

Definition cut (t : tree) (cutoff : float64) : list nat :=
  let T := (assign cutoff t false 0).2 in
  label_of T <$> seq 0 (length (leaves t)).

(** The interface, for a run in which [linkage] returns [Zlink]. *)
Definition returning (Zlink : tree) : SciPy :=
  {| dendrogram := tree;
     linkage := λ _ _, Some Zlink;
     fcluster := cut |}.

End Hierarchy.

(** ** Example runs *)

Module Scenario.
Import Hierarchy.

(** Six items: A and B coincide and are at distance 10 from the others;
    C, D, E and F are at distance 1 from each other.  A is in the priority
    group, the target is 3. *)
Definition names6 : list string := ["A"; "B"; "C"; "D"; "E"; "F"].

Definition X6 : list (list float64) :=
  [[Fin 0; Fin 0; Fin 10; Fin 10; Fin 10; Fin 10];
   [Fin 0; Fin 0; Fin 10; Fin 10; Fin 10; Fin 10];
   [Fin 10; Fin 10; Fin 0; Fin 1; Fin 1; Fin 1];
   [Fin 10; Fin 10; Fin 1; Fin 0; Fin 1; Fin 1];
   [Fin 10; Fin 10; Fin 1; Fin 1; Fin 0; Fin 1];
   [Fin 10; Fin 10; Fin 1; Fin 1; Fin 1; Fin 0]].

Definition meta6 : list string := ["A ChongqingHan"; "B Tibetan"; "C Han"].

Definition meta_map6 : gmap string string :=
  <["A" := "ChongqingHan"]> (<["B" := "Tibetan"]> (<["C" := "Han"]> ∅)).

Definition a6 : args :=
  {| priority := "ChongqingHan"; target := 3; linkage_arg := average;
     max_threshold := None |}.

(** The hierarchy of average linkage on [X6]. *)
Definition T6 : tree :=
  Node (Node (Leaf 0) (Leaf 1) (Fin 0))
       (Node (Node (Node (Leaf 2) (Leaf 3) (Fin 1)) (Leaf 4) (Fin 1)) (Leaf 5) (Fin 1))
       (Fin 10).

Definition mask6 : list bool := [true; false; false; false; false; false].

Definition o6 : outcome :=
  {| chosen_indices := [0; 2];
     chosen_records :=
       [{| cluster_id := 1; size := 2; required_count := 1; selected_ids := ["A"] |};
        {| cluster_id := 2; size := 4; required_count := 0; selected_ids := ["C"] |}];
     chosen_threshold := Fin 1;
     selected_names := ["A"; "C"] |}.

(** Three items without a priority member: the first two at distance 1,
    the third at distance 2 from both. *)
Definition names3 : list string := ["x"; "y"; "z"].

Definition X3 : list (list float64) :=
  [[Fin 0; Fin 1; Fin 2]; [Fin 1; Fin 0; Fin 2]; [Fin 2; Fin 2; Fin 0]].

(** [X3] with another entry below the diagonal. *)
Definition X3' : list (list float64) :=
  [[Fin 0; Fin 1; Fin 2]; [Fin 0; Fin 0; Fin 2]; [Fin 2; Fin 2; Fin 0]].

Definition meta3 : list string := ["w ChongqingHan"].

Definition meta_map3 : gmap string string := <["w" := "ChongqingHan"]> ∅.

Definition a3 (target : Z) : args :=
  {| priority := "ChongqingHan"; target := target; linkage_arg := average;
     max_threshold := None |}.

(** The hierarchy of average linkage on [X3]. *)
Definition T3 : tree := Node (Node (Leaf 0) (Leaf 1) (Fin 1)) (Leaf 2) (Fin 2).

Definition o3_small : outcome :=
  {| chosen_indices := [0];
     chosen_records :=
       [{| cluster_id := 1; size := 3; required_count := 0; selected_ids := ["x"] |}];
     chosen_threshold := Fin 2;
     selected_names := ["x"] |}.

Definition o3_large : outcome :=
  {| chosen_indices := [0; 2];
     chosen_records :=
       [{| cluster_id := 1; size := 2; required_count := 0; selected_ids := ["x"] |};
        {| cluster_id := 2; size := 1; required_count := 0; selected_ids := ["z"] |}];
     chosen_threshold := Fin 1;
     selected_names := ["x"; "z"] |}.

(** Two items at distance 1. *)
Definition names2 : list string := ["a"; "b"].

Definition X2 : list (list float64) := [[Fin 0; Fin 1]; [Fin 1; Fin 0]].

(** [X2] with a NaN below the diagonal. *)
Definition X2nan : list (list float64) := [[Fin 0; Fin 1]; [NaN; Fin 0]].

Definition T2 : tree := Node (Leaf 0) (Leaf 1) (Fin 1).

(** A run with [--max-threshold 0.5] and a target of 2. *)
Definition a2 : args :=
  {| priority := "ChongqingHan"; target := 2; linkage_arg := average;
     max_threshold := Some (Fin (1 # 2)) |}.



End Scenario.

(** ** An example of the files of a run *)

Module Files.

(** The decimal numerals without sign, which are a part of what [int] and
    the conversion to [float] accept, and [nan]. *)
Fixpoint digits (acc : N) (s : string) : option N :=
  match s with
  | EmptyString => Some acc
  | String c s' =>
      let d := N_of_ascii c in
      if (48 <=? d)%N && (d <=? 57)%N then digits (10 * acc + (d - 48))%N s'
      else None
  end.

Definition int_of_decimal (s : string) : option Z :=
  if decide (s = EmptyString) then None else Z.of_N <$> digits 0 s.

Definition float_of_decimal (s : string) : option float64 :=
  if decide (s = "nan") then Some NaN
  else (λ z, Fin (inject_Z z)) <$> int_of_decimal s.

(** A distance file for the six items of [Scenario]: the row of B is
    broken over three lines, one of them blank, the row of C holds one field
    too many, and a line follows the last row. *)
Definition mldist6 : list string :=
  (λ line, line +:+ newline)
  <$> ["6"; "A 0 0 10 10 10 10"; "B 0 0 10"; ""; " 10 10 10"; "C 10 10 0 1 1 1 7";
       "D 10 10 1 0 1 1"; "E 10 10 1 1 0 1"; "F 10 10 1 1 1 0"; "end"].

(** The records of a FASTA file with the six items. *)
Definition fasta6 : list fasta_record :=
  [("A", "ACGT"); ("B", "ACGT"); ("C", "ACGA"); ("D", "ACGC"); ("E", "ACGG");
   ("F", "ACTT")].

(** The files of the run on the six items with [--write-fasta]. *)
Definition files6 : files :=
  {| ids_txt := Some (unlines ["A"; "C"]);
     clusters_tsv := Some (write_cluster_report (chosen_records Scenario.o6));
     subset_fasta := Some [("A", "ACGT"); ("C", "ACGA")] |}.

End Files.

(** ** Vocabulary of the statements *)

(** The observations that [fcluster] labelled [cid], in input order. *)
Definition members_of (cluster_labels : list nat) (cid : nat) : list nat :=
  filter (λ idx, cluster_labels !! idx = Some cid) (seq 0 (length cluster_labels)).

(** An [n] by [n] matrix. *)
Definition square (n : nat) (X : list (list float64)) : Prop :=
  length X = n ∧ Forall (λ row, length row = n) X.

(** Entry [(i, j)] of a matrix. *)
Definition entry (X : list (list float64)) (i j : nat) : option float64 :=
  row ← X !! i; row !! j.

(** The entry read by [X[i, j]] when it is in range. *)
Definition get (X : list (list float64)) (i j : nat) : float64 :=
  default NaN (entry X i j).








(** The members of a cluster that must be kept. *)
Definition required_in (required_mask : list bool) (members : list nat) : list nat :=
  filter (λ idx, required_mask !! idx = Some true) members.

(** The whitespace-separated fields of a line of the metadata file. *)
Definition fields (line : string) : list string := split (strip line).

(** A line that gives a group to sample [k]. *)
Definition records_key (k : string) (line : string) : Prop :=
  ∃ g rest, fields line = k :: g :: rest.

(** [x < y] on floats, as a relation. *)
Definition flt (x y : float64) : Prop := NumPy.lt x y = true.

(** The required indices and the mask of a run with metadata [meta_map]. *)
Definition run_required (a : args) (names : list string)
    (meta_map : gmap string string) : list nat :=
  required_indices_of names (priority_ids meta_map (priority a)).

Definition run_mask (a : args) (names : list string)
    (meta_map : gmap string string) : list bool :=
  required_mask_of (length names) (run_required a names meta_map).

Section thresholds.
Context `{SciPy}.

(** The selection [select_at_threshold] returns at threshold [t]. *)
Definition selection_at (Zlink : dendrogram) (names : list string)
    (dist_matrix : list (list float64)) (required_mask : list bool)
    (t : float64) : result (list nat * list cluster_record) :=
  select_from_labels (fcluster Zlink t) names dist_matrix required_mask.

(** A threshold is feasible when its selection fits the target. *)
Definition feasible_at (Zlink : dendrogram) (names : list string)
    (dist_matrix : list (list float64)) (required_mask : list bool)
    (target : Z) (t : float64) : Prop :=
  ∃ sel, selection_at Zlink names dist_matrix required_mask t = Ok sel
         ∧ (Z.of_nat (length sel.1) <= target)%Z.

Definition infeasible_at (Zlink : dendrogram) (names : list string)
    (dist_matrix : list (list float64)) (required_mask : list bool)
    (target : Z) (t : float64) : Prop :=
  ∃ sel, selection_at Zlink names dist_matrix required_mask t = Ok sel
         ∧ (target < Z.of_nat (length sel.1))%Z.

End thresholds.

(** The exceptions that indexing and the NumPy reductions raise. *)
Definition from_arrays (e : exn) : Prop := e = IndexError ∨ e = EmptyReduction.

(** ** Vocabulary of the further properties *)

(** [c in s], for a character [c]. *)
Fixpoint contains (c : ascii) (s : string) : bool :=
  match s with
  | EmptyString => false
  | String c' s' => if decide (c' = c) then true else contains c s'
  end.

(** A field of [str.split()]: not empty and without whitespace. *)
Fixpoint no_space (s : string) : bool :=
  match s with
  | EmptyString => true
  | String c s' => negb (isspace c) && no_space s'
  end.

Definition token (s : string) : Prop := s ≠ EmptyString ∧ no_space s = true.

(** A row of the distance file: its name, its distances, and the lines of
    the file it was read from. *)
Record file_row : Type := {
  row_name : string;
  row_values : list float64;
  row_text : list string;
}.

(** The lines [text] hold the row [name] of a matrix with [n] columns whose
    first [n] value fields are [values]: the first line starts with the
    name, and a further line belongs to the row as long as the lines before
    it hold fewer than [n] values. *)
Definition row_lines (n : nat) (name : string) (values : list string)
    (text : list string) : Prop :=
  ∃ line more found,
    text = line :: more
    ∧ Forall (λ l, l ≠ EmptyString) text
    ∧ fields line = name :: found
    ∧ (∀ k, k < length more → length (found ++ mjoin (fields <$> take k more)) < n)
    ∧ n ≤ length (found ++ mjoin (fields <$> more))
    ∧ values = take n (found ++ mjoin (fields <$> more)).

(** The layout of a distance file that holds the rows [rows] after its
    first line, and then the lines [rest]. *)
Definition holds_rows (np_float : string → option float64) (n : nat)
    (rows : list file_row) (rest : list string) (handle : list string) : Prop :=
  handle = mjoin (row_text <$> rows) ++ rest
  ∧ Forall (λ r, ∃ values, row_lines n (row_name r) values (row_text r)
                   ∧ mapM np_float values = Some (row_values r)) rows.

(** The characters that separate the parts of a line of the cluster report:
    the tabulator, the line end and the comma. *)
Definition separator (c : ascii) : bool :=
  Ascii.eqb c "009" || Ascii.eqb c "010" || Ascii.eqb c ",".

(** A text without a separator. *)
Fixpoint plain (s : string) : bool :=
  match s with
  | EmptyString => true
  | String c s' => negb (separator c) && plain s'
  end.

(** * Properties *)

(** ** The [result] monad *)

Lemma rbind_Ok {A B} (f : A → result B) (r : result A) (b : B) :
  r ≫= f = Ok b ↔ ∃ a, r = Ok a ∧ f a = Ok b.
Proof.
  destruct r as [a|e]; simpl; split.
  - intros Hf. by exists a.
  - by intros (a' & [= <-] & Hf).
  - intros [=].
  - by intros (a' & [=] & _).
Qed.

Lemma mapM_Ok {A B} (f : A → result B) (l : list A) (k : list B) :
  mapM f l = Ok k ↔ Forall2 (λ x y, f x = Ok y) l k.
Proof.
  revert k. induction l as [|x l IH]; intros k; simpl.
  - split.
    + intros [= <-]. constructor.
    + intros Hk. by inversion Hk.
  - rewrite rbind_Ok. split.
    + intros (y & Hy & Hrest). apply rbind_Ok in Hrest as (k' & Hk' & [= <-]).
      constructor; [done | by apply IH].
    + intros Hk. inversion Hk as [|? y ? k' Hy Hk']; subst.
      exists y. split; [done|]. apply rbind_Ok. exists k'. split; [by apply IH | done].
Qed.

Lemma mapM_Ok_exists {A B} (f : A → result B) (l : list A) :
  Forall (λ x, ∃ y, f x = Ok y) l → ∃ k, mapM f l = Ok k.
Proof.
  induction 1 as [|x l [y Hy] _ [k Hk]].
  - by exists [].
  - exists (y :: k). apply mapM_Ok. constructor; [done | by apply mapM_Ok].
Qed.

Lemma mapM_Err {A B} (f : A → result B) (l : list A) (e : exn) :
  mapM f l = Err e → ∃ x, x ∈ l ∧ f x = Err e.
Proof.
  induction l as [|x l IH]; simpl; [done|].
  destruct (f x) as [y|e'] eqn:Hx; simpl.
  - destruct (mapM f l) as [k|e'']; simpl; [done|].
    intros [= ->]. destruct IH as (x' & Hin & Hx'); [done|].
    exists x'. split; [by right | done].
  - intros [= ->]. exists x. split; [by left | done].
Qed.

Lemma index_many_Ok {A} (s : list A) (idxs : list nat) (k : list A) :
  index_many s idxs = Ok k ↔ Forall2 (λ i x, s !! i = Some x) idxs k.
Proof.
  unfold index_many. rewrite mapM_Ok.
  split; intros HF; (eapply Forall2_impl; [exact HF|]);
    intros i x; simpl; destruct (s !! i); simpl; congruence.
Qed.

Lemma index_many_Ok_exists {A} (s : list A) (idxs : list nat) :
  Forall (λ i, i < length s) idxs → ∃ k, index_many s idxs = Ok k.
Proof.
  intros Hlt. apply mapM_Ok_exists. eapply Forall_impl; [exact Hlt|].
  intros i Hi. simpl in Hi. apply lookup_lt_is_Some_2 in Hi as [x Hx].
  exists x. by rewrite Hx.
Qed.

Lemma index_many_Err {A} (s : list A) (idxs : list nat) (e : exn) :
  index_many s idxs = Err e → e = IndexError.
Proof.
  intros (i & _ & Hi)%mapM_Err. destruct (s !! i); simpl in Hi; congruence.
Qed.

(** ** The clusters of a labelling *)

Lemma filter_ext_in {A} (P Q : A → Prop) `{∀ x, Decision (P x), ∀ x, Decision (Q x)}
    (l : list A) :
  (∀ x, x ∈ l → P x ↔ Q x) → filter P l = filter Q l.
Proof.
  induction l as [|x l IH]; intros HPQ; [done|].
  rewrite !filter_cons. rewrite IH by (intros y Hy; apply HPQ; by right).
  destruct (decide (P x)) as [HP|HP], (decide (Q x)) as [HQ|HQ]; try done.
  - destruct HQ. apply HPQ; [by left | done].
  - destruct HP. apply HPQ; [by left | done].
Qed.

Lemma StronglySorted_filter {A} (R : relation A) (P : A → Prop)
    `{∀ x, Decision (P x)} (l : list A) :
  StronglySorted R l → StronglySorted R (filter P l).
Proof.
  induction 1 as [|x l Hl IH Hx]; [constructor|].
  rewrite filter_cons. destruct (decide (P x)); [|done].
  constructor; [done|]. apply Forall_forall. intros y [_ Hy]%list_elem_of_filter.
  by eapply Forall_forall in Hx.
Qed.

Lemma StronglySorted_seq (j n : nat) : StronglySorted lt (seq j n).
Proof.
  revert j. induction n as [|n IH]; intros j; simpl; constructor; [apply IH|].
  apply Forall_forall. intros k Hk%elem_of_seq. lia.
Qed.

Lemma build_clusters_snoc (cluster_labels : list nat) (cid : nat) :
  build_clusters (cluster_labels ++ [cid])
  = clusters_append (build_clusters cluster_labels) cid (length cluster_labels).
Proof.
  unfold build_clusters. rewrite imap_app, foldl_app. simpl.
  by rewrite Nat.add_0_r.
Qed.

Lemma members_of_snoc (cluster_labels : list nat) (cid c : nat) :
  members_of (cluster_labels ++ [cid]) c
  = members_of cluster_labels c
    ++ (if decide (cid = c) then [length cluster_labels] else []).
Proof.
  unfold members_of. rewrite length_app. simpl.
  rewrite seq_app, filter_app. simpl. f_equal.
  - apply filter_ext_in. intros i [_ Hi]%elem_of_seq. simpl in Hi.
    by rewrite lookup_app_l.
  - rewrite filter_cons, filter_nil.
    rewrite lookup_app_r by lia. rewrite Nat.sub_diag. simpl.
    destruct (decide (cid = c)) as [->|Hne].
    + by rewrite decide_True.
    + rewrite decide_False; [done|]. by intros [=].
Qed.

Lemma members_of_lookup (cluster_labels : list nat) (c i : nat) :
  i ∈ members_of cluster_labels c ↔ cluster_labels !! i = Some c.
Proof.
  unfold members_of. rewrite list_elem_of_filter, elem_of_seq. split.
  - by intros [? _].
  - intros Hi. split; [done|]. apply lookup_lt_Some in Hi. lia.
Qed.


Lemma members_of_NoDup (cluster_labels : list nat) (c : nat) :
  NoDup (members_of cluster_labels c).
Proof. apply NoDup_filter, NoDup_seq. Qed.

Lemma clusters_append_keys (clusters : list (nat * list nat)) (cid idx : nat) :
  (clusters_append clusters cid idx).*1
  = if decide (cid ∈ clusters.*1) then clusters.*1 else clusters.*1 ++ [cid].
Proof.
  induction clusters as [|[c ms] rest IH]; [done|].
  cbn [clusters_append]. destruct (decide (c = cid)) as [->|Hne];
    rewrite !fmap_cons; cbn [fst].
  - rewrite decide_True; [done | by left].
  - rewrite IH. destruct (decide (cid ∈ rest.*1)) as [Hin|Hin].
    + rewrite decide_True; [done | by right].
    + rewrite decide_False; [done|]. by intros [?|?]%elem_of_cons.
Qed.

Lemma clusters_append_other (clusters : list (nat * list nat)) (cid idx k : nat)
    (ms : list nat) :
  k ≠ cid → (k, ms) ∈ clusters_append clusters cid idx ↔ (k, ms) ∈ clusters.
Proof.
  intros Hk. induction clusters as [|[c ms'] rest IH]; cbn [clusters_append].
  - rewrite list_elem_of_singleton. split; [by (intros; simplify_eq) | by intros ?%elem_of_nil].
  - destruct (decide (c = cid)) as [->|Hne]; rewrite !elem_of_cons.
    + split; (intros [Heq|Hin]; [by (intros; simplify_eq) | by right]).
    + rewrite IH. done.
Qed.

Lemma clusters_append_same (clusters : list (nat * list nat)) (cid idx : nat)
    (ms : list nat) :
  NoDup (clusters.*1 : list nat) →
  (cid, ms) ∈ clusters_append clusters cid idx ↔
    (∃ ms0, (cid, ms0) ∈ clusters ∧ ms = ms0 ++ [idx])
    ∨ ((cid ∉ clusters.*1) ∧ ms = [idx]).
Proof.
  induction clusters as [|[c ms'] rest IH]; cbn [clusters_append];
    rewrite ?fmap_cons; cbn [fst]; intros Hnd.
  - rewrite list_elem_of_singleton. split.
    + intros [= ->]. right. split; [apply not_elem_of_nil | done].
    + intros [(ms0 & Hin & _) | [_ ->]]; [by apply elem_of_nil in Hin | done].
  - apply NoDup_cons in Hnd as [Hc Hnd]. specialize (IH Hnd).
    assert (Hfresh : ∀ ms0, (c, ms0) ∉ rest).
    { intros ms0 Hin. apply Hc. apply list_elem_of_fmap. by exists (c, ms0). }
    destruct (decide (c = cid)) as [->|Hne]; rewrite !elem_of_cons.
    + split.
      * intros [Heq | Hin]; [|by apply Hfresh in Hin].
        left. exists ms'. split; [by left | by (intros; simplify_eq)].
      * intros [(ms0 & [Heq | Hin]%elem_of_cons & ->) | [Hnin _]].
        -- left. by (intros; simplify_eq).
        -- by apply Hfresh in Hin.
        -- destruct Hnin. by left.
    + rewrite IH. split.
      * intros [Heq | [(ms0 & Hin & ->) | [Hnin ->]]]; [by (intros; simplify_eq) | |].
        -- left. exists ms0. split; [by right | done].
        -- right. split; [|done]. intros [?|?]; [by simplify_eq | done].
      * intros [(ms0 & [Heq | Hin]%elem_of_cons & ->) | [Hnin ->]]; [by (intros; simplify_eq) | |].
        -- right. left. by exists ms0.
        -- right. right. split; [|done]. intros Hin. apply Hnin. by right.
Qed.

(** The clusters of [select_at_threshold]: one entry per label in use, which
    holds the observations with that label in input order. *)
Lemma build_clusters_spec (cluster_labels : list nat) :
  NoDup (build_clusters cluster_labels).*1
  ∧ ∀ cid members, (cid, members) ∈ build_clusters cluster_labels ↔
      members = members_of cluster_labels cid ∧ members ≠ [].
Proof.
  induction cluster_labels as [|c labels [Hnd IH]] using rev_ind.
  - split; [constructor|]. intros cid members. split.
    + by intros ?%elem_of_nil.
    + intros [-> Hne]. done.
  - rewrite build_clusters_snoc. split.
    + rewrite clusters_append_keys. case_decide; [done|].
      apply NoDup_app. split_and!; [done | | apply NoDup_singleton].
      intros k Hk ->%list_elem_of_singleton. done.
    + intros cid members. rewrite members_of_snoc.
      destruct (decide (c = cid)) as [->|Hne].
      * rewrite clusters_append_same by done. split.
        -- intros [(ms0 & Hin & ->) | [Hnin ->]].
           ++ apply IH in Hin as [-> _]. split; [done|]. by intros [_ ?]%app_eq_nil.
           ++ split; [|done]. destruct (members_of labels cid) as [|i ms] eqn:Hms; [done|].
              destruct Hnin. apply list_elem_of_fmap.
              exists (cid, i :: ms). split; [done|]. apply IH. by rewrite Hms.
        -- intros [-> _]. destruct (members_of labels cid) as [|i ms] eqn:Hms.
           ++ right. split; [|done]. intros ([k ms] & -> & Hin)%list_elem_of_fmap.
              simpl in Hms. apply IH in Hin as [-> Hne]. congruence.
           ++ left. exists (i :: ms). split; [|done]. apply IH. by rewrite Hms.
      * rewrite clusters_append_other by done. rewrite app_nil_r. apply IH.
Qed.

(** ** Comparisons, sums and [argmin] on finite values *)

Lemma lt_Fin (p r : Q) : NumPy.lt (Fin p) (Fin r) = true ↔ (p < r)%Q.
Proof.
  simpl. rewrite negb_true_iff, <- not_true_iff_false, Qle_bool_iff.
  split; [apply Qnot_le_lt | apply Qlt_not_le].
Qed.

Lemma eqb_Fin (p r : Q) : NumPy.eqb (Fin p) (Fin r) = true ↔ (p == r)%Q.
Proof. apply Qeq_bool_iff. Qed.



(** ** The medoid *)

Lemma mapM_Ok_fmap {A B} (f : A → result B) (g : A → B) (l : list A) :
  (∀ x, x ∈ l → f x = Ok (g x)) → mapM f l = Ok (g <$> l).
Proof.
  intros Hfg. apply mapM_Ok. induction l as [|x l IH]; [constructor|].
  rewrite fmap_cons. constructor.
  - apply Hfg. by left.
  - apply IH. intros y Hy. apply Hfg. by right.
Qed.

Lemma square_entry (n : nat) (X : list (list float64)) (i j : nat) :
  square n X → i < n → j < n →
  ∃ row, X !! i = Some row ∧ row !! j = Some (get X i j).
Proof.
  intros [Hlen Hrows] Hi Hj.
  destruct (lookup_lt_is_Some_2 X i) as [row Hrow]; [lia|].
  exists row. split; [done|].
  assert (length row = n) as Hn by (by eapply Forall_lookup_1 in Hrows).
  destruct (lookup_lt_is_Some_2 row j) as [x Hx]; [lia|].
  unfold get, entry. rewrite Hrow. simpl. by rewrite Hx.
Qed.

Lemma ix_Ok (n : nat) (X : list (list float64)) (rows cols : list nat) :
  square n X → Forall (λ i, i < n) rows → Forall (λ j, j < n) cols →
  ix_ X rows cols = Ok ((λ i, get X i <$> cols) <$> rows).
Proof.
  intros HX Hrows Hcols. unfold ix_. apply mapM_Ok_fmap. intros i Hi.
  eapply Forall_forall in Hrows; [|exact Hi]. simpl in Hrows.
  assert (∃ row, X !! i = Some row ∧ ∀ j, j < n → row !! j = Some (get X i j))
    as (row & Hrow & Hget).
  { destruct HX as [Hlen HF].
    destruct (lookup_lt_is_Some_2 X i) as [row Hrow]; [lia|].
    exists row. split; [done|]. intros j Hj.
    destruct (square_entry n X i j) as (row' & Hrow' & Hx); [done..|]. congruence. }
  rewrite Hrow. simpl. unfold index_many. apply mapM_Ok_fmap. intros j Hj.
  eapply Forall_forall in Hcols; [|exact Hj]. simpl in Hcols.
  by rewrite Hget.
Qed.

Lemma argmin_go_bound (a : list float64) (mp : float64) (best pos : nat) :
  NumPy.argmin_go mp best pos a = best
  ∨ pos ≤ NumPy.argmin_go mp best pos a < pos + length a.
Proof.
  revert mp best pos. induction a as [|x a IH]; intros mp best pos; simpl; [by left|].
  destruct (NumPy.isnan mp); [by left|].
  destruct (NumPy.le mp x).
  - destruct (IH mp best (S pos)) as [->|?]; [by left | right; lia].
  - destruct (IH x pos (S pos)) as [->|?]; right; lia.
Qed.

Lemma argmin_Ok (a : list float64) :
  a ≠ [] → ∃ k, NumPy.argmin a = Ok k ∧ k < length a.
Proof.
  destruct a as [|x a]; [done|]. intros _. eexists. split; [done|]. simpl.
  destruct (argmin_go_bound a x 0 1) as [->|?]; lia.
Qed.

(** [medoid_index] returns a member of every cluster that is not empty. *)
Lemma medoid_index_Ok (n : nat) (X : list (list float64)) (members : list nat) :
  square n X → Forall (λ i, i < n) members → members ≠ [] →
  ∃ m, medoid_index X members = Ok m ∧ m ∈ members.
Proof.
  intros HX Hlt Hne.
  assert (∃ m, (sub ← ix_ X members members;
                k ← NumPy.argmin (NumPy.sum <$> sub);
                of_option (members !! k) IndexError) = Ok m ∧ m ∈ members)
    as (m & Hm & Hin).
  { rewrite (ix_Ok n) by done. simpl.
    destruct (argmin_Ok (NumPy.sum <$> ((λ i, get X i <$> members) <$> members)))
      as (k & -> & Hk).
    { destruct members; [done|]. by rewrite !fmap_cons. }
    rewrite !length_fmap in Hk. simpl.
    destruct (lookup_lt_is_Some_2 members k Hk) as [m Hm].
    exists m. rewrite Hm. split; [done|]. by eapply list_elem_of_lookup_2. }
  destruct members as [|i [|j l]]; [done | | by exists m].
  exists i. split; [done | by left].
Qed.





Lemma StronglySorted_lt_NoDup (l : list nat) : StronglySorted lt l → NoDup l.
Proof.
  induction 1 as [|x l _ IH Hx]; constructor; [|done].
  intros Hin. eapply Forall_forall in Hx; [|exact Hin]. lia.
Qed.






(** ** The selection at one threshold *)

#[local] Arguments index_many : simpl never.
#[local] Arguments medoid_index : simpl never.

Lemma boolean_index_spec (required_mask : list bool) (members : list nat)
    (flags : list bool) :
  Forall2 (λ i b, required_mask !! i = Some b) members flags →
  boolean_index members flags = required_in required_mask members.
Proof.
  unfold boolean_index, required_in.
  induction 1 as [|i b members flags Hi _ IH]; [done|].
  simpl. rewrite !filter_cons. simpl. rewrite Hi.
  destruct b.
  - rewrite !decide_True by done. rewrite fmap_cons. simpl. by rewrite IH.
  - rewrite !decide_False by (intros [=]; done). done.
Qed.

Lemma select_in_cluster_spec (n : nat) (names : list string)
    (X : list (list float64)) (required_mask : list bool) (cid : nat)
    (members : list nat) :
  length names = n → length required_mask = n → square n X →
  members ≠ [] → Forall (λ i, i < n) members →
  ∃ kept rec,
    select_in_cluster names X required_mask (cid, members) = Ok (kept, rec)
    ∧ cluster_id rec = cid
    ∧ size rec = length members
    ∧ required_count rec = length (required_in required_mask members)
    ∧ index_many names kept = Ok (selected_ids rec)
    ∧ ((required_in required_mask members ≠ []
        ∧ kept = required_in required_mask members)
       ∨ (required_in required_mask members = []
          ∧ ∃ m, medoid_index X members = Ok m ∧ m ∈ members ∧ kept = [m])).
Proof.
  intros Hnames Hmask HX Hne Hlt. unfold select_in_cluster.
  destruct (index_many_Ok_exists required_mask members) as [flags Hflags].
  { by rewrite Hmask. }
  rewrite Hflags. simpl.
  apply index_many_Ok in Hflags. rewrite (boolean_index_spec required_mask) by done.
  set (required := required_in required_mask members).
  assert (Hsub : ∀ i, i ∈ required → i < n).
  { intros i [_ Hi]%list_elem_of_filter. by eapply Forall_forall in Hlt. }
  destruct required as [|r required'] eqn:Hreq.
  - simpl. destruct (medoid_index_Ok n X members) as (m & Hm & Hin); [done..|].
    rewrite Hm. simpl.
    destruct (index_many_Ok_exists names [m]) as [ids Hids].
    { constructor; [|constructor]. rewrite Hnames. by eapply Forall_forall in Hlt. }
    rewrite Hids. simpl. eexists _, _. split; [done|]. simpl.
    split_and!; try done. right. split; [done|]. by exists m.
  - simpl.
    destruct (index_many_Ok_exists names (r :: required')) as [ids Hids].
    { apply Forall_forall. intros i Hi. rewrite Hnames. by apply Hsub. }
    rewrite Hids. simpl. eexists _, _. split; [done|]. simpl.
    split_and!; try done. by left.
Qed.

Lemma elem_of_selected_unique (selected : list nat) (i : nat) :
  i ∈ merge_sort le (elements (list_to_set selected : gset nat)) ↔ i ∈ selected.
Proof.
  rewrite merge_sort_Permutation, elem_of_elements, elem_of_list_to_set. done.
Qed.

(** What [select_at_threshold] computes from the labels of [fcluster]. *)
Lemma select_from_labels_Ok (n : nat) (cluster_labels : list nat)
    (names : list string) (X : list (list float64)) (required_mask : list bool) :
  length cluster_labels = n → length names = n → length required_mask = n →
  square n X →
  ∃ per_cluster,
    Forall2 (λ cl pc, select_in_cluster names X required_mask cl = Ok pc)
            (build_clusters cluster_labels) per_cluster
    ∧ select_from_labels cluster_labels names X required_mask
      = Ok (filter (λ idx, idx ∈ merge_sort le
                      (elements (list_to_set (mjoin (per_cluster.*1)) : gset nat)))
                   (seq 0 n),
            merge_sort by_cluster_id (per_cluster.*2)).
Proof.
  intros Hlabels Hnames Hmask HX. unfold select_from_labels.
  destruct (mapM_Ok_exists (select_in_cluster names X required_mask)
              (build_clusters cluster_labels)) as [per_cluster Hpc].
  { apply Forall_forall. intros [cid members] Hin.
    apply build_clusters_spec in Hin as [-> Hne].
    destruct (select_in_cluster_spec n names X required_mask cid
                (members_of cluster_labels cid)) as (kept & rec & Hsel & _); try done.
    - apply Forall_forall. intros i Hi%members_of_lookup.
      apply lookup_lt_Some in Hi. lia.
    - by exists (kept, rec). }
  exists per_cluster. rewrite Hpc. simpl. rewrite Hnames.
  split; [by apply mapM_Ok | done].
Qed.

Lemma Forall2_elem_of_l {A B} (P : A → B → Prop) (l : list A) (k : list B) (x : A) :
  Forall2 P l k → x ∈ l → ∃ y, y ∈ k ∧ P x y.
Proof.
  intros HF [i Hi]%list_elem_of_lookup_1.
  destruct (Forall2_lookup_l _ _ _ _ _ HF Hi) as (y & Hy & HP).
  exists y. split; [by eapply list_elem_of_lookup_2 | done].
Qed.

Lemma Forall2_elem_of_r {A B} (P : A → B → Prop) (l : list A) (k : list B) (y : B) :
  Forall2 P l k → y ∈ k → ∃ x, x ∈ l ∧ P x y.
Proof.
  intros HF [i Hi]%list_elem_of_lookup_1.
  destruct (Forall2_lookup_r _ _ _ _ _ HF Hi) as (x & Hx & HP).
  exists x. split; [by eapply list_elem_of_lookup_2 | done].
Qed.

Lemma members_of_bound (n : nat) (cluster_labels : list nat) (cid : nat) :
  length cluster_labels = n → Forall (λ i, i < n) (members_of cluster_labels cid).
Proof.
  intros Hlabels. apply Forall_forall. intros i Hi%members_of_lookup.
  apply lookup_lt_Some in Hi. lia.
Qed.

Section selection.
Context (n : nat) (cluster_labels : list nat) (names : list string)
        (X : list (list float64)) (required_mask : list bool).
Context (Hlabels : length cluster_labels = n) (Hnames : length names = n)
        (Hmask : length required_mask = n) (HX : square n X).

(** An observation is selected exactly when it is required, or is the
    medoid of a cluster without required members. *)
Lemma select_from_labels_elem (sel : list nat) (recs : list cluster_record) (i : nat) :
  select_from_labels cluster_labels names X required_mask = Ok (sel, recs) →
  i ∈ sel ↔
    ∃ cid, cluster_labels !! i = Some cid
      ∧ (required_mask !! i = Some true
         ∨ (required_in required_mask (members_of cluster_labels cid) = []
            ∧ medoid_index X (members_of cluster_labels cid) = Ok i)).
Proof.
  destruct (select_from_labels_Ok n cluster_labels names X required_mask)
    as (per_cluster & Hpc & Heq); [done..|].
  rewrite Heq. intros [= <- <-].
  rewrite list_elem_of_filter, elem_of_selected_unique, elem_of_seq,
    list_elem_of_join.
  split.
  - intros [(kept & Hi & ([kept' rec] & -> & Hin)%list_elem_of_fmap) _].
    simpl in Hi.
    destruct (Forall2_elem_of_r _ _ _ _ Hpc Hin) as ([cid members] & Hcl & Hsel).
    apply build_clusters_spec in Hcl as [-> Hne].
    destruct (select_in_cluster_spec n names X required_mask cid
                (members_of cluster_labels cid))
      as (kept & rec' & Hsel' & _ & _ & _ & _ & Hkept); try done.
    { by apply members_of_bound. }
    rewrite Hsel in Hsel'. injection Hsel' as -> ->. exists cid.
    destruct Hkept as [[_ ->] | (Hreq & m & Hm & Hmin & ->)].
    + apply list_elem_of_filter in Hi as [Hi Hin']. split; [|by left].
      by apply members_of_lookup.
    + apply list_elem_of_singleton in Hi as ->. split; [|by right].
      by apply members_of_lookup.
  - intros (cid & Hcid & Hwhy).
    assert (Hmem : i ∈ members_of cluster_labels cid) by (by apply members_of_lookup).
    assert (Hne : members_of cluster_labels cid ≠ []).
    { intros Hnil. rewrite Hnil in Hmem. by apply elem_of_nil in Hmem. }
    split; [|apply lookup_lt_Some in Hcid; lia].
    assert (Hcl : (cid, members_of cluster_labels cid) ∈ build_clusters cluster_labels)
      by (by apply build_clusters_spec).
    destruct (Forall2_elem_of_l _ _ _ _ Hpc Hcl) as ([kept rec] & Hin & Hsel).
    exists kept. split; [|apply list_elem_of_fmap; by exists (kept, rec)].
    destruct (select_in_cluster_spec n names X required_mask cid
                (members_of cluster_labels cid))
      as (kept' & rec' & Hsel' & _ & _ & _ & _ & Hkept); try done.
    { by apply members_of_bound. }
    rewrite Hsel in Hsel'. injection Hsel' as <- <-.
    destruct Hwhy as [Hreq | [Hnone Hmed]].
    + assert (Hireq : i ∈ required_in required_mask (members_of cluster_labels cid))
        by (by apply list_elem_of_filter).
      destruct Hkept as [[_ ->] | (Hnil & _)]; [done|].
      rewrite Hnil in Hireq. by apply elem_of_nil in Hireq.
    + destruct Hkept as [[Hsome _] | (_ & m & Hm & _ & ->)]; [done|].
      rewrite Hmed in Hm. injection Hm as ->. by left.
Qed.

End selection.

(** ** The priority resolver *)

Lemma required_indices_of_elem (names : list string) (ids : gset string) (i : nat) :
  i ∈ required_indices_of names ids ↔
    ∃ name, names !! i = Some name ∧ base_id name ∈ ids.
Proof.
  unfold required_indices_of. rewrite list_elem_of_fmap. split.
  - intros ([i' name] & -> & [Hid Hin]%list_elem_of_filter).
    apply elem_of_lookup_imap in Hin as (k & y & Heq & Hk). simplify_eq.
    by exists y.
  - intros (name & Hi & Hid). exists (i, name). split; [done|].
    apply list_elem_of_filter. split; [done|]. apply elem_of_lookup_imap. eauto.
Qed.

Lemma foldl_insert_true_length (mask : list bool) (idxs : list nat) :
  length (foldl (λ mask idx, <[idx := true]> mask) mask idxs) = length mask.
Proof.
  revert mask. induction idxs as [|i idxs IH]; intros mask; simpl; [done|].
  by rewrite IH, length_insert.
Qed.

Lemma foldl_insert_true_lookup (mask : list bool) (idxs : list nat) (i : nat) :
  foldl (λ mask idx, <[idx := true]> mask) mask idxs !! i = Some true ↔
    (i ∈ idxs ∧ i < length mask) ∨ mask !! i = Some true.
Proof.
  revert mask. induction idxs as [|j idxs IH]; intros mask; simpl.
  - split; [by right|]. by intros [[?%elem_of_nil _] | ?].
  - rewrite IH, length_insert, list_lookup_insert_Some, elem_of_cons. split.
    + intros [[Hin Hlt] | [(-> & _ & Hlt) | [Hne Hi]]]; eauto.
    + intros [[[->|Hin] Hlt] | Hi]; eauto.
      destruct (decide (j = i)) as [->|Hne]; [|eauto].
      right. left. split_and!; [done..|]. by apply lookup_lt_Some in Hi.
Qed.

Lemma required_mask_of_length (n : nat) (required_indices : list nat) :
  length (required_mask_of n required_indices) = n.
Proof.
  unfold required_mask_of. by rewrite foldl_insert_true_length, length_replicate.
Qed.

Lemma required_mask_of_lookup (n : nat) (required_indices : list nat) (i : nat) :
  required_mask_of n required_indices !! i = Some true ↔
    i ∈ required_indices ∧ i < n.
Proof.
  unfold required_mask_of.
  rewrite foldl_insert_true_lookup, length_replicate, lookup_replicate.
  split; [|by left]. by intros [? | [[=] _]].
Qed.

(** ** The threshold search *)

Section search.
Context `{SciPy}.
Context (Zlink : dendrogram) (names : list string) (X : list (list float64))
        (required_mask : list bool) (required_indices : list nat) (target : Z).

Lemma select_at_threshold_eq (t : float64) :
  select_at_threshold Zlink t names X required_mask required_indices target
  = (selection_at Zlink names X required_mask t, [CallFcluster t]).
Proof. reflexivity. Qed.

Lemma threshold_search_cons (t : float64) (rest : list float64) :
  threshold_search Zlink (t :: rest) names X required_mask required_indices target
  = match selection_at Zlink names X required_mask t with
    | Err e => (Err e, [CallFcluster t])
    | Ok sel =>
        if (Z.of_nat (length sel.1) <=? target)%Z
        then (Ok (Some (sel.1, sel.2, t)), [CallFcluster t])
        else
          let m := threshold_search Zlink rest names X required_mask
                     required_indices target in
          (m.1, CallFcluster t :: m.2)
    end.
Proof.
  cbn [threshold_search]. rewrite select_at_threshold_eq.
  unfold mbind, M_bind. cbn [fst snd].
  destruct (selection_at Zlink names X required_mask t) as [sel|e]; [|done].
  destruct (Z.of_nat (length sel.1) <=? target)%Z; done.
Qed.

(** The loop stops at the first feasible candidate: the candidates before
    it were evaluated and are not feasible, no candidate after it is
    evaluated. *)
Lemma threshold_search_found (candidates : list float64)
    (idx : list nat) (recs : list cluster_record) (t : float64) (log : list event) :
  threshold_search Zlink candidates names X required_mask required_indices target
  = (Ok (Some (idx, recs, t)), log) →
  ∃ pre post, candidates = pre ++ t :: post
    ∧ Forall (infeasible_at Zlink names X required_mask target) pre
    ∧ selection_at Zlink names X required_mask t = Ok (idx, recs)
    ∧ (Z.of_nat (length idx) <= target)%Z
    ∧ log = CallFcluster <$> (pre ++ [t]).
Proof.
  revert log. induction candidates as [|c rest IH]; intros log.
  - intros [=].
  - rewrite threshold_search_cons.
    destruct (selection_at Zlink names X required_mask c) as [sel|e] eqn:Hsel; [|intros [=]].
    destruct (Z.of_nat (length sel.1) <=? target)%Z eqn:Hle.
    + intros [= <- <- <- <-]. exists [], rest. apply Z.leb_le in Hle.
      split_and!; [done | constructor | by destruct sel | done | done].
    + destruct (threshold_search Zlink rest names X required_mask
                  required_indices target) as [r l].
      cbn [fst snd]. intros [= -> <-].
      destruct (IH l eq_refl) as (pre & post & -> & Hpre & Ht & Hfit & Hlog).
      exists (c :: pre), post. split_and!; [done | | done | done |].
      * constructor; [|done]. exists sel. split; [done|]. by apply Z.leb_gt in Hle.
      * simpl. by rewrite Hlog.
Qed.

Lemma threshold_search_none (candidates : list float64) (log : list event) :
  threshold_search Zlink candidates names X required_mask required_indices target
  = (Ok None, log) →
  Forall (infeasible_at Zlink names X required_mask target) candidates
  ∧ log = CallFcluster <$> candidates.
Proof.
  revert log. induction candidates as [|c rest IH]; intros log.
  - intros [= <-]. split; [constructor | done].
  - rewrite threshold_search_cons.
    destruct (selection_at Zlink names X required_mask c) as [sel|e] eqn:Hsel; [|intros [=]].
    destruct (Z.of_nat (length sel.1) <=? target)%Z eqn:Hle; [intros [=]|].
    destruct (threshold_search Zlink rest names X required_mask
                required_indices target) as [r l].
    cbn [fst snd]. intros [= -> <-].
    destruct (IH l eq_refl) as [Hrest Hlog].
    split; [|simpl; by rewrite Hlog].
    constructor; [|done]. exists sel. split; [done|]. by apply Z.leb_gt in Hle.
Qed.

(** When every candidate has a selection, the loop ends without an error. *)
Lemma threshold_search_Ok (candidates : list float64) :
  Forall (λ t, ∃ sel, selection_at Zlink names X required_mask t = Ok sel) candidates →
  ∃ found log,
    threshold_search Zlink candidates names X required_mask required_indices target
    = (Ok found, log).
Proof.
  induction 1 as [|c rest [sel Hsel] _ (found & log & IH)].
  - by exists None, [].
  - rewrite threshold_search_cons, Hsel.
    destruct (Z.of_nat (length sel.1) <=? target)%Z; [by eexists _, _|].
    rewrite IH. by eexists _, _.
Qed.

End search.

(** ** The run *)

Lemma M_bind_pair {A B} (r : result A) (log : list event) (f : A → M B) :
  ((r, log) : M A) ≫= f
  = match r with
    | Ok a => ((f a).1, log ++ (f a).2)
    | Err e => (Err e, log)
    end.
Proof. reflexivity. Qed.

Lemma M_bind_lift_Ok {A B} (a : A) (f : A → M B) : lift (Ok a) ≫= f = f a.
Proof. unfold lift. rewrite M_bind_pair. by destruct (f a). Qed.

Lemma M_bind_lift_Err {A B} (e : exn) (f : A → M B) :
  lift (Err e) ≫= f = (Err e, []).
Proof. reflexivity. Qed.

Lemma M_bind_call_Ok {A B} (ev : event) (a : A) (f : A → M B) :
  call ev (Ok a) ≫= f = ((f a).1, ev :: (f a).2).
Proof. reflexivity. Qed.

Lemma M_bind_call_Err {A B} (ev : event) (e : exn) (f : A → M B) :
  call ev (Err e) ≫= f = (Err e, [ev]).
Proof. reflexivity. Qed.

Section run.
Context `{SciPy}.

Lemma choose_threshold_eq (Zlink : dendrogram) (candidates : list float64)
    (names : list string) (X : list (list float64)) (required_mask : list bool)
    (required_indices : list nat) (target : Z) :
  choose_threshold Zlink candidates names X required_mask required_indices target
  = let s := threshold_search Zlink candidates names X required_mask
               required_indices target in
    match s.1 with
    | Err e => (Err e, s.2)
    | Ok (Some chosen) => (Ok chosen, s.2)
    | Ok None =>
        match last candidates with
        | None => (Err IndexError, s.2)
        | Some final =>
            match selection_at Zlink names X required_mask final with
            | Ok sel => (Ok (sel.1, sel.2, final), s.2 ++ [CallFcluster final])
            | Err e => (Err e, s.2 ++ [CallFcluster final])
            end
        end
    end.
Proof.
  unfold choose_threshold. cbn zeta.
  destruct (threshold_search Zlink candidates names X required_mask
              required_indices target) as [[[chosen|]|e] log];
    unfold mbind, M_bind; cbn [fst snd]; [by rewrite app_nil_r | | done].
  destruct (last candidates) as [final|]; cbn; [|by rewrite app_nil_r].
  unfold selection_at.
  destruct (select_from_labels (fcluster Zlink final) names X required_mask);
    cbn; by rewrite ?app_nil_r.
Qed.

(** The stages of [main], and the calls made when each one ends the run. *)
Lemma main_stages (a : args) (meta_lines names : list string)
    (X : list (list float64)) :
  main a meta_lines names X
  = match read_meta meta_lines with
    | Err e => (Err e, [])
    | Ok meta_map =>
        let required_indices :=
          required_indices_of names (priority_ids meta_map (priority a)) in
        let required_mask := required_mask_of (length names) required_indices in
        match ensure_priority_subset required_indices (target a) with
        | Err e => (Err e, [])
        | Ok _ =>
            let condensed := squareform X in
            if NumPy.any_isnan condensed then (Err MatrixHasNaN, [CallSquareform])
            else
              let called := [CallSquareform; CallLinkage condensed (linkage_arg a)] in
              match linkage condensed (linkage_arg a) with
              | None => (Err LinkageError, called)
              | Some Zlink =>
                  match candidate_thresholds condensed (max_threshold a) with
                  | Err e => (Err e, called)
                  | Ok candidates =>
                      let c := choose_threshold Zlink candidates names X
                                 required_mask required_indices (target a) in
                      (chosen ← c.1;
                       selected ← index_many names chosen.1.1;
                       Ok {| chosen_indices := chosen.1.1;
                             chosen_records := chosen.1.2;
                             chosen_threshold := chosen.2;
                             selected_names := selected |},
                       called ++ c.2)
                  end
              end
        end
    end.
Proof.
  unfold main.
  destruct (read_meta meta_lines) as [meta_map|e];
    [rewrite M_bind_lift_Ok | by rewrite M_bind_lift_Err].
  cbn zeta.
  destruct (ensure_priority_subset
              (required_indices_of names (priority_ids meta_map (priority a)))
              (target a)) as [[]|e];
    [rewrite M_bind_lift_Ok | by rewrite M_bind_lift_Err].
  rewrite M_bind_call_Ok.
  destruct (NumPy.any_isnan (squareform X)); [done|].
  destruct (linkage (squareform X) (linkage_arg a)) as [Zlink|]; cbn [of_option];
    [rewrite M_bind_call_Ok | by rewrite M_bind_call_Err].
  destruct (candidate_thresholds (squareform X) (max_threshold a)) as [candidates|e];
    [rewrite M_bind_lift_Ok | by rewrite M_bind_lift_Err].
  destruct (choose_threshold Zlink candidates names X _ _ (target a))
    as [[chosen|e] log]; rewrite M_bind_pair; [|done].
  cbn.
  destruct (index_many names chosen.1.1) as [selected|e];
    cbn; by rewrite ?app_nil_r.
Qed.

End run.

(** ** The metadata reader *)

Lemma read_meta_line_fields (mapping : gmap string string) (line : string) :
  read_meta_line mapping line
  = match fields line with
    | sample_id :: group :: _ => <[sample_id := group]> mapping
    | _ => mapping
    end.
Proof.
  unfold read_meta_line, fields. destruct (decide (strip line = EmptyString)) as [->|]; done.
Qed.

Lemma read_meta_line_skip (mapping : gmap string string) (line : string) :
  length (fields line) < 2 → read_meta_line mapping line = mapping.
Proof.
  rewrite read_meta_line_fields. destruct (fields line) as [|? [|? ?]]; simpl; [done..|lia].
Qed.

Lemma read_meta_line_empty (mapping : gmap string string) (line : string) :
  read_meta_line mapping line = ∅ ↔ mapping = ∅ ∧ length (fields line) < 2.
Proof.
  rewrite read_meta_line_fields. destruct (fields line) as [|k [|g rest]]; simpl.
  - split; [intros ->; split; [done | lia] | by intros [-> _]].
  - split; [intros ->; split; [done | lia] | by intros [-> _]].
  - split; [by intros ?%insert_non_empty | lia].
Qed.

Lemma read_loop_empty (mapping : gmap string string) (lines : list string) :
  foldl read_meta_line mapping lines = ∅ ↔
    mapping = ∅ ∧ Forall (λ line, length (fields line) < 2) lines.
Proof.
  revert mapping. induction lines as [|line lines IH]; intros mapping; simpl.
  - split; [by intros -> | by intros [-> _]].
  - rewrite IH, read_meta_line_empty, Forall_cons. tauto.
Qed.

Lemma snoc_eq_app_cons {A} (l pre post : list A) (x y : A) :
  l ++ [x] = pre ++ y :: post →
  (post = [] ∧ pre = l ∧ y = x) ∨ (∃ post', post = post' ++ [x] ∧ l = pre ++ y :: post').
Proof.
  destruct post as [|z post _] using rev_ind.
  - intros [-> ->]%app_inj_tail. by left.
  - rewrite app_comm_cons, app_assoc. intros [-> ->]%app_inj_tail.
    right. by exists post.
Qed.

(** After the loop of [read_meta], a sample has the group of the last line
    that records it. *)
Lemma read_loop_lookup (lines : list string) (k g : string) :
  foldl read_meta_line ∅ lines !! k = Some g ↔
    ∃ pre line post rest,
      lines = pre ++ line :: post
      ∧ fields line = k :: g :: rest
      ∧ Forall (λ later, ¬ records_key k later) post.
Proof.
  induction lines as [|l lines IH] using rev_ind.
  - simpl. rewrite lookup_empty. split; [done|].
    intros (pre & line & post & rest & Heq & _). by destruct pre.
  - rewrite foldl_app. simpl. rewrite read_meta_line_fields.
    assert (Hkeep : ¬ records_key k l →
      (foldl read_meta_line ∅ lines !! k = Some g ↔
       ∃ pre line post rest, lines ++ [l] = pre ++ line :: post
         ∧ fields line = k :: g :: rest
         ∧ Forall (λ later, ¬ records_key k later) post)).
    { intros Hl. rewrite IH. split.
      - intros (pre & line & post & rest & -> & Hline & Hpost).
        exists pre, line, (post ++ [l]), rest. split_and!; [|done|].
        + by rewrite <- app_assoc.
        + apply Forall_app. split; [done|]. by constructor.
      - intros (pre & line & post & rest & Heq & Hline & Hpost).
        apply snoc_eq_app_cons in Heq as [(-> & -> & ->) | (post' & -> & ->)].
        + destruct Hl. by exists g, rest.
        + apply Forall_app in Hpost as [Hpost _]. by exists pre, line, post', rest. }
    destruct (fields l) as [|k' [|g' rest']] eqn:Hl.
    + apply Hkeep. intros (? & ? & Hf). congruence.
    + apply Hkeep. intros (? & ? & Hf). congruence.
    + destruct (decide (k' = k)) as [->|Hne].
      * rewrite lookup_insert_eq. split.
        -- intros [= ->]. exists lines, l, [], rest'. split_and!; [done..|constructor].
        -- intros (pre & line & post & rest & Heq & Hline & Hpost).
           apply snoc_eq_app_cons in Heq as [(-> & -> & ->) | (post' & -> & ->)].
           ++ congruence.
           ++ apply Forall_app in Hpost as [_ Hpost].
              rewrite Forall_singleton in Hpost. contradict Hpost. by exists g', rest'.
      * rewrite lookup_insert_ne by done. apply Hkeep.
        intros (? & ? & Hf). congruence.
Qed.

(** C10. The metadata reader skips a line with fewer than two fields as if
    it were not in the file, gives a sample the group of the last line that
    records it, and raises its error exactly when no line of the file has two
    fields. *)
Theorem read_meta_records (lines : list string) :
  (∀ pre bad post, lines = pre ++ bad :: post → length (fields bad) < 2 →
     read_meta lines = read_meta (pre ++ post))
  ∧ (∀ meta_map, read_meta lines = Ok meta_map →
       ∀ k g, meta_map !! k = Some g ↔
         ∃ pre line post rest,
           lines = pre ++ line :: post
           ∧ fields line = k :: g :: rest
           ∧ Forall (λ later, ¬ records_key k later) post)
  ∧ (∀ e, read_meta lines = Err e ↔
       e = MetadataEmpty ∧ Forall (λ line, length (fields line) < 2) lines).
Proof.
  split_and!.
  - intros pre bad post -> Hbad. unfold read_meta.
    rewrite !foldl_app. simpl. by rewrite read_meta_line_skip.
  - intros meta_map Hread k g. rewrite <- read_loop_lookup.
    unfold read_meta in Hread. case_decide; [done|]. by injection Hread as <-.
  - intros e. unfold read_meta. case_decide as Hempty.
    + apply read_loop_empty in Hempty as [_ Hall]. split; [|by intros [-> _]].
      intros [= <-]. done.
    + split; [done|]. intros [_ Hall]. destruct Hempty. by apply read_loop_empty.
Qed.

(** A file with a blank line, a one-field line and a repeated sample. *)
Lemma read_meta_records_witness :
  read_meta ["S1 Han"; ""; "S2"; "S1  Tibetan extra"; " S3 Han "]
  = read_meta ["S1 Han"; ""; "S1  Tibetan extra"; " S3 Han "]
  ∧ (∀ meta_map,
       read_meta ["S1 Han"; ""; "S2"; "S1  Tibetan extra"; " S3 Han "] = Ok meta_map →
       meta_map !! "S1" = Some "Tibetan")
  ∧ read_meta [""; "S2"; "   "] = Err MetadataEmpty.
Proof.
  split_and!.
  - apply (proj1 (read_meta_records _) ["S1 Han"; ""] "S2" ["S1  Tibetan extra"; " S3 Han "]).
    + reflexivity.
    + vm_compute. lia.
  - intros meta_map Hread.
    apply (proj1 (proj2 (read_meta_records _)) meta_map Hread).
    exists ["S1 Han"; ""; "S2"], "S1  Tibetan extra", [" S3 Han "], ["extra"].
    split_and!; [reflexivity | reflexivity |].
    constructor; [|constructor]. intros (g & rest & Hf). vm_compute in Hf. discriminate.
  - apply (proj2 (proj2 (read_meta_records _))). split; [done|].
    repeat constructor; vm_compute; lia.
Defined.

(** ** The errors of the later stages *)

Lemma rbind_Err {A B} (f : A → result B) (r : result A) (e : exn) :
  r ≫= f = Err e → r = Err e ∨ ∃ a, r = Ok a ∧ f a = Err e.
Proof.
  destruct r as [a|e']; intros Hr; [right; by exists a | left].
  injection Hr as ->. done.
Qed.

Lemma medoid_index_Err (X : list (list float64)) (members : list nat) (e : exn) :
  medoid_index X members = Err e → from_arrays e.
Proof.
  assert ((sub ← ix_ X members members;
           k ← NumPy.argmin (NumPy.sum <$> sub);
           of_option (members !! k) IndexError) = Err e → from_arrays e) as Hlong.
  { intros [Hix | (sub & _ & [Harg | (k & _ & Hk)]%rbind_Err)]%rbind_Err.
    - apply mapM_Err in Hix as (i & _ & [Hrow | (row & _ & Hrow)]%rbind_Err).
      + left. destruct (X !! i); simpl in Hrow; congruence.
      + left. by eapply index_many_Err.
    - right. destruct (NumPy.sum <$> sub); simpl in Harg; congruence.
    - left. destruct (members !! k); simpl in Hk; congruence. }
  unfold medoid_index. destruct members as [|i [|j l]]; [done | done | done].
Qed.

Lemma select_in_cluster_Err (names : list string) (X : list (list float64))
    (required_mask : list bool) (cl : nat * list nat) (e : exn) :
  select_in_cluster names X required_mask cl = Err e → from_arrays e.
Proof.
  destruct cl as [cid members]. unfold select_in_cluster.
  intros [Hflags | (flags & _ & [Hkept | (kept & _ & Hids)]%rbind_Err)]%rbind_Err.
  - left. by eapply index_many_Err.
  - destruct (negb _); [done|].
    apply rbind_Err in Hkept as [Hm | (m & _ & [=])]. by eapply medoid_index_Err.
  - apply rbind_Err in Hids as [Hids | (ids & _ & [=])]. left. by eapply index_many_Err.
Qed.

Lemma select_from_labels_Err (cluster_labels : list nat) (names : list string)
    (X : list (list float64)) (required_mask : list bool) (e : exn) :
  select_from_labels cluster_labels names X required_mask = Err e → from_arrays e.
Proof.
  unfold select_from_labels. intros [Hpc | (pc & _ & [=])]%rbind_Err.
  apply mapM_Err in Hpc as (cl & _ & Hcl). by eapply select_in_cluster_Err.
Qed.

Lemma candidate_thresholds_Err (condensed : list float64) (bound : option float64)
    (e : exn) :
  candidate_thresholds condensed bound = Err e → from_arrays e.
Proof.
  unfold candidate_thresholds. intros [Hmax | (m & _ & [=])]%rbind_Err.
  right. destruct (if Nat.eqb _ 0 then _ else _); simpl in Hmax; congruence.
Qed.

Section later_stages.
Context `{SciPy}.

Lemma threshold_search_Err (Zlink : dendrogram) (candidates : list float64)
    (names : list string) (X : list (list float64)) (required_mask : list bool)
    (required_indices : list nat) (target : Z) (e : exn) (log : list event) :
  threshold_search Zlink candidates names X required_mask required_indices target
  = (Err e, log) → from_arrays e.
Proof.
  revert log. induction candidates as [|c rest IH]; intros log; [intros [=]|].
  rewrite threshold_search_cons.
  destruct (selection_at Zlink names X required_mask c) as [sel|e'] eqn:Hsel.
  - destruct (Z.of_nat (length sel.1) <=? target)%Z; [intros [=]|].
    destruct (threshold_search Zlink rest names X required_mask
                required_indices target) as [r l].
    cbn [fst snd]. intros [= -> <-]. by eapply IH.
  - intros [= <- <-]. by eapply select_from_labels_Err.
Qed.

Lemma choose_threshold_Err (Zlink : dendrogram) (candidates : list float64)
    (names : list string) (X : list (list float64)) (required_mask : list bool)
    (required_indices : list nat) (target : Z) (e : exn) (log : list event) :
  choose_threshold Zlink candidates names X required_mask required_indices target
  = (Err e, log) → from_arrays e.
Proof.
  rewrite choose_threshold_eq. cbn zeta.
  destruct (threshold_search Zlink candidates names X required_mask
              required_indices target) as [[[chosen|]|e'] l] eqn:Hs; cbn [fst snd].
  - intros [=].
  - destruct (last candidates) as [final|]; [|intros [= <- _]; by left].
    destruct (selection_at Zlink names X required_mask final) as [sel|e''] eqn:Hsel;
      [intros [=]|].
    intros [= <- _]. by eapply select_from_labels_Err.
  - intros [= <- _]. by eapply threshold_search_Err.
Qed.

End later_stages.

(** ** The claims about the checks of [main] *)

Lemma ensure_priority_subset_Err (required_indices : list nat) (target : Z) (e : exn) :
  ensure_priority_subset required_indices target = Err e ↔
    e = PriorityExceedsTarget ∧ (target < Z.of_nat (length required_indices))%Z.
Proof.
  unfold ensure_priority_subset.
  destruct (Z.of_nat (length required_indices) >? target)%Z eqn:Hgt.
  - apply Z.gtb_lt in Hgt. split; [by intros [= <-] | by intros [-> _]].
  - split; [done|]. intros [_ Hlt]. apply Z.gtb_lt in Hlt. congruence.
Qed.

Lemma read_meta_Err (lines : list string) (e : exn) :
  read_meta lines = Err e → e = MetadataEmpty.
Proof. unfold read_meta. case_decide; [by intros [= <-] | done]. Qed.

Section checks.
Context `{SciPy}.

(** Past the priority check, [main] raises no [PriorityExceedsTarget]. *)
Lemma main_later_Err (a : args) (names : list string) (X : list (list float64))
    (meta_map : gmap string string) (Zlink : dendrogram)
    (candidates : list float64) (e : exn) :
  let required_indices :=
    required_indices_of names (priority_ids meta_map (priority a)) in
  let required_mask := required_mask_of (length names) required_indices in
  (chosen ← (choose_threshold Zlink candidates names X required_mask
               required_indices (target a)).1;
   selected ← index_many names chosen.1.1;
   Ok {| chosen_indices := chosen.1.1; chosen_records := chosen.1.2;
         chosen_threshold := chosen.2; selected_names := selected |}) = Err e →
  from_arrays e.
Proof.
  cbn zeta.
  destruct (choose_threshold Zlink candidates names X _ _ (target a))
    as [[chosen|e'] log] eqn:Hc; cbn [fst].
  - intros Hrun. cbn in Hrun.
    apply rbind_Err in Hrun as [Hidx | (? & _ & [=])]. left. by eapply index_many_Err.
  - intros [= <-]. by eapply choose_threshold_Err.
Qed.

(** C2. The run ends with the priority error exactly when the metadata was
    read and the required items outnumber the target; [ensure_priority_subset]
    raises exactly then; and when the run ends so, it has made no call of
    [squareform], [linkage] or [fcluster]. *)
Theorem priority_check_before_clustering (a : args) (meta_lines names : list string)
    (X : list (list float64)) :
  ((main a meta_lines names X).1 = Err PriorityExceedsTarget ↔
     ∃ meta_map, read_meta meta_lines = Ok meta_map
       ∧ (target a < Z.of_nat (length (required_indices_of names
                                         (priority_ids meta_map (priority a)))))%Z)
  ∧ ((main a meta_lines names X).1 = Err PriorityExceedsTarget →
     (main a meta_lines names X).2 = [])
  ∧ (∀ required_indices t,
       ensure_priority_subset required_indices t = Err PriorityExceedsTarget ↔
         (t < Z.of_nat (length required_indices))%Z).
Proof.
  assert (Hnot : ∀ e, from_arrays e → e ≠ PriorityExceedsTarget).
  { by intros e [-> | ->]. }
  split_and!;
    [| |intros req t; rewrite ensure_priority_subset_Err; split; [by intros [_ ?] | done]].
  - rewrite main_stages.
    destruct (read_meta meta_lines) as [meta_map|e] eqn:Hread.
    + cbn zeta.
      destruct (ensure_priority_subset _ (target a)) as [[]|e] eqn:Hens.
      * split.
        -- destruct (NumPy.any_isnan (squareform X)); [done|].
           destruct (linkage (squareform X) (linkage_arg a)); [|done].
           destruct (candidate_thresholds (squareform X) (max_threshold a))
             as [candidates|e] eqn:Hcand; cbn [fst].
           ++ intros He%main_later_Err. by apply Hnot in He.
           ++ intros [= ->]. apply candidate_thresholds_Err in Hcand. by apply Hnot in Hcand.
        -- intros (meta_map' & [= <-] & Hlt).
           assert (ensure_priority_subset
                     (required_indices_of names (priority_ids meta_map (priority a)))
                     (target a) = Err PriorityExceedsTarget) as Herr
             by (by apply ensure_priority_subset_Err).
           congruence.
      * apply ensure_priority_subset_Err in Hens as [-> Hlt]. split; [|done].
        intros _. by exists meta_map.
    + apply read_meta_Err in Hread as ->. split; [done|]. by intros (? & [=] & _).
  - rewrite main_stages.
    destruct (read_meta meta_lines) as [meta_map|e] eqn:Hread; [|done].
    cbn zeta.
    destruct (ensure_priority_subset _ (target a)) as [[]|e] eqn:Hens; [|done].
    destruct (NumPy.any_isnan (squareform X)); [done|].
    destruct (linkage (squareform X) (linkage_arg a)); [|done].
    destruct (candidate_thresholds (squareform X) (max_threshold a))
      as [candidates|e] eqn:Hcand; cbn [fst].
    + intros He%main_later_Err. by apply Hnot in He.
    + intros [= ->]. apply candidate_thresholds_Err in Hcand. by apply Hnot in Hcand.
Qed.

End checks.

(** ** The condensed matrix *)

(** [squareform] holds exactly the entries above the diagonal. *)
Lemma elem_of_squareform (X : list (list float64)) (x : float64) :
  x ∈ squareform X ↔ ∃ i j, i < j ∧ entry X i j = Some x.
Proof.
  unfold squareform, entry. rewrite list_elem_of_join. split.
  - intros (l & Hx & (i & row & -> & Hrow)%elem_of_lookup_imap).
    apply list_elem_of_lookup_1 in Hx as [k Hk]. rewrite lookup_drop in Hk.
    exists i, (S i + k). split; [lia|]. by rewrite Hrow.
  - intros (i & j & Hij & Hx).
    destruct (X !! i) as [row|] eqn:Hrow; [|done]. simpl in Hx.
    exists (drop (S i) row). split.
    + apply list_elem_of_lookup. exists (j - S i). rewrite lookup_drop.
      by replace (S i + (j - S i)) with j by lia.
    + apply elem_of_lookup_imap. by exists i, row.
Qed.

Lemma any_isnan_true (a : list float64) : NumPy.any_isnan a = true ↔ NaN ∈ a.
Proof.
  unfold NumPy.any_isnan. induction a as [|x a IH]; simpl.
  - split; [done | by intros ?%elem_of_nil].
  - rewrite orb_true_iff, IH, elem_of_cons. destruct x as [|d]; simpl.
    + split; intros _; by left.
    + split; (intros [?|?]; [done | by right]).
Qed.

Section nan_check.
Context `{SciPy}.

(** C8, as the script has it.  The run ends with the NaN error exactly when
    the metadata was read, the priority check passed and an entry above the
    diagonal is NaN; it has then called [squareform] and nothing else, so no
    hierarchy was built. *)
Theorem nan_check_before_linkage (a : args) (meta_lines names : list string)
    (X : list (list float64)) :
  ((main a meta_lines names X).1 = Err MatrixHasNaN ↔
     (∃ meta_map, read_meta meta_lines = Ok meta_map
        ∧ (Z.of_nat (length (required_indices_of names
                               (priority_ids meta_map (priority a)))) <= target a)%Z)
     ∧ ∃ i j, i < j ∧ entry X i j = Some NaN)
  ∧ ((main a meta_lines names X).1 = Err MatrixHasNaN →
     (main a meta_lines names X).2 = [CallSquareform]).
Proof.
  assert (Hnot : ∀ e, from_arrays e → e ≠ MatrixHasNaN).
  { by intros e [-> | ->]. }
  assert (Hnan : NumPy.any_isnan (squareform X) = true ↔
                 ∃ i j, i < j ∧ entry X i j = Some NaN).
  { by rewrite any_isnan_true, elem_of_squareform. }
  rewrite main_stages.
  destruct (read_meta meta_lines) as [meta_map|e] eqn:Hread.
  - cbn zeta.
    destruct (ensure_priority_subset _ (target a)) as [[]|e] eqn:Hens.
    + assert (Z.of_nat (length (required_indices_of names
                                  (priority_ids meta_map (priority a)))) <= target a)%Z
        as Hfits.
      { destruct (Z_le_gt_dec (Z.of_nat (length (required_indices_of names
                   (priority_ids meta_map (priority a))))) (target a)) as [?|Hgt]; [done|].
        assert (ensure_priority_subset
                  (required_indices_of names (priority_ids meta_map (priority a)))
                  (target a) = Err PriorityExceedsTarget) as Herr.
        { apply ensure_priority_subset_Err. split; [done | lia]. }
        congruence. }
      destruct (NumPy.any_isnan (squareform X)) eqn:Hany.
      * split; [|done]. split; [|done]. intros _. split; [by exists meta_map|].
        by apply Hnan.
      * assert (¬ ∃ i j, i < j ∧ entry X i j = Some NaN) as Hnone.
        { intros Hex%Hnan. congruence. }
        destruct (linkage (squareform X) (linkage_arg a)).
        -- destruct (candidate_thresholds (squareform X) (max_threshold a))
             as [candidates|e] eqn:Hcand; cbn [fst].
           ++ split; [split|].
              ** intros He%main_later_Err. by apply Hnot in He.
              ** by intros [_ ?].
              ** intros He%main_later_Err. by apply Hnot in He.
           ++ apply candidate_thresholds_Err, Hnot in Hcand.
              split; [split|]; [by intros [= ->] | by intros [_ ?] | by intros [= ->]].
        -- split; [split|]; [done | by intros [_ ?] | done].
    + apply ensure_priority_subset_Err in Hens as [-> Hlt].
      split; [split|]; [done | | done].
      intros [(meta_map' & [= <-] & Hle) _]. lia.
  - apply read_meta_Err in Hread as ->.
    split; [split|]; [done | by intros [(? & [=] & _) _] | done].
Qed.

End nan_check.

(** ** [np.unique] and the candidate thresholds *)

#[local] Instance sort_le_total : Total NumPy.sort_le.
Proof.
  intros [|p] [|r]; simpl; try tauto.
  destruct (Qlt_le_dec r p) as [Hlt|Hle]; [right; by apply Qlt_le_weak | by left].
Qed.

#[local] Instance sort_le_trans : Transitive NumPy.sort_le.
Proof. intros [|p] [|r] [|s]; simpl; try tauto. apply Qle_trans. Qed.

Lemma positive_Fin (x : float64) : positive x ↔ ∃ d, x = Fin d ∧ (0 < d)%Q.
Proof.
  unfold positive, NumPy.zero. destruct x as [|d].
  - split; [done | by intros (? & [=] & _)].
  - rewrite lt_Fin. split; [by exists d | by intros (? & [= <-] & ?)].
Qed.

Lemma flt_Fin (p r : Q) : flt (Fin p) (Fin r) ↔ (p < r)%Q.
Proof. apply lt_Fin. Qed.

Lemma flt_trans (x y z : float64) : flt x y → flt y z → flt x z.
Proof.
  destruct x as [|p], y as [|r], z as [|s]; try done.
  rewrite !flt_Fin. apply Qlt_trans.
Qed.

Lemma drop_repeats_sorted (prev' prev : float64) (a : list float64) :
  NumPy.isnan prev = false → Forall (λ x, NumPy.isnan x = false) a →
  NumPy.eqb prev' prev = true →
  StronglySorted NumPy.sort_le (prev :: a) →
  StronglySorted flt (prev' :: NumPy.drop_repeats prev a).
Proof.
  revert prev' prev. induction a as [|x a IH]; intros prev' prev Hprev Ha Heq Hs; simpl.
  - repeat constructor.
  - apply Forall_cons in Ha as [Hx Ha].
    apply StronglySorted_inv in Hs as [Hs Hle].
    apply Forall_cons in Hle as [Hpx Hle].
    destruct prev' as [|p']; [done|]. destruct prev as [|p]; [done|].
    destruct x as [|d]; [done|]. apply eqb_Fin in Heq. simpl in Hpx.
    destruct (NumPy.eqb (Fin d) (Fin p)) eqn:Hdp.
    + apply eqb_Fin in Hdp. apply IH; [done | done | | done].
      apply eqb_Fin. lra.
    + assert (p < d)%Q as Hlt.
      { apply Qnot_le_lt. intros Hdle. apply Qeq_bool_neq in Hdp. apply Hdp. lra. }
      specialize (IH (Fin d) (Fin d) eq_refl Ha (Qeq_bool_refl d) Hs).
      constructor; [done|].
      apply StronglySorted_inv in IH as [_ Hrest].
      constructor; [apply flt_Fin; lra|].
      eapply Forall_impl; [exact Hrest|]. intros y Hy.
      eapply flt_trans; [|exact Hy]. apply flt_Fin. lra.
Qed.

Lemma drop_repeats_subset (prev : float64) (a : list float64) (x : float64) :
  x ∈ NumPy.drop_repeats prev a → x ∈ a.
Proof.
  revert prev. induction a as [|y a IH]; intros prev; simpl; [done|].
  destruct (NumPy.eqb y prev).
  - intros Hx%IH. by right.
  - intros [->|Hx%IH]%elem_of_cons; [by left | by right].
Qed.

Lemma drop_repeats_covers (prev' prev : float64) (a : list float64) (x : float64) :
  NumPy.isnan prev = false → Forall (λ x, NumPy.isnan x = false) a →
  NumPy.eqb prev' prev = true →
  x ∈ a → ∃ h, h ∈ prev' :: NumPy.drop_repeats prev a ∧ NumPy.eqb h x = true.
Proof.
  revert prev' prev. induction a as [|y a IH]; intros prev' prev Hprev Ha Heq Hx;
    [by apply elem_of_nil in Hx|].
  apply Forall_cons in Ha as [Hy Ha]. simpl.
  destruct prev' as [|p']; [done|]. destruct prev as [|p]; [done|].
  destruct y as [|d]; [done|]. apply eqb_Fin in Heq.
  destruct (NumPy.eqb (Fin d) (Fin p)) eqn:Hdp.
  - apply eqb_Fin in Hdp.
    apply elem_of_cons in Hx as [->|Hx].
    + exists (Fin p'). split; [by left|]. apply eqb_Fin. lra.
    + apply (IH (Fin p') (Fin d)); [done | done | | done]. apply eqb_Fin. lra.
  - apply elem_of_cons in Hx as [->|Hx].
    + exists (Fin d). split; [right; by left | apply Qeq_bool_refl].
    + destruct (IH (Fin d) (Fin d) eq_refl Ha (Qeq_bool_refl d) Hx) as (h & Hh & Hhx).
      exists h. split; [by right | done].
Qed.

(** [np.unique] on finite values: strictly ascending, made of values of
    the array, and with a representative of every value of the array. *)
Lemma unique_spec (a : list float64) :
  Forall (λ x, NumPy.isnan x = false) a →
  StronglySorted flt (NumPy.unique a)
  ∧ (∀ x, x ∈ NumPy.unique a → x ∈ a)
  ∧ (∀ x, x ∈ a → ∃ h, h ∈ NumPy.unique a ∧ NumPy.eqb h x = true).
Proof.
  intros Ha. unfold NumPy.unique.
  pose proof (merge_sort_Permutation NumPy.sort_le a) as Hperm.
  pose proof (StronglySorted_merge_sort NumPy.sort_le a) as Hsorted.
  assert (Forall (λ x, NumPy.isnan x = false) (merge_sort NumPy.sort_le a)) as Hfin
    by (by rewrite Hperm).
  destruct (merge_sort NumPy.sort_le a) as [|m s].
  - split_and!; [constructor | by intros x ?%elem_of_nil |].
    intros x Hx. rewrite <- Hperm in Hx. by apply elem_of_nil in Hx.
  - apply Forall_cons in Hfin as [Hm Hs].
    assert (NumPy.eqb m m = true) as Hmm.
    { destruct m; [done | apply Qeq_bool_refl]. }
    split_and!.
    + by apply drop_repeats_sorted.
    + intros x [->|Hx%drop_repeats_subset]%elem_of_cons; rewrite <- Hperm;
        [by left | by right].
    + intros x Hx. rewrite <- Hperm in Hx. apply elem_of_cons in Hx as [->|Hx].
      * exists m. split; [by left | done].
      * by apply drop_repeats_covers.
Qed.

Lemma foldl_max2_sorted (m : float64) (a : list float64) :
  StronglySorted flt (m :: a) → foldl NumPy.max2 m a = default m (last a).
Proof.
  revert m. induction a as [|x a IH]; intros m Hs; [done|].
  apply StronglySorted_inv in Hs as [Hs Hm].
  apply Forall_cons in Hm as [Hmx _].
  simpl. assert (NumPy.max2 m x = x) as ->.
  { unfold NumPy.max2. destruct m as [|p]; [done|]. destruct x as [|d]; [done|].
    simpl. unfold flt in Hmx. simpl in Hmx. by rewrite Hmx. }
  rewrite IH by done. destruct a as [|y a]; [done|].
  destruct (last (y :: a)) as [z|] eqn:Hlast; [by rewrite last_cons, Hlast|].
  by apply last_None in Hlast.
Qed.

Lemma max_sorted (a : list float64) :
  a ≠ [] → StronglySorted flt a →
  ∃ top, NumPy.max a = Ok top ∧ last a = Some top.
Proof.
  destruct a as [|m a]; [done|]. intros _ Hs.
  exists (default m (last a)). split.
  - simpl. by rewrite foldl_max2_sorted.
  - destruct a as [|x a] using rev_ind; [done|].
    by rewrite app_comm_cons, !last_snoc.
Qed.

Lemma sorted_below_last (a : list float64) (top h : float64) :
  StronglySorted flt a → last a = Some top → h ∈ a → h = top ∨ flt h top.
Proof.
  intros Hs Hlast Hh. destruct a as [|x a _] using rev_ind; [done|].
  rewrite last_snoc in Hlast. injection Hlast as ->.
  apply elem_of_app in Hh as [Hh | ->%list_elem_of_singleton]; [|by left].
  right. apply (StronglySorted_app_1_elem_of flt a [top]); [done | done | by left].
Qed.

(** The heights of the search before the sentinel. *)
Lemma positive_distances_spec (condensed : list float64) :
  let found := NumPy.unique (filter positive condensed) in
  let heights := if Nat.eqb (length found) 0 then [Fin 0] else found in
  heights ≠ []
  ∧ StronglySorted flt heights
  ∧ Forall (λ h, NumPy.isnan h = false) heights
  ∧ ((∀ x, x ∈ condensed → ¬ positive x) → heights = [Fin 0])
  ∧ ((∃ x, x ∈ condensed ∧ positive x) →
       (∀ h, h ∈ heights → h ∈ condensed ∧ positive h)
       ∧ (∀ x, x ∈ condensed → positive x →
            ∃ h, h ∈ heights ∧ NumPy.eqb h x = true)).
Proof.
  cbn zeta.
  destruct (unique_spec (filter positive condensed)) as (Hsorted & Hsub & Hcov).
  { apply Forall_forall. intros x [Hx _]%list_elem_of_filter.
    apply positive_Fin in Hx as (d & -> & _). done. }
  destruct (NumPy.unique (filter positive condensed)) as [|h0 found] eqn:Hu; simpl.
  - split_and!; [done | by repeat constructor | by repeat constructor | done |].
    intros (x & Hx & Hpos). destruct (Hcov x) as (h & Hh & _).
    { by apply list_elem_of_filter. }
    by apply elem_of_nil in Hh.
  - split_and!; [done | done | | |].
    + apply Forall_forall. intros h [Hpos _]%Hsub%list_elem_of_filter.
      apply positive_Fin in Hpos as (d & -> & _). done.
    + intros Hnone.
      assert (h0 ∈ filter positive condensed) as [Hpos Hin]%list_elem_of_filter
        by (apply Hsub; by left).
      by apply Hnone in Hin.
    + intros _. split.
      * intros h Hh. apply Hsub in Hh as [? ?]%list_elem_of_filter. done.
      * intros x Hx Hpos. apply Hcov. by apply list_elem_of_filter.
Qed.

(** C4, as the script has it.  The candidates are the strictly ascending
    list of the distinct positive values above the diagonal ([0.0] alone
    when there is none), followed by one sentinel: the largest of them, or
    the caller's bound when that is smaller, plus [epsilon].  With no bound,
    or a bound that is not below the largest height, the sentinel is the
    largest height plus [epsilon]. *)
Theorem candidate_thresholds_spec (X : list (list float64)) (bound : option float64) :
  ∃ heights top,
    candidate_thresholds (squareform X) bound
    = Ok (heights ++ [NumPy.add (match bound with
                                 | Some b => NumPy.py_min top b
                                 | None => top
                                 end) epsilon])
    ∧ StronglySorted flt heights
    ∧ last heights = Some top
    ∧ ((∀ i j x, i < j → entry X i j = Some x → ¬ positive x) → heights = [Fin 0])
    ∧ ((∃ i j x, i < j ∧ entry X i j = Some x ∧ positive x) →
         (∀ h, h ∈ heights → positive h ∧ ∃ i j, i < j ∧ entry X i j = Some h)
         ∧ (∀ i j x, i < j → entry X i j = Some x → positive x →
              ∃ h, h ∈ heights ∧ NumPy.eqb h x = true))
    ∧ (match bound with
       | Some b => NumPy.lt b top = false
       | None => True
       end →
       candidate_thresholds (squareform X) bound
       = Ok (heights ++ [NumPy.add top epsilon])).
Proof.
  destruct (positive_distances_spec (squareform X))
    as (Hne & Hsorted & _ & Hnone & Hsome).
  unfold candidate_thresholds.
  set (heights := if Nat.eqb (length (NumPy.unique (filter positive (squareform X)))) 0
                  then [Fin 0]
                  else NumPy.unique (filter positive (squareform X))) in *.
  destruct (max_sorted heights Hne Hsorted) as (top & Hmax & Hlast).
  exists heights, top. rewrite Hmax. cbn [mbind result_bind].
  split_and!; [done | done | done | | |].
  - intros Hno. apply Hnone. intros x (i & j & Hij & Hx)%elem_of_squareform.
    by eapply Hno.
  - intros (i & j & x & Hij & Hx & Hpos).
    destruct Hsome as [Hin Hcov].
    { exists x. split; [|done]. apply elem_of_squareform. by exists i, j. }
    split.
    + intros h [Hh Hp]%Hin. split; [done|]. by apply elem_of_squareform.
    + intros i' j' x' Hij' Hx' Hpos'. apply Hcov; [|done].
      apply elem_of_squareform. by exists i', j'.
  - destruct bound as [b|]; [|done]. intros Hb. unfold NumPy.py_min. by rewrite Hb.
Qed.

(** For two items at distance 1 and a bound of 5 the sentinel is 1.000001,
    not 5.000001; a positive distance below the diagonal only (7) is no
    candidate; and with no positive distance the first candidate is 0. *)
Lemma sentinel_ignores_larger_bound :
  (candidate_thresholds (squareform [[Fin 0; Fin 1]; [Fin 1; Fin 0]]) (Some (Fin 5))
   = Ok [Fin 1; Fin (1000001 # 1000000)]
   ∧ Fin (1000001 # 1000000) ≠ NumPy.add (NumPy.max2 (Fin 1) (Fin 5)) epsilon)
  ∧ candidate_thresholds (squareform [[Fin 0; Fin 1]; [Fin 7; Fin 0]]) None
    = Ok [Fin 1; Fin (1000001 # 1000000)]
  ∧ candidate_thresholds (squareform [[Fin 0; Fin 0]; [Fin 0; Fin 0]]) None
    = Ok [Fin 0; Fin (1 # 1000000)].
Proof. split_and!; by vm_compute. Qed.

(** ** Runs that return *)

Lemma select_from_labels_inv (cluster_labels : list nat) (names : list string)
    (X : list (list float64)) (required_mask : list bool)
    (sel : list nat) (recs : list cluster_record) :
  select_from_labels cluster_labels names X required_mask = Ok (sel, recs) →
  ∃ per_cluster,
    Forall2 (λ cl pc, select_in_cluster names X required_mask cl = Ok pc)
            (build_clusters cluster_labels) per_cluster
    ∧ sel = filter (λ idx, idx ∈ merge_sort le
                      (elements (list_to_set (mjoin (per_cluster.*1)) : gset nat)))
                   (seq 0 (length names))
    ∧ recs = merge_sort by_cluster_id (per_cluster.*2).
Proof.
  unfold select_from_labels. intros (per_cluster & Hpc & [= <- <-])%rbind_Ok.
  exists per_cluster. split; [by apply mapM_Ok | done].
Qed.

Lemma select_from_labels_bound (cluster_labels : list nat) (names : list string)
    (X : list (list float64)) (required_mask : list bool)
    (sel : list nat) (recs : list cluster_record) :
  select_from_labels cluster_labels names X required_mask = Ok (sel, recs) →
  StronglySorted lt sel ∧ Forall (λ i, i < length names) sel.
Proof.
  intros (per_cluster & _ & -> & _)%select_from_labels_inv. split.
  - apply StronglySorted_filter, StronglySorted_seq.
  - apply Forall_forall. intros i [_ Hi%elem_of_seq]%list_elem_of_filter. lia.
Qed.

Section returns.
Context `{SciPy}.

Lemma choose_threshold_inv (Zlink : dendrogram) (candidates : list float64)
    (names : list string) (X : list (list float64)) (required_mask : list bool)
    (required_indices : list nat) (target : Z)
    (idx : list nat) (recs : list cluster_record) (t : float64) (log : list event) :
  choose_threshold Zlink candidates names X required_mask required_indices target
  = (Ok (idx, recs, t), log) →
  threshold_search Zlink candidates names X required_mask required_indices target
  = (Ok (Some (idx, recs, t)), log)
  ∨ (∃ l, threshold_search Zlink candidates names X required_mask
            required_indices target = (Ok None, l)
          ∧ last candidates = Some t
          ∧ selection_at Zlink names X required_mask t = Ok (idx, recs)
          ∧ log = l ++ [CallFcluster t]).
Proof.
  rewrite choose_threshold_eq. cbn zeta.
  destruct (threshold_search Zlink candidates names X required_mask
              required_indices target) as [[[chosen|]|e] l]; cbn [fst snd].
  - intros [= -> ->]. by left.
  - destruct (last candidates) as [final|]; [|intros [=]].
    destruct (selection_at Zlink names X required_mask final) as [[idx' recs']|e] eqn:Hsel;
      [|intros [=]].
    cbn [fst snd]. intros [= -> -> -> <-]. right. by exists l.
  - intros [=].
Qed.

(** What a run that returns went through. *)
Lemma main_Ok_inv (a : args) (meta_lines names : list string)
    (X : list (list float64)) (o : outcome) (log : list event) :
  main a meta_lines names X = (Ok o, log) →
  ∃ meta_map Zlink candidates log',
    read_meta meta_lines = Ok meta_map
    ∧ (Z.of_nat (length (run_required a names meta_map)) <= target a)%Z
    ∧ NumPy.any_isnan (squareform X) = false
    ∧ linkage (squareform X) (linkage_arg a) = Some Zlink
    ∧ candidate_thresholds (squareform X) (max_threshold a) = Ok candidates
    ∧ choose_threshold Zlink candidates names X (run_mask a names meta_map)
        (run_required a names meta_map) (target a)
      = (Ok (chosen_indices o, chosen_records o, chosen_threshold o), log')
    ∧ index_many names (chosen_indices o) = Ok (selected_names o)
    ∧ log = [CallSquareform; CallLinkage (squareform X) (linkage_arg a)] ++ log'.
Proof.
  rewrite main_stages. unfold run_mask, run_required.
  destruct (read_meta meta_lines) as [meta_map|e]; [|intros [=]]. cbn zeta.
  destruct (ensure_priority_subset _ (target a)) as [[]|e] eqn:Hens; [|intros [=]].
  destruct (NumPy.any_isnan (squareform X)); [intros [=]|].
  destruct (linkage (squareform X) (linkage_arg a)) as [Zlink|]; [|intros [=]].
  destruct (candidate_thresholds (squareform X) (max_threshold a)) as [candidates|e];
    [|intros [=]].
  destruct (choose_threshold Zlink candidates names X _ _ (target a))
    as [[[[idx recs] t]|e] log'] eqn:Hc; [|intros [=]].
  cbn. destruct (index_many names idx) as [selected|e] eqn:Hidx; [|intros [=]].
  cbn. intros [= <- <-]. exists meta_map, Zlink, candidates, log'. cbn.
  split_and!; try done.
  unfold ensure_priority_subset in Hens.
  destruct (Z.of_nat _ >? target a)%Z eqn:Hgt; [done|].
  rewrite Z.gtb_ltb in Hgt. by apply Z.ltb_ge in Hgt.
Qed.

(** A run whose stages succeed returns what [choose_threshold] chose. *)
Lemma main_Ok_intro (a : args) (meta_lines names : list string)
    (X : list (list float64)) (meta_map : gmap string string) (Zlink : dendrogram)
    (candidates : list float64) (idx : list nat) (recs : list cluster_record)
    (t : float64) (log' : list event) :
  read_meta meta_lines = Ok meta_map →
  (Z.of_nat (length (run_required a names meta_map)) <= target a)%Z →
  NumPy.any_isnan (squareform X) = false →
  linkage (squareform X) (linkage_arg a) = Some Zlink →
  candidate_thresholds (squareform X) (max_threshold a) = Ok candidates →
  choose_threshold Zlink candidates names X (run_mask a names meta_map)
    (run_required a names meta_map) (target a) = (Ok (idx, recs, t), log') →
  selection_at Zlink names X (run_mask a names meta_map) t = Ok (idx, recs) →
  ∃ selected,
    index_many names idx = Ok selected
    ∧ main a meta_lines names X
      = (Ok {| chosen_indices := idx; chosen_records := recs;
               chosen_threshold := t; selected_names := selected |},
         [CallSquareform; CallLinkage (squareform X) (linkage_arg a)] ++ log').
Proof.
  intros Hread Hfits Hnan Hlink Hcand Hchoose Hsel.
  destruct (index_many_Ok_exists names idx) as [selected Hidx].
  { by apply select_from_labels_bound in Hsel as [_ ?]. }
  exists selected. split; [done|].
  rewrite main_stages, Hread. cbn zeta.
  unfold run_mask, run_required in *.
  assert (ensure_priority_subset
            (required_indices_of names (priority_ids meta_map (priority a)))
            (target a) = Ok ()) as ->.
  { unfold ensure_priority_subset.
    destruct (Z.of_nat _ >? target a)%Z eqn:Hgt; [|done]. apply Z.gtb_lt in Hgt. lia. }
  rewrite Hnan, Hlink, Hcand, Hchoose. cbn. by rewrite Hidx.
Qed.

End returns.

(** ** The first feasible candidate *)

(** The candidates are the merge heights, strictly ascending, followed by
    one sentinel. *)
Lemma candidate_thresholds_heights (condensed : list float64)
    (bound : option float64) (candidates : list float64) :
  candidate_thresholds condensed bound = Ok candidates →
  ∃ heights sentinel,
    candidates = heights ++ [sentinel] ∧ StronglySorted flt heights.
Proof.
  destruct (positive_distances_spec condensed) as (Hne & Hsorted & _).
  unfold candidate_thresholds.
  set (heights := if Nat.eqb (length (NumPy.unique (filter positive condensed))) 0
                  then [Fin 0]
                  else NumPy.unique (filter positive condensed)) in *.
  destruct (max_sorted heights Hne Hsorted) as (top & -> & _).
  cbn [mbind result_bind]. intros [= <-]. by eexists heights, _.
Qed.

Lemma app_cons_compare {A} (pre1 pre2 post1 post2 : list A) (x1 x2 : A) :
  pre1 ++ x1 :: post1 = pre2 ++ x2 :: post2 →
  x2 ∈ pre1 ∨ (pre1 = pre2 ∧ x1 = x2 ∧ post1 = post2) ∨ x1 ∈ pre2.
Proof.
  revert pre2. induction pre1 as [|y pre1 IH]; intros [|z pre2]; simpl.
  - intros [= -> ->]. right. by left.
  - intros [= -> _]. right. right. by left.
  - intros [= -> _]. left. by left.
  - intros [= -> Heq]. destruct (IH _ Heq) as [?|[(-> & -> & ->)|?]].
    + left. by right.
    + right. by left.
    + right. right. by right.
Qed.

Section first_feasible.
Context `{SciPy}.

Lemma feasible_not_infeasible (Zlink : dendrogram) (names : list string)
    (X : list (list float64)) (required_mask : list bool) (t1 t2 : Z) (c : float64) :
  (t1 <= t2)%Z →
  feasible_at Zlink names X required_mask t1 c →
  infeasible_at Zlink names X required_mask t2 c → False.
Proof.
  intros Hle (sel & Hsel & Hfit) (sel' & Hsel' & Hover).
  rewrite Hsel in Hsel'. injection Hsel' as <-. lia.
Qed.

(** X25. In a run whose checks pass and in which some candidate is
    feasible, the search goes through the candidates in the order of the
    list and stops at the first feasible one: the run returns its
    selection, the candidates before it were evaluated and are not
    feasible, and no candidate after it is evaluated.  The list is the
    merge heights, strictly ascending, followed by the sentinel, so that
    every feasible merge height is the threshold returned or lies above
    it. *)
Theorem search_stops_at_first_feasible_candidate (a : args)
    (meta_lines names : list string) (X : list (list float64)) (n : nat)
    (meta_map : gmap string string) (Zlink : dendrogram)
    (candidates : list float64) :
  read_meta meta_lines = Ok meta_map →
  (Z.of_nat (length (run_required a names meta_map)) <= target a)%Z →
  NumPy.any_isnan (squareform X) = false →
  linkage (squareform X) (linkage_arg a) = Some Zlink →
  candidate_thresholds (squareform X) (max_threshold a) = Ok candidates →
  length names = n → square n X → (∀ t, length (fcluster Zlink t) = n) →
  (∃ t, t ∈ candidates
        ∧ feasible_at Zlink names X (run_mask a names meta_map) (target a) t) →
  ∃ pre t post o,
    candidates = pre ++ t :: post
    ∧ Forall (infeasible_at Zlink names X (run_mask a names meta_map) (target a)) pre
    ∧ feasible_at Zlink names X (run_mask a names meta_map) (target a) t
    ∧ main a meta_lines names X
      = (Ok o, [CallSquareform; CallLinkage (squareform X) (linkage_arg a)]
               ++ (CallFcluster <$> (pre ++ [t])))
    ∧ chosen_threshold o = t
    ∧ selection_at Zlink names X (run_mask a names meta_map) t
      = Ok (chosen_indices o, chosen_records o)
    ∧ ∃ heights sentinel,
        candidates = heights ++ [sentinel]
        ∧ StronglySorted flt heights
        ∧ ∀ t', t' ∈ heights →
            feasible_at Zlink names X (run_mask a names meta_map) (target a) t' →
            t' = t ∨ flt t t'.
Proof.
  intros Hread Hfits Hnan Hlink Hcand Hnames HX Hlabels (t0 & Ht0 & Hfeas0).
  destruct (threshold_search_Ok Zlink names X (run_mask a names meta_map)
              (run_required a names meta_map) (target a) candidates)
    as (found & log & Hsearch).
  { apply Forall_forall. intros t _.
    destruct (select_from_labels_Ok n (fcluster Zlink t) names X
                (run_mask a names meta_map)) as (pc & _ & Hsel); try done.
    { unfold run_mask. by rewrite required_mask_of_length. }
    by eexists. }
  destruct found as [[[idx recs] t]|].
  - apply threshold_search_found in Hsearch as Hfound.
    destruct Hfound as (pre & post & -> & Hpre & Hsel & Hfit & ->).
    destruct (main_Ok_intro a meta_lines names X meta_map Zlink (pre ++ t :: post)
                idx recs t (CallFcluster <$> (pre ++ [t])))
      as (selected & Hidx & Hmain); try done.
    { rewrite choose_threshold_eq. by rewrite Hsearch. }
    assert (feasible_at Zlink names X (run_mask a names meta_map) (target a) t) as Hfeas.
    { by exists (idx, recs). }
    eexists pre, t, post, _. split_and!; [done | done | done | exact Hmain | done | done |].
    destruct (candidate_thresholds_heights _ _ _ Hcand)
      as (heights & sentinel & Heq & Hasc).
    exists heights, sentinel. split_and!; [done | done |].
    intros t' Hin Hfeas'.
    assert (t' ∉ pre) as Hnotpre.
    { intros Hin'. eapply Forall_forall in Hpre; [|exact Hin'].
      destruct (feasible_not_infeasible _ _ _ _ _ _ _ (Z.le_refl _) Hfeas' Hpre). }
    destruct (decide (post = [])) as [->|Hpost].
    + change (pre ++ [t] = heights ++ [sentinel]) in Heq.
      apply app_inj_tail in Heq as [-> _]. done.
    + destruct (exists_last Hpost) as (post' & s & ->).
      rewrite app_comm_cons, app_assoc in Heq.
      apply app_inj_tail in Heq as [<- _].
      apply elem_of_app in Hin as [Hin | [->|Hin]%elem_of_cons]; [done | by left |].
      right. apply StronglySorted_app in Hasc as (_ & _ & Hasc).
      apply StronglySorted_inv in Hasc as [_ Hasc].
      by eapply Forall_forall in Hasc.
  - apply threshold_search_none in Hsearch as [Hall _].
    eapply Forall_forall in Hall; [|exact Ht0].
    destruct (feasible_not_infeasible _ _ _ _ _ _ _ (Z.le_refl _) Hfeas0 Hall).
Qed.

End first_feasible.

(** ** Two targets *)

Section two_targets.
Context `{SciPy}.

(** Two runs that differ in the target only and both return. *)
Lemma two_targets_compare (a1 a2 : args) (meta_lines names : list string)
    (X : list (list float64)) (o1 o2 : outcome) (log1 log2 : list event) :
  priority a1 = priority a2 →
  linkage_arg a1 = linkage_arg a2 →
  max_threshold a1 = max_threshold a2 →
  (target a1 <= target a2)%Z →
  main a1 meta_lines names X = (Ok o1, log1) →
  main a2 meta_lines names X = (Ok o2, log2) →
  (Z.of_nat (length (chosen_indices o1)) <= target a1)%Z →
  length (chosen_indices o1) ≤ length (chosen_indices o2)
  ∧ (chosen_indices o2 = chosen_indices o1
     ∨ (target a1 < Z.of_nat (length (chosen_indices o2)))%Z).
Proof.
  intros Hprio Hlink Hbound Hle Hrun1 Hrun2 Hmeets.
  apply main_Ok_inv in Hrun1
    as (mm & Zlink & cands & l1 & Hread & _ & _ & HZ & Hcands & Hc1 & _ & _).
  apply main_Ok_inv in Hrun2
    as (mm' & Zlink' & cands' & l2 & Hread' & _ & _ & HZ' & Hcands' & Hc2 & _ & _).
  rewrite Hread in Hread'. injection Hread' as <-.
  rewrite <- Hlink, HZ in HZ'. injection HZ' as <-.
  rewrite <- Hbound, Hcands in Hcands'. injection Hcands' as <-.
  assert (run_required a2 names mm = run_required a1 names mm) as Hreq
    by (unfold run_required; by rewrite Hprio).
  assert (run_mask a2 names mm = run_mask a1 names mm) as Hmask
    by (unfold run_mask; by rewrite Hreq).
  rewrite Hreq, Hmask in Hc2.
  set (mask := run_mask a1 names mm) in *.
  assert (feasible_at Zlink names X mask (target a1) (chosen_threshold o1)
          ∧ ∃ pre1 post1, cands = pre1 ++ chosen_threshold o1 :: post1
              ∧ Forall (infeasible_at Zlink names X mask (target a1)) pre1)
    as (Hfeas1 & pre1 & post1 & Hsplit1 & Hpre1).
  { apply choose_threshold_inv in Hc1 as [Hfound | (l & Hnone & Hlast & Hsel & _)].
    - apply threshold_search_found in Hfound as (pre & post & -> & Hpre & Hsel & Hfit & _).
      split; [by eexists | by exists pre, post].
    - apply threshold_search_none in Hnone as [Hall _].
      apply last_Some in Hlast as [l' ->].
      apply Forall_app in Hall as [_ Hall]. rewrite Forall_singleton in Hall.
      destruct Hall as (sel & Hsel' & Hover). rewrite Hsel in Hsel'.
      injection Hsel' as <-. simpl in Hover. lia. }
  apply choose_threshold_inv in Hc2 as [Hfound | (l & Hnone & _)].
  - apply threshold_search_found in Hfound as (pre2 & post2 & Hsplit2 & Hpre2 & Hsel2 & Hfit2 & _).
    rewrite Hsplit1 in Hsplit2.
    destruct Hfeas1 as (sel1 & Hsel1 & Hfit1).
    destruct (app_cons_compare _ _ _ _ _ _ Hsplit2) as [Hin | [(_ & Ht & _) | Hin]].
    + eapply Forall_forall in Hpre1; [|exact Hin].
      destruct Hpre1 as (sel2 & Hsel2' & Hover). rewrite Hsel2 in Hsel2'.
      injection Hsel2' as <-. simpl in Hover.
      apply choose_threshold_inv in Hc1 as Hc1'.
      assert (selection_at Zlink names X mask (chosen_threshold o1)
              = Ok (chosen_indices o1, chosen_records o1)) as Hsel1'.
      { destruct Hc1' as [Hf | (? & _ & _ & ? & _)]; [|done].
        by apply threshold_search_found in Hf as (? & ? & _ & _ & ? & _). }
      split; [lia | by right].
    + rewrite <- Ht in Hsel2.
      apply choose_threshold_inv in Hc1 as Hc1'.
      assert (selection_at Zlink names X mask (chosen_threshold o1)
              = Ok (chosen_indices o1, chosen_records o1)) as Hsel1'.
      { destruct Hc1' as [Hf | (? & _ & _ & ? & _)]; [|done].
        by apply threshold_search_found in Hf as (? & ? & _ & _ & ? & _). }
      rewrite Hsel1' in Hsel2. injection Hsel2 as -> _. split; [done | by left].
    + eapply Forall_forall in Hpre2; [|exact Hin].
      destruct (feasible_not_infeasible Zlink names X mask
                  (target a1) (target a2) (chosen_threshold o1) Hle).
      * by exists sel1.
      * done.
  - apply threshold_search_none in Hnone as [Hall _].
    assert (chosen_threshold o1 ∈ cands) as Hin.
    { rewrite Hsplit1. apply elem_of_app. right. by left. }
    eapply Forall_forall in Hall; [|exact Hin].
    destruct (feasible_not_infeasible Zlink names X mask
                (target a1) (target a2) (chosen_threshold o1) Hle Hfeas1 Hall).
Qed.

End two_targets.

(** ** Order of the selection and of the records *)

Lemma select_in_cluster_id (names : list string) (X : list (list float64))
    (required_mask : list bool) (cid : nat) (members kept : list nat)
    (rec : cluster_record) :
  select_in_cluster names X required_mask (cid, members) = Ok (kept, rec) →
  cluster_id rec = cid ∧ size rec = length members
  ∧ index_many names kept = Ok (selected_ids rec).
Proof.
  unfold select_in_cluster.
  intros (flags & _ & (kept' & _ & (ids & Hids & [= <- <-])%rbind_Ok)%rbind_Ok)%rbind_Ok.
  done.
Qed.

Lemma indexed_sublist {A} (l : list A) (Q : nat → Prop) `{∀ i, Decision (Q i)}
    (off : nat) (k : list A) :
  Forall2 (λ i x, l !! (i - off) = Some x) (filter Q (seq off (length l))) k →
  k `sublist_of` l.
Proof.
  revert off k. induction l as [|x l IH]; intros off k; simpl.
  - intros ->%Forall2_nil_inv_l. constructor.
  - rewrite filter_cons. destruct (decide (Q off)) as [HQ|HQ].
    + intros (y & k' & Hy & Hk & ->)%Forall2_cons_inv_l.
      rewrite Nat.sub_diag in Hy. injection Hy as <-.
      apply sublist_skip, (IH (S off)).
      assert (Forall (λ i, S off ≤ i) (filter Q (seq (S off) (length l)))) as Hge.
      { apply Forall_forall. intros i [_ Hi%elem_of_seq]%list_elem_of_filter. lia. }
      revert Hk Hge. generalize (filter Q (seq (S off) (length l))).
      intros idxs Hk. induction Hk as [|i z idxs k' Hi _ IHk]; intros Hge; [constructor|].
      apply Forall_cons in Hge as [Hige Hge]. constructor; [|by apply IHk].
      replace (i - off) with (S (i - S off)) in Hi by lia. done.
    + intros Hk. apply sublist_cons, (IH (S off)).
      assert (Forall (λ i, S off ≤ i) (filter Q (seq (S off) (length l)))) as Hge.
      { apply Forall_forall. intros i [_ Hi%elem_of_seq]%list_elem_of_filter. lia. }
      revert Hk Hge. generalize (filter Q (seq (S off) (length l))).
      intros idxs Hk. induction Hk as [|i z idxs k' Hi _ IHk]; intros Hge; [constructor|].
      apply Forall_cons in Hge as [Hige Hge]. constructor; [|by apply IHk].
      replace (i - off) with (S (i - S off)) in Hi by lia. done.
Qed.

Lemma Sorted_le_NoDup_lt {A} (f : A → nat) (l : list A) :
  StronglySorted (λ x y, f x ≤ f y) l → NoDup (f <$> l) →
  StronglySorted (λ x y, f x < f y) l.
Proof.
  induction 1 as [|x l Hl IH Hx]; [constructor|].
  rewrite fmap_cons. intros [Hnin Hnd]%NoDup_cons. constructor; [by apply IH|].
  apply Forall_forall. intros y Hy.
  eapply Forall_forall in Hx; [|exact Hy]. simpl in Hx.
  assert (f x ≠ f y); [|lia].
  intros Heq. apply Hnin. rewrite Heq. by apply list_elem_of_fmap_2.
Qed.

#[local] Instance by_cluster_id_total : Total by_cluster_id.
Proof. intros r1 r2. unfold by_cluster_id. lia. Qed.

#[local] Instance by_cluster_id_trans : Transitive by_cluster_id.
Proof. intros r1 r2 r3. unfold by_cluster_id. lia. Qed.

(** Whatever the labels, a selection that is returned is strictly ascending
    and within the input, its names are a sublist of the input names, and
    the records are strictly ascending in their cluster id. *)
Lemma select_from_labels_ordered (cluster_labels : list nat) (names : list string)
    (X : list (list float64)) (required_mask : list bool)
    (sel : list nat) (recs : list cluster_record) :
  select_from_labels cluster_labels names X required_mask = Ok (sel, recs) →
  StronglySorted lt sel
  ∧ NoDup sel
  ∧ Forall (λ i, i < length names) sel
  ∧ StronglySorted (λ r1 r2, cluster_id r1 < cluster_id r2) recs
  ∧ ∃ emitted, index_many names sel = Ok emitted
      ∧ emitted `sublist_of` names
      ∧ (NoDup names → NoDup emitted).
Proof.
  intros Hsel. pose proof (select_from_labels_bound _ _ _ _ _ _ Hsel) as [Hsorted Hlt].
  apply select_from_labels_inv in Hsel as (per_cluster & Hpc & Hsel & ->).
  split_and!; [done | by apply StronglySorted_lt_NoDup | done | |].
  - apply (Sorted_le_NoDup_lt cluster_id).
    + apply (StronglySorted_merge_sort by_cluster_id).
    + rewrite merge_sort_Permutation.
      assert ((build_clusters cluster_labels).*1 = cluster_id <$> per_cluster.*2) as <-.
      { clear -Hpc.
        induction Hpc as [|[cid members] [kept rec] cls pcs Hcl _ IH]; [done|].
        apply select_in_cluster_id in Hcl as [Hid _].
        rewrite !fmap_cons. simpl. by rewrite Hid, IH. }
      apply build_clusters_spec.
  - destruct (index_many_Ok_exists names sel Hlt) as [emitted Hem].
    exists emitted. split; [done|].
    assert (emitted `sublist_of` names) as Hsub.
    { apply index_many_Ok in Hem. rewrite Hsel in Hem.
      eapply (indexed_sublist names _ 0).
      eapply Forall2_impl; [exact Hem|]. intros i x Hi. by rewrite Nat.sub_0_r. }
    split; [done|]. intros Hnd. by eapply sublist_NoDup.
Qed.

(** ** The claims about the selection *)

Lemma candidate_thresholds_Ok (condensed : list float64) (bound : option float64) :
  ∃ candidates final,
    candidate_thresholds condensed bound = Ok candidates
    ∧ last candidates = Some final.
Proof.
  destruct (positive_distances_spec condensed) as (Hne & Hsorted & _).
  unfold candidate_thresholds.
  set (heights := if Nat.eqb (length (NumPy.unique (filter positive condensed))) 0
                  then [Fin 0]
                  else NumPy.unique (filter positive condensed)) in *.
  destruct (max_sorted heights Hne Hsorted) as (top & -> & _).
  cbn [mbind result_bind]. eexists _, _. split; [done|]. apply last_snoc.
Qed.

Section selection_claims.
Context `{SciPy}.

(** A run whose checks pass and whose labels cover the input returns the
    selection of one of its thresholds. *)
Lemma main_returns (a : args) (meta_lines names : list string)
    (X : list (list float64)) (n : nat) (meta_map : gmap string string)
    (Zlink : dendrogram) :
  read_meta meta_lines = Ok meta_map →
  (Z.of_nat (length (run_required a names meta_map)) <= target a)%Z →
  NumPy.any_isnan (squareform X) = false →
  linkage (squareform X) (linkage_arg a) = Some Zlink →
  length names = n → square n X → (∀ t, length (fcluster Zlink t) = n) →
  ∃ o log,
    main a meta_lines names X = (Ok o, log)
    ∧ selection_at Zlink names X (run_mask a names meta_map) (chosen_threshold o)
      = Ok (chosen_indices o, chosen_records o).
Proof.
  intros Hread Hfits Hnan Hlink Hnames HX Hlabels.
  destruct (candidate_thresholds_Ok (squareform X) (max_threshold a))
    as (candidates & final & Hcand & Hlast).
  assert (Hsel : ∀ t, ∃ sel, selection_at Zlink names X (run_mask a names meta_map) t
                             = Ok sel).
  { intros t.
    destruct (select_from_labels_Ok n (fcluster Zlink t) names X
                (run_mask a names meta_map)) as (pc & _ & Hsel); try done.
    { unfold run_mask. by rewrite required_mask_of_length. }
    by eexists. }
  destruct (threshold_search_Ok Zlink names X (run_mask a names meta_map)
              (run_required a names meta_map) (target a) candidates)
    as (found & log & Hsearch).
  { apply Forall_forall. intros t _. apply Hsel. }
  assert (∃ idx recs t log',
            choose_threshold Zlink candidates names X (run_mask a names meta_map)
              (run_required a names meta_map) (target a) = (Ok (idx, recs, t), log')
            ∧ selection_at Zlink names X (run_mask a names meta_map) t = Ok (idx, recs))
    as (idx & recs & t & log' & Hchoose & Ht).
  { rewrite choose_threshold_eq, Hsearch. cbn zeta. cbn [fst snd].
    destruct found as [[[idx recs] t]|].
    - apply threshold_search_found in Hsearch as (_ & _ & _ & _ & Ht & _).
      by eexists _, _, _, _.
    - rewrite Hlast. destruct (Hsel final) as [[idx recs] Hfinal]. rewrite Hfinal.
      by eexists _, _, _, _. }
  destruct (main_Ok_intro a meta_lines names X meta_map Zlink candidates
              idx recs t log') as (selected & _ & Hmain); try done.
  by eexists _, _.
Qed.

(** C1. In every run whose checks pass on a square matrix, the run returns
    and every item whose base id the metadata maps to the priority label is
    in the final selection; in the cut that was chosen, a cluster with one or
    more required items keeps exactly those. *)
Theorem priority_items_are_selected (a : args) (meta_lines names : list string)
    (X : list (list float64)) (n : nat) (meta_map : gmap string string)
    (Zlink : dendrogram) :
  read_meta meta_lines = Ok meta_map →
  (Z.of_nat (length (run_required a names meta_map)) <= target a)%Z →
  NumPy.any_isnan (squareform X) = false →
  linkage (squareform X) (linkage_arg a) = Some Zlink →
  length names = n → square n X → (∀ t, length (fcluster Zlink t) = n) →
  ∃ o log,
    main a meta_lines names X = (Ok o, log)
    ∧ (∀ i name, names !! i = Some name →
         base_id name ∈ priority_ids meta_map (priority a) →
         i ∈ chosen_indices o)
    ∧ (∀ cid i,
         let members := members_of (fcluster Zlink (chosen_threshold o)) cid in
         required_in (run_mask a names meta_map) members ≠ [] →
         i ∈ members →
         (i ∈ chosen_indices o ↔ i ∈ required_in (run_mask a names meta_map) members)).
Proof.
  intros Hread Hfits Hnan Hlink Hnames HX Hlabels.
  destruct (main_returns a meta_lines names X n meta_map Zlink) as (o & log & Hmain & Hsel);
    try done.
  assert (Hmask : length (run_mask a names meta_map) = n).
  { unfold run_mask. by rewrite required_mask_of_length. }
  exists o, log. split; [done|].
  pose proof (λ i, select_from_labels_elem n (fcluster Zlink (chosen_threshold o))
                     names X (run_mask a names meta_map) (Hlabels _) Hnames Hmask HX
                     _ _ i Hsel) as Helem.
  split.
  - intros i name Hi Hprio. apply Helem.
    assert (i < n) as Hlt by (apply lookup_lt_Some in Hi; lia).
    destruct (lookup_lt_is_Some_2 (fcluster Zlink (chosen_threshold o)) i) as [cid Hcid].
    { by rewrite Hlabels. }
    exists cid. split; [done|]. left.
    apply required_mask_of_lookup. split; [|lia].
    apply required_indices_of_elem. by exists name.
  - intros cid i members Hreq Hi. rewrite Helem.
    apply members_of_lookup in Hi. split.
    + intros (cid' & Hcid' & [Hrequired | [Hnone _]]).
      * apply list_elem_of_filter. split; [done | by apply members_of_lookup].
      * rewrite Hi in Hcid'. injection Hcid' as <-. done.
    + intros [Hrequired _]%list_elem_of_filter. exists cid. split; [done | by left].
Qed.

(** C7. At every threshold, on labels that cover the input,
    [select_at_threshold] returns indices of the input in strictly
    ascending order, hence without duplicates; the names they stand for are
    a sublist of the input names, duplicate-free when those are; and the
    records are in strictly ascending order of their cluster id. *)
Theorem selection_is_ordered (Zlink : dendrogram) (t : float64) (names : list string)
    (X : list (list float64)) (required_mask : list bool)
    (required_indices : list nat) (target : Z) (n : nat) :
  length names = n → length required_mask = n → square n X →
  length (fcluster Zlink t) = n →
  ∃ sel recs,
    select_at_threshold Zlink t names X required_mask required_indices target
    = (Ok (sel, recs), [CallFcluster t])
    ∧ StronglySorted lt sel
    ∧ NoDup sel
    ∧ Forall (λ i, i < length names) sel
    ∧ StronglySorted (λ r1 r2, cluster_id r1 < cluster_id r2) recs
    ∧ ∃ emitted, index_many names sel = Ok emitted
        ∧ emitted `sublist_of` names
        ∧ (NoDup names → NoDup emitted).
Proof.
  intros Hnames Hmask HX Hlabels. rewrite select_at_threshold_eq. unfold selection_at.
  destruct (select_from_labels_Ok n (fcluster Zlink t) names X required_mask)
    as (pc & _ & Hsel); try done.
  eexists _, _. split; [by rewrite Hsel|].
  by apply select_from_labels_ordered in Hsel.
Qed.


End selection_claims.

Section larger_target.
Context `{SciPy}.

(** C5, as the script has it.  Take two runs that differ in the target
    only, on an input whose checks pass for the smaller target.  Both runs
    return; and when the run with the smaller target meets its target, the
    run with the larger target selects at least as many items: it stops at
    the same candidate, or at an earlier one, which the other run had
    rejected as too large. *)
Theorem larger_target_selects_no_fewer (a1 a2 : args) (meta_lines names : list string)
    (X : list (list float64)) (n : nat) (meta_map : gmap string string)
    (Zlink : dendrogram) :
  priority a1 = priority a2 →
  linkage_arg a1 = linkage_arg a2 →
  max_threshold a1 = max_threshold a2 →
  (target a1 <= target a2)%Z →
  read_meta meta_lines = Ok meta_map →
  (Z.of_nat (length (run_required a1 names meta_map)) <= target a1)%Z →
  NumPy.any_isnan (squareform X) = false →
  linkage (squareform X) (linkage_arg a1) = Some Zlink →
  length names = n → square n X → (∀ t, length (fcluster Zlink t) = n) →
  ∃ o1 o2 log1 log2,
    main a1 meta_lines names X = (Ok o1, log1)
    ∧ main a2 meta_lines names X = (Ok o2, log2)
    ∧ ((Z.of_nat (length (chosen_indices o1)) <= target a1)%Z →
       length (chosen_indices o1) ≤ length (chosen_indices o2)
       ∧ (chosen_indices o2 = chosen_indices o1
          ∨ (target a1 < Z.of_nat (length (chosen_indices o2)))%Z)).
Proof.
  intros Hprio Hlink Hbound Hle Hread Hfits Hnan HZ Hnames HX Hlabels.
  destruct (main_returns a1 meta_lines names X n meta_map Zlink)
    as (o1 & log1 & Hrun1 & _); try done.
  destruct (main_returns a2 meta_lines names X n meta_map Zlink)
    as (o2 & log2 & Hrun2 & _); try done.
  { unfold run_required in *. rewrite <- Hprio. lia. }
  { by rewrite <- Hlink. }
  exists o1, o2, log1, log2. split_and!; [done | done |].
  intros Hmeets. by eapply two_targets_compare.
Qed.

End larger_target.

(** ** The size of a selection does not depend on the matrix *)

Section sizes.
Context (n : nat) (cluster_labels : list nat) (names : list string)
        (required_mask : list bool).
Context (Hlabels : length cluster_labels = n) (Hnames : length names = n)
        (Hmask : length required_mask = n).

(** What a cluster keeps: members of the cluster, without repetition, as
    many as it has required members, or one when it has none. *)
Lemma select_in_cluster_kept (X : list (list float64)) (cid : nat)
    (kept : list nat) (rec : cluster_record) :
  square n X →
  members_of cluster_labels cid ≠ [] →
  select_in_cluster names X required_mask (cid, members_of cluster_labels cid)
  = Ok (kept, rec) →
  NoDup kept
  ∧ (∀ i, i ∈ kept → cluster_labels !! i = Some cid)
  ∧ length kept
    = Nat.max 1 (length (required_in required_mask (members_of cluster_labels cid))).
Proof.
  intros HX Hne Hsel.
  destruct (select_in_cluster_spec n names X required_mask cid
              (members_of cluster_labels cid))
    as (kept' & rec' & Hsel' & _ & _ & _ & _ & Hkept); try done.
  { by apply members_of_bound. }
  rewrite Hsel in Hsel'. injection Hsel' as <- <-.
  destruct Hkept as [[Hsome ->] | (Hnone & m & _ & Hm & ->)].
  - split_and!.
    + apply NoDup_filter, members_of_NoDup.
    + intros i [_ Hi]%list_elem_of_filter. by apply members_of_lookup.
    + destruct (required_in required_mask (members_of cluster_labels cid)); [done|].
      simpl. lia.
  - split_and!.
    + apply NoDup_singleton.
    + intros i ->%list_elem_of_singleton. by apply members_of_lookup.
    + by rewrite Hnone.
Qed.

Lemma per_cluster_NoDup (X : list (list float64)) (clusters : list (nat * list nat))
    (per_cluster : list (list nat * cluster_record)) :
  square n X →
  NoDup (clusters.*1) →
  (∀ cid members, (cid, members) ∈ clusters →
     members = members_of cluster_labels cid ∧ members ≠ []) →
  Forall2 (λ cl pc, select_in_cluster names X required_mask cl = Ok pc)
          clusters per_cluster →
  NoDup (mjoin (per_cluster.*1))
  ∧ ∀ i, i ∈ mjoin (per_cluster.*1) →
      ∃ cid, cid ∈ clusters.*1 ∧ cluster_labels !! i = Some cid.
Proof.
  intros HX Hnd Hcl Hpc.
  induction Hpc as [|[cid members] [kept rec] cls pcs Hsel _ IH].
  - split; [constructor | by intros i ?%elem_of_nil].
  - rewrite fmap_cons in Hnd. apply NoDup_cons in Hnd as [Hfresh Hnd].
    destruct (Hcl cid members) as [-> Hne]; [by left|].
    destruct IH as [IHnd IHin]; [done | intros c ms Hin; apply Hcl; by right |].
    destruct (select_in_cluster_kept X cid kept rec HX Hne Hsel) as (Hk & Hkin & _).
    rewrite !fmap_cons. simpl. split.
    + apply NoDup_app. split_and!; [done | | done].
      intros i Hi Hi'. apply Hkin in Hi. apply IHin in Hi' as (cid' & Hcid' & Hl).
      rewrite Hi in Hl. injection Hl as <-. done.
    + intros i [Hi | Hi]%elem_of_app.
      * exists cid. split; [by left | by apply Hkin].
      * destruct (IHin i Hi) as (cid' & Hcid' & Hl). exists cid'. split; [by right | done].
Qed.

Lemma per_cluster_length (X X' : list (list float64)) (clusters : list (nat * list nat))
    (pc pc' : list (list nat * cluster_record)) :
  square n X → square n X' →
  (∀ cid members, (cid, members) ∈ clusters →
     members = members_of cluster_labels cid ∧ members ≠ []) →
  Forall2 (λ cl p, select_in_cluster names X required_mask cl = Ok p) clusters pc →
  Forall2 (λ cl p, select_in_cluster names X' required_mask cl = Ok p) clusters pc' →
  length (mjoin (pc.*1)) = length (mjoin (pc'.*1)).
Proof.
  intros HX HX' Hcl Hpc. revert pc'.
  induction Hpc as [|[cid members] [kept rec] cls pcs Hsel _ IH]; intros pc' Hpc'.
  - by apply Forall2_nil_inv_l in Hpc' as ->.
  - apply Forall2_cons_inv_l in Hpc' as ([kept' rec'] & pcs' & Hsel' & Hpcs' & ->).
    destruct (Hcl cid members) as [-> Hne]; [by left|].
    destruct (select_in_cluster_kept X cid kept rec HX Hne Hsel) as (_ & _ & Hlen).
    destruct (select_in_cluster_kept X' cid kept' rec' HX' Hne Hsel') as (_ & _ & Hlen').
    rewrite !fmap_cons. simpl. rewrite !length_app, Hlen, Hlen'.
    f_equal. apply IH; [|done]. intros c ms Hin. apply Hcl. by right.
Qed.

(** The selections computed from two matrices have the same size. *)
Lemma select_from_labels_size (X X' : list (list float64))
    (sel sel' : list nat) (recs recs' : list cluster_record) :
  square n X → square n X' →
  select_from_labels cluster_labels names X required_mask = Ok (sel, recs) →
  select_from_labels cluster_labels names X' required_mask = Ok (sel', recs') →
  length sel = length sel'.
Proof.
  intros HX HX' Hsel Hsel'.
  assert (Hsize : ∀ Y s r, square n Y →
            select_from_labels cluster_labels names Y required_mask = Ok (s, r) →
            ∃ pc, Forall2 (λ cl p, select_in_cluster names Y required_mask cl = Ok p)
                    (build_clusters cluster_labels) pc
                  ∧ length s = length (mjoin (pc.*1))).
  { intros Y s r HY Hs.
    apply select_from_labels_inv in Hs as (pc & Hpc & -> & _).
    exists pc. split; [done|].
    destruct (build_clusters_spec cluster_labels) as [Hnd Hcl].
    destruct (per_cluster_NoDup Y _ pc HY Hnd) as [Hpnd Hpin]; [|done|].
    { intros cid members Hin. by apply Hcl. }
    apply Permutation_length, NoDup_Permutation; [|done|].
    - apply NoDup_filter, NoDup_seq.
    - intros i. rewrite list_elem_of_filter, elem_of_selected_unique, elem_of_seq.
      split; [by intros [? _]|]. intros Hi. split; [done|].
      apply Hpin in Hi as (cid & _ & Hi). apply lookup_lt_Some in Hi. lia. }
  destruct (Hsize X sel recs HX Hsel) as (pc & Hpc & ->).
  destruct (Hsize X' sel' recs' HX' Hsel') as (pc' & Hpc' & ->).
  eapply per_cluster_length; [exact HX | exact HX' | | done | done].
  intros cid members Hin. by apply build_clusters_spec.
Qed.

End sizes.

(** ** Matrices that agree above the diagonal *)

Lemma squareform_ext (n : nat) (X X' : list (list float64)) :
  square n X → square n X' →
  (∀ i j, i < j → entry X i j = entry X' i j) →
  squareform X = squareform X'.
Proof.
  intros [Hlen _] [Hlen' _] Hupper. unfold squareform. f_equal.
  apply list_eq. intros i. rewrite !list_lookup_imap.
  destruct (X !! i) as [row|] eqn:Hrow, (X' !! i) as [row'|] eqn:Hrow'; simpl.
  - f_equal. apply list_eq. intros k. rewrite !lookup_drop.
    specialize (Hupper i (S i + k)). unfold entry in Hupper.
    rewrite Hrow, Hrow' in Hupper. simpl in Hupper. apply Hupper. lia.
  - apply lookup_lt_Some in Hrow. apply lookup_ge_None in Hrow'. lia.
  - apply lookup_ge_None in Hrow. apply lookup_lt_Some in Hrow'. lia.
  - done.
Qed.

Section upper_triangle.
Context `{SciPy}.
Context (Zlink : dendrogram) (names : list string) (X X' : list (list float64))
        (required_mask : list bool) (required_indices : list nat) (target : Z)
        (n : nat).
Context (Hnames : length names = n) (Hmask : length required_mask = n)
        (HX : square n X) (HX' : square n X')
        (Hlabels : ∀ t, length (fcluster Zlink t) = n).

Lemma selection_at_size (t : float64) :
  ∃ sel sel',
    selection_at Zlink names X required_mask t = Ok sel
    ∧ selection_at Zlink names X' required_mask t = Ok sel'
    ∧ length sel.1 = length sel'.1.
Proof.
  unfold selection_at.
  destruct (select_from_labels_Ok n (fcluster Zlink t) names X required_mask)
    as (pc & _ & Hsel); try done.
  destruct (select_from_labels_Ok n (fcluster Zlink t) names X' required_mask)
    as (pc' & _ & Hsel'); try done.
  eexists _, _. split_and!; [done | done |].
  eapply (select_from_labels_size n (fcluster Zlink t) names required_mask);
    [done | done | done | exact HX | exact HX' | exact Hsel | exact Hsel'].
Qed.

(** The two searches make the same calls and stop at the same candidate. *)
Lemma threshold_search_same (candidates : list float64) :
  ∃ found found' log,
    threshold_search Zlink candidates names X required_mask required_indices target
    = (Ok found, log)
    ∧ threshold_search Zlink candidates names X' required_mask required_indices target
      = (Ok found', log)
    ∧ match found, found' with
      | Some c, Some c' => c.2 = c'.2 ∧ length c.1.1 = length c'.1.1
      | None, None => True
      | _, _ => False
      end.
Proof.
  induction candidates as [|t rest (found & found' & log & Hs & Hs' & Hsame)].
  - by exists None, None, [].
  - rewrite !threshold_search_cons.
    destruct (selection_at_size t) as (sel & sel' & -> & -> & Hlen).
    rewrite <- Hlen.
    destruct (Z.of_nat (length sel.1) <=? target)%Z.
    + eexists _, _, _. split_and!; [done | done |]. simpl. done.
    + rewrite Hs, Hs'. by eexists _, _, _.
Qed.

Lemma choose_threshold_same (candidates : list float64) (final : float64) :
  last candidates = Some final →
  ∃ c c' log,
    choose_threshold Zlink candidates names X required_mask required_indices target
    = (Ok c, log)
    ∧ choose_threshold Zlink candidates names X' required_mask required_indices target
      = (Ok c', log)
    ∧ c.2 = c'.2 ∧ length c.1.1 = length c'.1.1
    ∧ selection_at Zlink names X required_mask c.2 = Ok c.1
    ∧ selection_at Zlink names X' required_mask c'.2 = Ok c'.1.
Proof.
  intros Hlast. rewrite !choose_threshold_eq. cbn zeta.
  destruct (threshold_search_same candidates) as (found & found' & log & Hs & Hs' & Hsame).
  rewrite Hs, Hs'. cbn [fst snd].
  destruct found as [[[idx recs] t]|], found' as [[[idx' recs'] t']|]; try done.
  - apply threshold_search_found in Hs as (_ & _ & _ & _ & Hsel & _).
    apply threshold_search_found in Hs' as (_ & _ & _ & _ & Hsel' & _).
    destruct Hsame as [Ht Hlen]. by eexists _, _, _.
  - rewrite Hlast. destruct (selection_at_size final) as (sel & sel' & Hsel & Hsel' & Hlen).
    rewrite Hsel, Hsel'. eexists _, _, _. split_and!; try done.
    + simpl. by destruct sel.
    + simpl. by destruct sel'.
Qed.

End upper_triangle.

Section asymmetry.
Context `{SciPy}.

(** C9. No stage of the run looks at symmetry.  Take a run whose checks
    pass on a square matrix [X], and any square matrix [X'] with the same
    entries above the diagonal.  The condensed form, hence the input of
    [linkage] and the candidate thresholds, is the same for both; the run on
    [X'] returns as the run on [X] does, after the same calls, at the same
    threshold and with a selection of the same size.  The entries below the
    diagonal do reach [medoid_index], which sums whole rows of the matrix: two
    matrices that agree above the diagonal can have different medoids. *)
Theorem lower_triangle_moves_medoids_only (a : args) (meta_lines names : list string)
    (X X' : list (list float64)) (n : nat) (meta_map : gmap string string)
    (Zlink : dendrogram) :
  read_meta meta_lines = Ok meta_map →
  (Z.of_nat (length (run_required a names meta_map)) <= target a)%Z →
  NumPy.any_isnan (squareform X) = false →
  linkage (squareform X) (linkage_arg a) = Some Zlink →
  length names = n → square n X → square n X' →
  (∀ t, length (fcluster Zlink t) = n) →
  (∀ i j, i < j → entry X' i j = entry X i j) →
  squareform X' = squareform X
  ∧ candidate_thresholds (squareform X') (max_threshold a)
    = candidate_thresholds (squareform X) (max_threshold a)
  ∧ (∃ o o' log,
       main a meta_lines names X = (Ok o, log)
       ∧ main a meta_lines names X' = (Ok o', log)
       ∧ chosen_threshold o' = chosen_threshold o
       ∧ length (chosen_indices o') = length (chosen_indices o))
  ∧ (∃ Y Y' members m m',
       square 3 Y ∧ square 3 Y'
       ∧ (∀ i j, i < j → entry Y' i j = entry Y i j)
       ∧ medoid_index Y members = Ok m
       ∧ medoid_index Y' members = Ok m'
       ∧ m ≠ m').
Proof.
  intros Hread Hfits Hnan Hlink Hnames HX HX' Hlabels Hupper.
  assert (squareform X' = squareform X) as Hsq by (by eapply squareform_ext).
  split_and!; [done | by rewrite Hsq | |].
  - destruct (candidate_thresholds_Ok (squareform X) (max_threshold a))
      as (candidates & final & Hcand & Hlast).
    assert (Hmask : length (run_mask a names meta_map) = n).
    { unfold run_mask. by rewrite required_mask_of_length. }
    destruct (choose_threshold_same Zlink names X X' (run_mask a names meta_map)
                (run_required a names meta_map) (target a) n Hnames Hmask HX HX'
                Hlabels candidates final Hlast)
      as ([[idx recs] t] & [[idx' recs'] t'] & log & Hc & Hc' & Ht & Hlen & Hsel & Hsel').
    simpl in *. subst t'.
    destruct (main_Ok_intro a meta_lines names X meta_map Zlink candidates
                idx recs t log) as (selected & _ & Hmain); try done.
    destruct (main_Ok_intro a meta_lines names X' meta_map Zlink candidates
                idx' recs' t log) as (selected' & _ & Hmain'); try done;
      try by rewrite Hsq.
    rewrite Hsq in Hmain'. by eexists _, _, _.
  - exists [[Fin 0; Fin 1; Fin 1]; [Fin 1; Fin 0; Fin 1]; [Fin 1; Fin 1; Fin 0]],
           [[Fin 0; Fin 1; Fin 1]; [Fin 0; Fin 0; Fin 1]; [Fin 1; Fin 1; Fin 0]],
           [0; 1; 2], 0, 1.
    split_and!; [by repeat constructor | by repeat constructor | | done | done | done].
    intros i j Hij.
    destruct i as [|[|[|i]]], j as [|[|[|j]]]; try lia; reflexivity.
Qed.

End asymmetry.

(** ** The reference hierarchy *)

Lemma cut_length (t : Hierarchy.tree) (cutoff : float64) :
  length (Hierarchy.cut t cutoff) = length (Hierarchy.leaves t).
Proof. unfold Hierarchy.cut. by rewrite length_fmap, length_seq. Qed.

(** ** The claims on the example runs *)

Import Scenario.

(** The six items: A is kept because it is required, C stands for C to F. *)
Lemma priority_items_are_selected_witness :
  ∃ o log,
    main (H := Hierarchy.returning T6) a6 meta6 names6 X6 = (Ok o, log)
    ∧ (∀ i name, names6 !! i = Some name →
         base_id name ∈ priority_ids meta_map6 (priority a6) →
         i ∈ chosen_indices o)
    ∧ (∀ cid i,
         let members := members_of (Hierarchy.cut T6 (chosen_threshold o)) cid in
         required_in (run_mask a6 names6 meta_map6) members ≠ [] →
         i ∈ members →
         (i ∈ chosen_indices o ↔ i ∈ required_in (run_mask a6 names6 meta_map6) members)).
Proof.
  apply (priority_items_are_selected (H := Hierarchy.returning T6)
           a6 meta6 names6 X6 6 meta_map6 T6).
  - vm_compute. reflexivity.
  - vm_compute. discriminate.
  - vm_compute. reflexivity.
  - reflexivity.
  - reflexivity.
  - split; [reflexivity | repeat constructor].
  - intros t. apply cut_length.
Defined.

(** The run on the six items: two clusters at threshold 1, with one and
    with no required member. *)
Example six_items_run :
  main (H := Hierarchy.returning T6) a6 meta6 names6 X6
  = (Ok o6,
     [CallSquareform; CallLinkage (squareform X6) average; CallFcluster (Fin 1)]).
Proof. vm_compute. reflexivity. Qed.

(** The three items with a target of 1: the first candidate, 1, is not
    feasible, and the search stops at the second, 2. *)
Lemma search_stops_at_first_feasible_candidate_witness :
  infeasible_at (H := Hierarchy.returning T3) T3 names3 X3
    (run_mask (a3 1) names3 meta_map3) (target (a3 1)) (Fin 1)
  ∧ ∃ pre t post o,
      [Fin 1; Fin 2; NumPy.add (Fin 2) epsilon] = pre ++ t :: post
      ∧ Forall (infeasible_at (H := Hierarchy.returning T3) T3 names3 X3
                  (run_mask (a3 1) names3 meta_map3) (target (a3 1))) pre
      ∧ feasible_at (H := Hierarchy.returning T3) T3 names3 X3
          (run_mask (a3 1) names3 meta_map3) (target (a3 1)) t
      ∧ main (H := Hierarchy.returning T3) (a3 1) meta3 names3 X3
        = (Ok o, [CallSquareform; CallLinkage (squareform X3) (linkage_arg (a3 1))]
                 ++ (CallFcluster <$> (pre ++ [t])))
      ∧ chosen_threshold o = t
      ∧ selection_at (H := Hierarchy.returning T3) T3 names3 X3
          (run_mask (a3 1) names3 meta_map3) t
        = Ok (chosen_indices o, chosen_records o)
      ∧ ∃ heights sentinel,
          [Fin 1; Fin 2; NumPy.add (Fin 2) epsilon] = heights ++ [sentinel]
          ∧ StronglySorted flt heights
          ∧ ∀ t', t' ∈ heights →
              feasible_at (H := Hierarchy.returning T3) T3 names3 X3
                (run_mask (a3 1) names3 meta_map3) (target (a3 1)) t' →
              t' = t ∨ flt t t'.
Proof.
  split.
  { eexists. split; [vm_compute; reflexivity | vm_compute; reflexivity]. }
  apply (search_stops_at_first_feasible_candidate (H := Hierarchy.returning T3)
           (a3 1) meta3 names3 X3 3 meta_map3 T3).
  - vm_compute. reflexivity.
  - vm_compute. discriminate.
  - vm_compute. reflexivity.
  - reflexivity.
  - vm_compute. reflexivity.
  - reflexivity.
  - split; [reflexivity | repeat constructor].
  - intros t. apply cut_length.
  - exists (Fin 2). split; [right; by left|]. eexists. split.
    + vm_compute. reflexivity.
    + vm_compute. discriminate.
Defined.

(** C3.  Two items at distance 1, [--max-threshold 0.5] and a target of 2.
    The candidates are 1 and then 0.500001, in that order; the run
    evaluates 1 first and returns it, a threshold above the bound, while
    the smaller candidate 0.500001 is feasible as well and was not
    evaluated. *)
Lemma search_exceeds_its_upper_bound :
  candidate_thresholds (squareform X2) (max_threshold a2)
  = Ok [Fin 1; NumPy.add (Fin (1 # 2)) epsilon]
  ∧ main (H := Hierarchy.returning T2) a2 meta3 names2 X2
    = (Ok {| chosen_indices := [0];
             chosen_records :=
               [{| cluster_id := 1; size := 2; required_count := 0;
                   selected_ids := ["a"] |}];
             chosen_threshold := Fin 1;
             selected_names := ["a"] |},
       [CallSquareform; CallLinkage [Fin 1] average; CallFcluster (Fin 1)])
  ∧ max_threshold a2 = Some (Fin (1 # 2))
  ∧ flt (Fin (1 # 2)) (Fin 1)
  ∧ feasible_at (H := Hierarchy.returning T2) T2 names2 X2 [false; false]
      (target a2) (NumPy.add (Fin (1 # 2)) epsilon)
  ∧ flt (NumPy.add (Fin (1 # 2)) epsilon) (Fin 1).
Proof.
  split_and!.
  - vm_compute. reflexivity.
  - vm_compute. reflexivity.
  - reflexivity.
  - vm_compute. reflexivity.
  - eexists. split; [vm_compute; reflexivity | vm_compute; discriminate].
  - vm_compute. reflexivity.
Qed.

(** The three items: a target of 2 selects two items, a target of 1 one.
    With a bound of 0.5 and a target of 0 the run falls back on the last
    candidate, 0.500001, and selects all three, more than with a target
    of 1. *)
Lemma larger_target_selects_more :
  (main (H := Hierarchy.returning T3) (a3 1) meta3 names3 X3
   = (Ok o3_small,
      [CallSquareform; CallLinkage [Fin 1; Fin 2; Fin 2] average;
       CallFcluster (Fin 1); CallFcluster (Fin 2)])
   ∧ main (H := Hierarchy.returning T3) (a3 2) meta3 names3 X3
     = (Ok o3_large,
        [CallSquareform; CallLinkage [Fin 1; Fin 2; Fin 2] average;
         CallFcluster (Fin 1)])
   ∧ ¬ (length (chosen_indices o3_large) ≤ length (chosen_indices o3_small)))
  ∧ ∃ o o',
      (main (H := Hierarchy.returning T3)
         {| priority := "ChongqingHan"; target := 0; linkage_arg := average;
            max_threshold := Some (Fin (1 # 2)) |} meta3 names3 X3).1 = Ok o
      ∧ (main (H := Hierarchy.returning T3)
           {| priority := "ChongqingHan"; target := 1; linkage_arg := average;
              max_threshold := Some (Fin (1 # 2)) |} meta3 names3 X3).1 = Ok o'
      ∧ chosen_indices o = [0; 1; 2]
      ∧ chosen_indices o' = [0].
Proof.
  split_and!; [vm_compute; reflexivity | vm_compute; reflexivity | simpl; lia |].
  eexists _, _. split_and!; [vm_compute; reflexivity | vm_compute; reflexivity | done..].
Qed.

(** The three items with the targets 1 and 2. *)
Lemma larger_target_selects_no_fewer_witness :
  ∃ o1 o2 log1 log2,
    main (H := Hierarchy.returning T3) (a3 1) meta3 names3 X3 = (Ok o1, log1)
    ∧ main (H := Hierarchy.returning T3) (a3 2) meta3 names3 X3 = (Ok o2, log2)
    ∧ ((Z.of_nat (length (chosen_indices o1)) <= target (a3 1))%Z →
       length (chosen_indices o1) ≤ length (chosen_indices o2)
       ∧ (chosen_indices o2 = chosen_indices o1
          ∨ (target (a3 1) < Z.of_nat (length (chosen_indices o2)))%Z)).
Proof.
  apply (larger_target_selects_no_fewer (H := Hierarchy.returning T3)
           (a3 1) (a3 2) meta3 names3 X3 3 meta_map3 T3).
  - reflexivity.
  - reflexivity.
  - reflexivity.
  - simpl. lia.
  - vm_compute. reflexivity.
  - vm_compute. discriminate.
  - vm_compute. reflexivity.
  - reflexivity.
  - reflexivity.
  - split; [reflexivity | repeat constructor].
  - intros t. apply cut_length.
Defined.

(** A NaN below the diagonal: the run returns. *)
Lemma nan_below_diagonal_is_accepted :
  entry X2nan 1 0 = Some NaN
  ∧ main (H := Hierarchy.returning T2)
      {| priority := "ChongqingHan"; target := 500; linkage_arg := average;
         max_threshold := None |}
      meta3 names2 X2nan
    = (Ok {| chosen_indices := [1];
             chosen_records :=
               [{| cluster_id := 1; size := 2; required_count := 0;
                   selected_ids := ["b"] |}];
             chosen_threshold := Fin 1;
             selected_names := ["b"] |},
       [CallSquareform; CallLinkage [Fin 1] average; CallFcluster (Fin 1)]).
Proof. split; [reflexivity | vm_compute; reflexivity]. Qed.



Lemma selection_is_ordered_witness :
  ∃ sel recs,
    select_at_threshold (H := Hierarchy.returning T6) T6 (Fin 1) names6 X6 mask6
      [0] 3
    = (Ok (sel, recs), [CallFcluster (Fin 1)])
    ∧ StronglySorted lt sel
    ∧ NoDup sel
    ∧ Forall (λ i, i < length names6) sel
    ∧ StronglySorted (λ r1 r2, cluster_id r1 < cluster_id r2) recs
    ∧ ∃ emitted, index_many names6 sel = Ok emitted
        ∧ emitted `sublist_of` names6
        ∧ (NoDup names6 → NoDup emitted).
Proof.
  apply (selection_is_ordered (H := Hierarchy.returning T6)
           T6 (Fin 1) names6 X6 mask6 [0] 3 6).
  - reflexivity.
  - reflexivity.
  - split; [reflexivity | repeat constructor].
  - apply cut_length.
Defined.

(** The three items, with the matrix [X3] and with [X3'], which differs
    from it below the diagonal. *)
Lemma lower_triangle_moves_medoids_only_witness :
  squareform X3' = squareform X3
  ∧ candidate_thresholds (squareform X3') None = candidate_thresholds (squareform X3) None
  ∧ (∃ o o' log,
       main (H := Hierarchy.returning T3) (a3 1) meta3 names3 X3 = (Ok o, log)
       ∧ main (H := Hierarchy.returning T3) (a3 1) meta3 names3 X3' = (Ok o', log)
       ∧ chosen_threshold o' = chosen_threshold o
       ∧ length (chosen_indices o') = length (chosen_indices o))
  ∧ (∃ Y Y' members m m',
       square 3 Y ∧ square 3 Y'
       ∧ (∀ i j, i < j → entry Y' i j = entry Y i j)
       ∧ medoid_index Y members = Ok m
       ∧ medoid_index Y' members = Ok m'
       ∧ m ≠ m').
Proof.
  apply (lower_triangle_moves_medoids_only (H := Hierarchy.returning T3)
           (a3 1) meta3 names3 X3 X3' 3 meta_map3 T3).
  - vm_compute. reflexivity.
  - vm_compute. discriminate.
  - vm_compute. reflexivity.
  - reflexivity.
  - reflexivity.
  - split; [reflexivity | repeat constructor].
  - split; [reflexivity | repeat constructor].
  - intros t. apply cut_length.
  - intros i j Hij.
    do 3 (destruct i as [|i];
          [do 3 (destruct j as [|j]; [try lia; reflexivity|]); reflexivity|]).
    reflexivity.
Defined.

(** * Further properties *)

Import Files.

(** ** The base id of a label *)

Lemma base_id_no_underscore (label : string) :
  contains "_" (base_id label) = false.
Proof.
  induction label as [|c s IH]; simpl; [done|].
  case_decide as Hc; simpl; [done|].
  by rewrite decide_False.
Qed.

Lemma base_id_app (b r : string) :
  contains "_" b = false → base_id (b +:+ String "_" r) = b.
Proof.
  induction b as [|c b IH]; simpl.
  - intros _. reflexivity.
  - case_decide as Hc; [done|]. intros Hb. by rewrite IH.
Qed.

Lemma base_id_split (label : string) :
  label = base_id label
  ∨ ∃ r, label = base_id label +:+ String "_" r.
Proof.
  induction label as [|c s IH]; simpl; [by left|].
  case_decide as Hc.
  - right. exists s. by rewrite Hc.
  - destruct IH as [IH | [r IH]].
    + left. by f_equal.
    + right. exists r. rewrite IH at 1. reflexivity.
Qed.

(** X1. [base_id] returns the part of a label before its first underscore:
    the result holds no underscore, the label is the result alone or the
    result, an underscore and a rest; so a label [b_r] with [b] free of
    underscores has base id [b], and a label without underscore is its own
    base id. *)
Theorem base_id_is_prefix_before_first_underscore :
  (∀ label, contains "_" (base_id label) = false
     ∧ (label = base_id label ∨ ∃ r, label = base_id label +:+ String "_" r))
  ∧ (∀ b r, contains "_" b = false → base_id (b +:+ String "_" r) = b)
  ∧ (∀ label, contains "_" label = false ↔ base_id label = label).
Proof.
  split_and!.
  - intros label. split; [apply base_id_no_underscore | apply base_id_split].
  - apply base_id_app.
  - intros label. split.
    + intros Hl. destruct (base_id_split label) as [Heq | [r Heq]]; [done|].
      rewrite Heq in Hl. exfalso. revert Hl. clear.
      induction (base_id label) as [|c b IH]; simpl.
      * done.
      * case_decide; [done | exact IH].
    + intros <-. apply base_id_no_underscore.
Qed.

Lemma base_id_is_prefix_before_first_underscore_witness :
  base_id ("HG001" +:+ String "_" "hap1_x") = "HG001"
  ∧ base_id "HG002" = "HG002".
Proof.
  split.
  - by apply (proj1 (proj2 base_id_is_prefix_before_first_underscore)).
  - by apply (proj2 (proj2 base_id_is_prefix_before_first_underscore)).
Defined.

(** ** The required items *)

Lemma elem_of_priority_ids (meta_map : gmap string string) (p k : string) :
  k ∈ priority_ids meta_map p ↔ meta_map !! k = Some p.
Proof.
  unfold priority_ids. rewrite elem_of_dom. split.
  - intros [g [Hk Hg]%map_lookup_filter_Some]. simpl in Hg. by subst.
  - intros Hk. exists p. by apply map_lookup_filter_Some.
Qed.

Lemma enumerate_filter_sorted {A} (P : nat * A → Prop) `{∀ p, Decision (P p)}
    (l : list A) (off : nat) :
  StronglySorted lt ((filter P (imap (λ i x, (off + i, x)) l)).*1)
  ∧ Forall (λ i, off ≤ i) ((filter P (imap (λ i x, (off + i, x)) l)).*1).
Proof.
  revert off. induction l as [|x l IH]; intros off.
  - split; constructor.
  - rewrite imap_cons.
    rewrite (imap_ext _ (λ i x, (S off + i, x))) by (intros; simpl; f_equal; lia).
    destruct (IH (S off)) as [Hs Hge].
    assert (Forall (λ i, off < i)
              ((filter P (imap (λ i x, (S off + i, x)) l)).*1)) as Hgt.
    { eapply Forall_impl; [exact Hge|]. simpl. lia. }
    rewrite filter_cons. destruct (decide (P (off + 0, x))); simpl.
    + split.
      * constructor; [done|]. eapply Forall_impl; [exact Hgt|]. simpl. lia.
      * constructor; [lia|]. eapply Forall_impl; [exact Hgt|]. simpl. lia.
    + split; [done|]. eapply Forall_impl; [exact Hgt|]. simpl. lia.
Qed.

Lemma required_indices_of_sorted (names : list string) (ids : gset string) :
  StronglySorted lt (required_indices_of names ids).
Proof.
  unfold required_indices_of.
  apply (enumerate_filter_sorted (λ p, base_id p.2 ∈ ids) names 0).
Qed.

Lemma required_indices_of_length (names : list string) (ids : gset string) :
  length (required_indices_of names ids) ≤ length names.
Proof.
  unfold required_indices_of. rewrite length_fmap.
  etrans; [apply length_filter|]. by rewrite length_imap.
Qed.

(** X2. The priority resolver of [main]: item [i] is required exactly when
    the metadata maps the base id of its name to the priority label (an
    item whose base id the metadata does not hold is not required); the
    required indices are strictly ascending and the mask has one flag per
    item, set exactly for the required ones. *)
Theorem required_items_are_priority_members (names : list string)
    (meta_map : gmap string string) (p : string) :
  let required := required_indices_of names (priority_ids meta_map p) in
  let mask := required_mask_of (length names) required in
  (∀ i, i ∈ required ↔
     ∃ name, names !! i = Some name ∧ meta_map !! base_id name = Some p)
  ∧ (∀ i name, names !! i = Some name → meta_map !! base_id name = None →
       i ∉ required)
  ∧ StronglySorted lt required
  ∧ length required ≤ length names
  ∧ length mask = length names
  ∧ (∀ i, mask !! i = Some true ↔ i ∈ required)
  ∧ (∀ i, mask !! i = Some false ↔ i < length names ∧ i ∉ required).
Proof.
  intros required mask.
  assert (∀ i, i ∈ required ↔
     ∃ name, names !! i = Some name ∧ meta_map !! base_id name = Some p) as Hreq.
  { intros i. unfold required. rewrite required_indices_of_elem.
    by setoid_rewrite elem_of_priority_ids. }
  assert (∀ i, mask !! i = Some true ↔ i ∈ required) as Hmask.
  { intros i. unfold mask. rewrite required_mask_of_lookup. split; [by intros [? _]|].
    intros Hi. split; [done|]. apply Hreq in Hi as (name & Hi & _).
    by apply lookup_lt_Some in Hi. }
  split_and!; [done | | apply required_indices_of_sorted
               | apply required_indices_of_length
               | apply required_mask_of_length | done |].
  - intros i name Hi Hnone (name' & Hi' & Hsome)%Hreq. congruence.
  - intros i. split.
    + intros Hf. split.
      * apply lookup_lt_Some in Hf. unfold mask in Hf.
        by rewrite required_mask_of_length in Hf.
      * intros Hin%Hmask. congruence.
    + intros [Hlt Hnot].
      destruct (lookup_lt_is_Some_2 mask i) as [b Hb].
      { unfold mask. by rewrite required_mask_of_length. }
      destruct b; [|done]. by apply Hmask in Hb.
Qed.

(** X3. The metadata reader and the priority resolver together: in a run
    whose metadata was read, item [i] is required exactly when the last line
    of the metadata file that records the base id of its name gives it the
    priority label. *)
Theorem required_by_last_metadata_line (a : args) (meta_lines names : list string)
    (meta_map : gmap string string) :
  read_meta meta_lines = Ok meta_map →
  ∀ i, i ∈ run_required a names meta_map ↔
    ∃ name pre line post rest,
      names !! i = Some name
      ∧ meta_lines = pre ++ line :: post
      ∧ fields line = base_id name :: priority a :: rest
      ∧ Forall (λ later, ¬ records_key (base_id name) later) post.
Proof.
  unfold read_meta. case_decide as Hne; [done|]. intros [= <-] i.
  unfold run_required. rewrite required_indices_of_elem.
  setoid_rewrite elem_of_priority_ids. setoid_rewrite read_loop_lookup.
  split.
  - intros (name & Hi & pre & line & post & rest & H1 & H2 & H3).
    by exists name, pre, line, post, rest.
  - intros (name & pre & line & post & rest & Hi & H1 & H2 & H3).
    exists name. split; [done|]. by exists pre, line, post, rest.
Qed.

Lemma required_by_last_metadata_line_witness :
  1 ∈ run_required a6 ["A_1"; "B_1"] (<["B" := "ChongqingHan"]> (<["A" := "Han"]> ∅)).
Proof.
  apply (required_by_last_metadata_line a6 ["B Han"; "A Han"; "B ChongqingHan  x"]
           ["A_1"; "B_1"] _).
  - vm_compute. reflexivity.
  - exists "B_1", ["B Han"; "A Han"], "B ChongqingHan  x", [], ["x"].
    split_and!; [reflexivity | reflexivity | vm_compute; reflexivity | constructor].
Defined.

(** ** The clusters and the records of a selection *)

Lemma medoid_index_member (X : list (list float64)) (members : list nat) (m : nat) :
  medoid_index X members = Ok m → m ∈ members.
Proof.
  unfold medoid_index.
  assert ((sub ← ix_ X members members;
           k ← NumPy.argmin (NumPy.sum <$> sub);
           of_option (members !! k) IndexError) = Ok m → m ∈ members) as Hgen.
  { intros (sub & _ & (k & _ & Hk)%rbind_Ok)%rbind_Ok.
    destruct (members !! k) as [m'|] eqn:Hm; [|done].
    injection Hk as <-. by eapply list_elem_of_lookup_2. }
  destruct members as [|i [|j l]]; [exact Hgen | | exact Hgen].
  intros [= <-]. by left.
Qed.

Lemma select_in_cluster_inv (names : list string) (X : list (list float64))
    (required_mask : list bool) (cid : nat) (members kept : list nat)
    (rec : cluster_record) :
  select_in_cluster names X required_mask (cid, members) = Ok (kept, rec) →
  cluster_id rec = cid
  ∧ size rec = length members
  ∧ required_count rec = length (required_in required_mask members)
  ∧ index_many names kept = Ok (selected_ids rec)
  ∧ Forall (λ i, i < length required_mask) members
  ∧ ((required_in required_mask members ≠ []
      ∧ kept = required_in required_mask members)
     ∨ (required_in required_mask members = []
        ∧ ∃ m, medoid_index X members = Ok m ∧ m ∈ members ∧ kept = [m])).
Proof.
  unfold select_in_cluster.
  intros (flags & Hflags & (kept' & Hkept & (ids & Hids & Hret)%rbind_Ok)%rbind_Ok)%rbind_Ok.
  injection Hret as <- <-. simpl.
  apply index_many_Ok in Hflags.
  rewrite (boolean_index_spec required_mask) in * by done.
  split_and!; [done.. | |].
  - apply Forall_forall. intros i Hi.
    destruct (Forall2_elem_of_l _ _ _ _ Hflags Hi) as (b & _ & Hb).
    by apply lookup_lt_Some in Hb.
  - destruct (required_in required_mask members) as [|r l] eqn:Hreq; simpl in Hkept.
    + right. split; [done|].
      apply rbind_Ok in Hkept as (m & Hm & [= <-]).
      exists m. split_and!; [done | by eapply medoid_index_member | done].
    + left. by injection Hkept as <-.
Qed.

Lemma select_in_cluster_kept_members (names : list string) (X : list (list float64))
    (required_mask : list bool) (cid : nat) (members kept : list nat)
    (rec : cluster_record) :
  NoDup members →
  select_in_cluster names X required_mask (cid, members) = Ok (kept, rec) →
  NoDup kept ∧ kept ≠ []
  ∧ (∀ i, i ∈ kept → i ∈ members ∧ i < length names)
  ∧ length kept = Nat.max 1 (required_count rec)
  ∧ length (selected_ids rec) = length kept.
Proof.
  intros Hnd Hsel.
  destruct (select_in_cluster_inv _ _ _ _ _ _ _ Hsel)
    as (_ & _ & Hcount & Hids & _ & Hkept).
  apply index_many_Ok in Hids.
  assert (∀ i, i ∈ kept → i < length names) as Hlt.
  { intros i Hi. destruct (Forall2_elem_of_l _ _ _ _ Hids Hi) as (x & _ & Hx).
    by apply lookup_lt_Some in Hx. }
  pose proof (Forall2_length _ _ _ Hids) as Hlen.
  rewrite Hcount.
  destruct Hkept as [[Hsome ->] | (Hnone & m & _ & Hm & ->)].
  - split_and!; [by apply NoDup_filter | done | | | done].
    + intros i Hi. split; [|by apply Hlt].
      by apply list_elem_of_filter in Hi as [_ Hi].
    + destruct (required_in required_mask members); [done|]. simpl. lia.
  - split_and!; [apply NoDup_singleton | done | | by rewrite Hnone | done].
    intros i Hi. split; [|by apply Hlt]. by apply list_elem_of_singleton in Hi as ->.
Qed.

Lemma per_cluster_kept (cluster_labels : list nat) (names : list string)
    (X : list (list float64)) (required_mask : list bool)
    (clusters : list (nat * list nat)) (pc : list (list nat * cluster_record)) :
  NoDup (clusters.*1) →
  (∀ cid members, (cid, members) ∈ clusters →
     members = members_of cluster_labels cid ∧ members ≠ []) →
  Forall2 (λ cl p, select_in_cluster names X required_mask cl = Ok p) clusters pc →
  NoDup (mjoin (pc.*1))
  ∧ (∀ i, i ∈ mjoin (pc.*1) →
       i < length names ∧ ∃ cid, cid ∈ clusters.*1 ∧ cluster_labels !! i = Some cid)
  ∧ length (mjoin (pc.*1)) = sum_list_with (λ rec, Nat.max 1 (required_count rec)) (pc.*2).
Proof.
  intros Hnd Hcl Hpc.
  induction Hpc as [|[cid members] [kept rec] cls pcs Hsel _ IH].
  - split_and!; [constructor | by intros i ?%elem_of_nil | done].
  - rewrite fmap_cons in Hnd. apply NoDup_cons in Hnd as [Hfresh Hnd].
    destruct (Hcl cid members) as [-> Hne]; [by left|].
    destruct IH as (IHnd & IHin & IHlen); [done | intros c ms Hin; apply Hcl; by right |].
    destruct (select_in_cluster_kept_members _ _ _ _ _ _ _
                (members_of_NoDup cluster_labels cid) Hsel)
      as (Hk & _ & Hkin & Hklen & _).
    rewrite !fmap_cons. simpl. split_and!.
    + apply NoDup_app. split_and!; [done | | done].
      intros i [Hi _]%Hkin Hi'. apply members_of_lookup in Hi.
      apply IHin in Hi' as (_ & cid' & Hcid' & Hl).
      rewrite Hi in Hl. injection Hl as <-. done.
    + intros i [Hi | Hi]%elem_of_app.
      * destruct (Hkin i Hi) as [Hm Hlt]. split; [done|].
        exists cid. split; [by left | by apply members_of_lookup].
      * destruct (IHin i Hi) as (Hlt & cid' & Hcid' & Hl).
        split; [done|]. exists cid'. split; [by right | done].
    + by rewrite length_app, Hklen, IHlen.
Qed.

Lemma select_from_labels_structure (cluster_labels : list nat) (names : list string)
    (X : list (list float64)) (required_mask : list bool)
    (sel : list nat) (recs : list cluster_record) :
  select_from_labels cluster_labels names X required_mask = Ok (sel, recs) →
  ∃ pc,
    Forall2 (λ cl p, select_in_cluster names X required_mask cl = Ok p)
            (build_clusters cluster_labels) pc
    ∧ NoDup (mjoin (pc.*1))
    ∧ sel ≡ₚ mjoin (pc.*1)
    ∧ recs ≡ₚ pc.*2
    ∧ length sel = sum_list_with (λ rec, Nat.max 1 (required_count rec)) (pc.*2).
Proof.
  intros (pc & Hpc & -> & ->)%select_from_labels_inv.
  exists pc.
  destruct (build_clusters_spec cluster_labels) as [Hnd Hcl].
  destruct (per_cluster_kept cluster_labels names X required_mask _ pc Hnd)
    as (Hpnd & Hpin & Hlen); [|done|].
  { intros cid members Hin. by apply Hcl. }
  assert (filter (λ idx, idx ∈ merge_sort le
                    (elements (list_to_set (mjoin (pc.*1)) : gset nat)))
                 (seq 0 (length names)) ≡ₚ mjoin (pc.*1)) as Hperm.
  { apply NoDup_Permutation; [apply NoDup_filter, NoDup_seq | done |].
    intros i. rewrite list_elem_of_filter, elem_of_selected_unique, elem_of_seq.
    split; [by intros [? _]|]. intros Hi. split; [done|].
    apply Hpin in Hi as [Hi _]. lia. }
  split_and!; [done | done | done | apply merge_sort_Permutation |].
  by rewrite Hperm.
Qed.

Lemma clusters_append_count (P : nat → Prop) `{∀ i, Decision (P i)}
    (clusters : list (nat * list nat)) (cid idx : nat) :
  sum_list_with (λ cl, length (filter P cl.2)) (clusters_append clusters cid idx)
  = sum_list_with (λ cl, length (filter P cl.2)) clusters
    + (if decide (P idx) then 1 else 0).
Proof.
  induction clusters as [|[c members] rest IH]; simpl.
  - rewrite filter_cons, filter_nil. destruct (decide (P idx)); simpl; lia.
  - destruct (decide (c = cid)) as [->|Hne]; simpl.
    + rewrite filter_app, length_app, filter_cons, filter_nil.
      destruct (decide (P idx)); simpl; lia.
    + rewrite IH. lia.
Qed.

Lemma build_clusters_count (P : nat → Prop) `{∀ i, Decision (P i)}
    (cluster_labels : list nat) :
  sum_list_with (λ cl, length (filter P cl.2)) (build_clusters cluster_labels)
  = length (filter P (seq 0 (length cluster_labels))).
Proof.
  induction cluster_labels as [|cid cluster_labels IH] using rev_ind; [done|].
  rewrite build_clusters_snoc, clusters_append_count, IH.
  rewrite length_app. simpl. rewrite Nat.add_1_r, seq_S, filter_app, length_app.
  simpl. rewrite filter_cons, filter_nil. by destruct (decide (P (length cluster_labels))).
Qed.

Lemma sum_list_with_Forall2 {A B} (R : A → B → Prop) (f : A → nat) (g : B → nat)
    (l : list A) (k : list B) :
  Forall2 R l k → (∀ x y, R x y → f x = g y) →
  sum_list_with f l = sum_list_with g k.
Proof.
  intros HF HR. induction HF as [|x y l k Hxy _ IH]; simpl; [done|].
  by rewrite (HR x y Hxy), IH.
Qed.

Lemma sum_list_with_fmap {A B} (h : A → B) (g : B → nat) (l : list A) :
  sum_list_with g (h <$> l) = sum_list_with (g ∘ h) l.
Proof. induction l as [|x l IH]; simpl; [done | f_equal; apply IH]. Qed.

Lemma sum_list_with_max_1 {A} (f : A → nat) (l : list A) :
  sum_list_with (λ x, Nat.max 1 (f x)) l
  = sum_list_with f l + length (filter (λ x, f x = 0) l).
Proof.
  induction l as [|x l IH]; simpl; [done|].
  rewrite filter_cons, IH. destruct (decide (f x = 0)) as [->|Hne]; simpl; lia.
Qed.

Lemma filter_True_id {A} (l : list A) : filter (λ _, True) l = l.
Proof.
  induction l as [|x l IH]; [done|]. by rewrite filter_cons_True, IH.
Qed.

Lemma elem_of_build_clusters_keys (cluster_labels : list nat) (cid : nat) :
  cid ∈ (build_clusters cluster_labels).*1 ↔ cid ∈ cluster_labels.
Proof.
  destruct (build_clusters_spec cluster_labels) as [_ Hcl].
  rewrite list_elem_of_fmap. split.
  - intros ([c members] & -> & [-> Hne]%Hcl). simpl.
    destruct (members_of cluster_labels c) as [|i l] eqn:Hm; [done|].
    assert (i ∈ members_of cluster_labels c) as Hi by (rewrite Hm; by left).
    apply members_of_lookup in Hi. by eapply list_elem_of_lookup_2.
  - intros [i Hi]%list_elem_of_lookup_1.
    exists (cid, members_of cluster_labels cid). split; [done|].
    apply Hcl. split; [done|]. apply members_of_lookup in Hi.
    intros Hnil. rewrite Hnil in Hi. by apply elem_of_nil in Hi.
Qed.

Lemma select_from_labels_records (cluster_labels : list nat)
    (names : list string) (X : list (list float64)) (required_mask : list bool)
    (sel : list nat) (recs : list cluster_record) :
  select_from_labels cluster_labels names X required_mask = Ok (sel, recs) →
  (∀ cid, cid ∈ cluster_id <$> recs ↔ cid ∈ cluster_labels)
  ∧ Forall (λ rec,
      size rec = length (members_of cluster_labels (cluster_id rec))
      ∧ 0 < size rec
      ∧ required_count rec
        = length (required_in required_mask (members_of cluster_labels (cluster_id rec)))
      ∧ length (selected_ids rec) = Nat.max 1 (required_count rec)) recs
  ∧ sum_list_with size recs = length cluster_labels
  ∧ sum_list_with required_count recs
    = length (required_in required_mask (seq 0 (length cluster_labels))).
Proof.
  intros (pc & Hpc & _ & _ & Hrecs & _)%select_from_labels_structure.
  destruct (build_clusters_spec cluster_labels) as [_ Hcl].
  assert (Forall2 (λ cl rec,
            cluster_id rec = cl.1 ∧ cl.2 = members_of cluster_labels cl.1
            ∧ cl.2 ≠ [] ∧ size rec = length cl.2
            ∧ required_count rec = length (required_in required_mask cl.2)
            ∧ length (selected_ids rec) = Nat.max 1 (required_count rec))
            (build_clusters cluster_labels) (pc.*2)) as Hrec.
  { apply Forall2_fmap_r.
    assert (∀ clusters pc,
              Forall (λ cl, cl ∈ build_clusters cluster_labels) clusters →
              Forall2 (λ cl p, select_in_cluster names X required_mask cl = Ok p)
                clusters pc →
              Forall2 (λ cl p,
                cluster_id p.2 = cl.1 ∧ cl.2 = members_of cluster_labels cl.1
                ∧ cl.2 ≠ [] ∧ size p.2 = length cl.2
                ∧ required_count p.2 = length (required_in required_mask cl.2)
                ∧ length (selected_ids p.2) = Nat.max 1 (required_count p.2))
                clusters pc) as Hgen; [|by apply Hgen, Hpc; apply Forall_forall].
    clear. intros clusters pc Hin Hpc. revert Hin.
    pose proof (build_clusters_spec cluster_labels) as [_ Hcl].
    induction Hpc as [|[cid members] [kept rec] cls pcs Hsel _ IH]; intros Hin;
      [constructor|].
    apply Forall_cons in Hin as [[-> Hne]%Hcl Hin].
    constructor; [|by apply IH]. simpl.
    destruct (select_in_cluster_inv _ _ _ _ _ _ _ Hsel) as (Hid & Hsize & Hcount & _).
    destruct (select_in_cluster_kept_members _ _ _ _ _ _ _
                (members_of_NoDup cluster_labels cid) Hsel)
      as (_ & _ & _ & Hklen & Hids).
    split_and!; [done.. |]. by rewrite Hids. }
  split_and!.
  - intros cid. rewrite Hrecs, <- (elem_of_build_clusters_keys cluster_labels cid).
    replace (cluster_id <$> pc.*2) with ((build_clusters cluster_labels).*1); [done|].
    clear -Hrec. induction Hrec as [|cl rec cls rs (Hid & _) _ IH]; [done|].
    rewrite !fmap_cons. by rewrite Hid, IH.
  - rewrite Hrecs. apply Forall_forall. intros rec Hin.
    destruct (Forall2_elem_of_r _ _ _ _ Hrec Hin)
      as ([cid members] & _ & Hid & Hm & Hne & Hsize & Hcount & Hids).
    simpl in *. subst members. rewrite Hid. split_and!; [done | | done | done].
    rewrite Hsize. destruct (members_of cluster_labels cid); [done | simpl; lia].
  - rewrite Hrecs.
    rewrite <- (sum_list_with_Forall2 _ (λ cl, length (filter (λ _, True) cl.2)) size
                  _ _ Hrec).
    + rewrite build_clusters_count.
      by rewrite filter_True_id, length_seq.
    + intros [cid members] rec (_ & _ & _ & -> & _). simpl.
      by rewrite filter_True_id.
  - rewrite Hrecs.
    rewrite <- (sum_list_with_Forall2 _
                  (λ cl, length (filter (λ idx, required_mask !! idx = Some true) cl.2))
                  required_count _ _ Hrec).
    + by rewrite build_clusters_count.
    + by intros [cid members] rec (_ & _ & _ & _ & -> & _).
Qed.

(** X4. The cluster records of a selection account for every item once:
    there is one record per label in use, its size is the number of items
    with that label, its [required_count] the number of required items among
    them, and it lists as many selected ids as it has required members, or
    one when it has none; the sizes add up to the number of items and the
    required counts to the number of required items. *)
Theorem cluster_records_account_for_every_item (cluster_labels : list nat)
    (names : list string) (X : list (list float64)) (required_mask : list bool)
    (sel : list nat) (recs : list cluster_record) :
  select_from_labels cluster_labels names X required_mask = Ok (sel, recs) →
  (∀ cid, cid ∈ cluster_id <$> recs ↔ cid ∈ cluster_labels)
  ∧ Forall (λ rec,
      size rec = length (members_of cluster_labels (cluster_id rec))
      ∧ 0 < size rec
      ∧ required_count rec
        = length (required_in required_mask (members_of cluster_labels (cluster_id rec)))
      ∧ length (selected_ids rec) = Nat.max 1 (required_count rec)) recs
  ∧ sum_list_with size recs = length cluster_labels
  ∧ sum_list_with required_count recs
    = length (required_in required_mask (seq 0 (length cluster_labels))).
Proof. apply select_from_labels_records. Qed.

Lemma cluster_records_account_for_every_item_witness :
  (∀ cid, cid ∈ cluster_id <$> chosen_records o6 ↔ cid ∈ Hierarchy.cut T6 (Fin 1))
  ∧ Forall (λ rec,
      size rec = length (members_of (Hierarchy.cut T6 (Fin 1)) (cluster_id rec))
      ∧ 0 < size rec
      ∧ required_count rec
        = length (required_in mask6 (members_of (Hierarchy.cut T6 (Fin 1)) (cluster_id rec)))
      ∧ length (selected_ids rec) = Nat.max 1 (required_count rec)) (chosen_records o6)
  ∧ sum_list_with size (chosen_records o6) = length (Hierarchy.cut T6 (Fin 1))
  ∧ sum_list_with required_count (chosen_records o6)
    = length (required_in mask6 (seq 0 (length (Hierarchy.cut T6 (Fin 1))))).
Proof.
  apply (cluster_records_account_for_every_item (Hierarchy.cut T6 (Fin 1))
           names6 X6 mask6 [0; 2]).
  vm_compute. reflexivity.
Defined.

Lemma sum_list_with_ge_length {A} (f : A → nat) (l : list A) :
  (∀ x, 1 ≤ f x) → length l ≤ sum_list_with f l.
Proof.
  intros Hf. induction l as [|x l IH]; simpl; [done|]. specialize (Hf x). lia.
Qed.

(** X5. The size of a selection: every cluster contributes its required
    members, or one item when it has none.  So the selection has as many
    items as there are required items plus clusters without a required
    item; it has at least one item per cluster and at most one per name. *)
Theorem selection_size_is_required_plus_free_clusters (cluster_labels : list nat)
    (names : list string) (X : list (list float64)) (required_mask : list bool)
    (sel : list nat) (recs : list cluster_record) :
  select_from_labels cluster_labels names X required_mask = Ok (sel, recs) →
  length sel = sum_list_with (λ rec, Nat.max 1 (required_count rec)) recs
  ∧ length sel
    = length (required_in required_mask (seq 0 (length cluster_labels)))
      + length (filter (λ rec, required_count rec = 0) recs)
  ∧ length recs ≤ length sel
  ∧ length sel ≤ length names.
Proof.
  intros Hsel.
  destruct (select_from_labels_structure _ _ _ _ _ _ Hsel)
    as (pc & _ & _ & _ & Hrecs & Hlen).
  destruct (select_from_labels_records _ _ _ _ _ _ Hsel) as (_ & _ & _ & Hcount).
  assert (length sel = sum_list_with (λ rec, Nat.max 1 (required_count rec)) recs)
    as Hsum by (by rewrite Hrecs).
  split_and!; [done | | |].
  - by rewrite Hsum, sum_list_with_max_1, Hcount.
  - rewrite Hsum. apply sum_list_with_ge_length. intros rec. lia.
  - apply select_from_labels_inv in Hsel as (pc' & _ & -> & _).
    etrans; [apply length_filter|]. by rewrite length_seq.
Qed.

Lemma selection_size_is_required_plus_free_clusters_witness :
  length (chosen_indices o6)
  = sum_list_with (λ rec, Nat.max 1 (required_count rec)) (chosen_records o6)
  ∧ length (chosen_indices o6)
    = length (required_in mask6 (seq 0 (length (Hierarchy.cut T6 (Fin 1)))))
      + length (filter (λ rec, required_count rec = 0) (chosen_records o6))
  ∧ length (chosen_records o6) ≤ length (chosen_indices o6)
  ∧ length (chosen_indices o6) ≤ length names6.
Proof.
  apply (selection_size_is_required_plus_free_clusters (Hierarchy.cut T6 (Fin 1))
           names6 X6 mask6).
  vm_compute. reflexivity.
Defined.

(** X6. No cluster is lost: every item that [fcluster] labelled has a
    selected item with the same label, and every selected item has a label
    and a name. *)
Theorem every_cluster_is_represented (cluster_labels : list nat)
    (names : list string) (X : list (list float64)) (required_mask : list bool)
    (sel : list nat) (recs : list cluster_record) :
  select_from_labels cluster_labels names X required_mask = Ok (sel, recs) →
  (∀ i cid, cluster_labels !! i = Some cid →
     ∃ j, j ∈ sel ∧ cluster_labels !! j = Some cid)
  ∧ (∀ j, j ∈ sel → j < length names ∧ ∃ cid, cluster_labels !! j = Some cid).
Proof.
  intros (pc & Hpc & _ & Hperm & _)%select_from_labels_structure.
  destruct (build_clusters_spec cluster_labels) as [Hnd Hcl].
  split.
  - intros i cid Hi.
    assert ((cid, members_of cluster_labels cid) ∈ build_clusters cluster_labels) as Hin.
    { apply Hcl. split; [done|]. apply members_of_lookup in Hi.
      intros Hnil. rewrite Hnil in Hi. by apply elem_of_nil in Hi. }
    destruct (Forall2_elem_of_l _ _ _ _ Hpc Hin) as ([kept rec] & Hp & Hsel).
    destruct (select_in_cluster_kept_members _ _ _ _ _ _ _
                (members_of_NoDup cluster_labels cid) Hsel)
      as (_ & Hne & Hkin & _).
    destruct kept as [|j kept]; [done|]. exists j. split.
    + rewrite Hperm. apply list_elem_of_join. exists (j :: kept).
      split; [by left|]. apply list_elem_of_fmap. by exists (j :: kept, rec).
    + apply members_of_lookup, Hkin. by left.
  - intros j Hj. rewrite Hperm in Hj.
    destruct (per_cluster_kept cluster_labels names X required_mask _ pc Hnd)
      as (_ & Hpin & _); [|done|].
    { intros cid members Hin. by apply Hcl. }
    destruct (Hpin j Hj) as (Hlt & cid & _ & Hl). eauto.
Qed.

Lemma every_cluster_is_represented_witness :
  (∀ i cid, Hierarchy.cut T6 (Fin 1) !! i = Some cid →
     ∃ j, j ∈ chosen_indices o6 ∧ Hierarchy.cut T6 (Fin 1) !! j = Some cid)
  ∧ (∀ j, j ∈ chosen_indices o6 →
       j < length names6 ∧ ∃ cid, Hierarchy.cut T6 (Fin 1) !! j = Some cid).
Proof.
  apply (every_cluster_is_represented (Hierarchy.cut T6 (Fin 1)) names6 X6 mask6
           (chosen_indices o6) (chosen_records o6)).
  vm_compute. reflexivity.
Defined.

(** ** The edge cases of [medoid_index] *)

Lemma ix_inv (n : nat) (X : list (list float64)) (rows cols : list nat)
    (sub : list (list float64)) :
  square n X → rows ≠ [] → ix_ X rows cols = Ok sub →
  Forall (λ i, i < n) rows ∧ Forall (λ j, j < n) cols.
Proof.
  intros [Hlen Hrows] Hne Hsub. unfold ix_ in Hsub. apply mapM_Ok in Hsub.
  assert (∀ i, i ∈ rows → i < n ∧ Forall (λ j, j < n) cols) as Hall.
  { intros i Hi.
    destruct (Forall2_elem_of_l _ _ _ _ Hsub Hi) as (r & _ & (row & Hrow & Hr)%rbind_Ok).
    destruct (X !! i) as [row'|] eqn:HXi; [|done]. injection Hrow as ->.
    split; [apply lookup_lt_Some in HXi; lia|].
    apply index_many_Ok in Hr. apply Forall_forall. intros j Hj.
    destruct (Forall2_elem_of_l _ _ _ _ Hr Hj) as (x & _ & Hx).
    apply lookup_lt_Some in Hx.
    apply list_elem_of_lookup_2 in HXi.
    by rewrite (proj1 (Forall_forall _ _) Hrows row HXi) in Hx. }
  split.
  - apply Forall_forall. intros i Hi. by apply Hall.
  - destruct rows as [|i rows]; [done|]. apply (Hall i). by left.
Qed.

Lemma ix_Err (X : list (list float64)) (rows cols : list nat) (e : exn) :
  ix_ X rows cols = Err e → e = IndexError.
Proof.
  intros (i & _ & Hi)%mapM_Err.
  apply rbind_Err in Hi as [Hi | (row & _ & Hi)].
  - destruct (X !! i); [done|]. by injection Hi as <-.
  - by apply index_many_Err in Hi.
Qed.

(** X7. The outcomes of [medoid_index] on an [n] by [n] matrix: it raises on
    an empty cluster; a cluster of one item is returned as it is, without
    reading the matrix, even when the index is out of range; a larger
    cluster gives one of its members when all its indices are in range, and
    an [IndexError] otherwise. *)
Theorem medoid_index_outcomes (n : nat) (X : list (list float64))
    (members : list nat) :
  square n X →
  (members = [] → medoid_index X members = Err EmptyReduction)
  ∧ (∀ i, members = [i] → medoid_index X members = Ok i)
  ∧ (2 ≤ length members → Forall (λ i, i < n) members →
       ∃ m, medoid_index X members = Ok m ∧ m ∈ members)
  ∧ (2 ≤ length members → ¬ Forall (λ i, i < n) members →
       medoid_index X members = Err IndexError).
Proof.
  intros HX. split_and!.
  - by intros ->.
  - by intros i ->.
  - intros Hlen Hlt. apply (medoid_index_Ok n); [done..|].
    destruct members; [simpl in Hlen; lia | done].
  - intros Hlen Hnot.
    assert (members ≠ []) as Hne by (destruct members; [simpl in Hlen; lia | done]).
    destruct (ix_ X members members) as [sub|e] eqn:Hsub.
    + by destruct (ix_inv n X members members sub HX Hne Hsub) as [Hlt _].
    + apply ix_Err in Hsub as Heq. subst e.
      destruct members as [|i [|j l]]; [done | simpl in Hlen; lia |].
      unfold medoid_index. by rewrite Hsub.
Qed.

Lemma medoid_index_outcomes_witness :
  ([0; 7] = [] → medoid_index X6 [0; 7] = Err EmptyReduction)
  ∧ (∀ i, [0; 7] = [i] → medoid_index X6 [0; 7] = Ok i)
  ∧ (2 ≤ length [0; 7] → Forall (λ i, i < 6) [0; 7] →
       ∃ m, medoid_index X6 [0; 7] = Ok m ∧ m ∈ [0; 7])
  ∧ (2 ≤ length [0; 7] → ¬ Forall (λ i, i < 6) [0; 7] →
       medoid_index X6 [0; 7] = Err IndexError).
Proof.
  apply (medoid_index_outcomes 6 X6 [0; 7]).
  split; [reflexivity | repeat constructor].
Defined.

(** ** The end of the threshold search *)

Section search_end.
Context `{SciPy}.

Lemma feasible_or_infeasible (Zlink : dendrogram) (names : list string)
    (X : list (list float64)) (required_mask : list bool) (target : Z) (t : float64)
    (idx : list nat) (recs : list cluster_record) :
  selection_at Zlink names X required_mask t = Ok (idx, recs) →
  infeasible_at Zlink names X required_mask target t ↔ (target < Z.of_nat (length idx))%Z.
Proof.
  intros Ht. split.
  - intros (sel & Hsel & Hgt). rewrite Ht in Hsel. by injection Hsel as <-.
  - intros Hgt. by exists (idx, recs).
Qed.

(** X8. A returned selection exceeds the target only by the fallback: its
    size is above the target exactly when no candidate threshold is
    feasible; the threshold returned is then the last candidate, which was
    evaluated twice, after every other candidate. *)
Theorem selection_exceeds_target_only_by_fallback (a : args)
    (meta_lines names : list string) (X : list (list float64))
    (o : outcome) (log : list event) :
  main a meta_lines names X = (Ok o, log) →
  ∃ meta_map Zlink candidates,
    read_meta meta_lines = Ok meta_map
    ∧ linkage (squareform X) (linkage_arg a) = Some Zlink
    ∧ candidate_thresholds (squareform X) (max_threshold a) = Ok candidates
    ∧ ((target a < Z.of_nat (length (chosen_indices o)))%Z ↔
         Forall (infeasible_at Zlink names X (run_mask a names meta_map) (target a))
                candidates)
    ∧ ((target a < Z.of_nat (length (chosen_indices o)))%Z →
         last candidates = Some (chosen_threshold o)
         ∧ log = [CallSquareform; CallLinkage (squareform X) (linkage_arg a)]
                 ++ (CallFcluster <$> (candidates ++ [chosen_threshold o]))).
Proof.
  intros (meta_map & Zlink & candidates & log' & Hread & _ & _ & Hlink & Hcand
          & Hchoose & _ & ->)%main_Ok_inv.
  exists meta_map, Zlink, candidates. split_and!; [done..| |].
  - apply choose_threshold_inv in Hchoose
      as [Hfound | (l & Hnone & Hlast & Ht & ->)].
    + apply threshold_search_found in Hfound
        as (pre & post & -> & _ & Ht & Hfit & _).
      split; [lia|]. intros Hall. apply Forall_app in Hall as [_ Hall].
      apply Forall_cons in Hall as [Hinf _].
      by apply (feasible_or_infeasible _ _ _ _ _ _ _ _ Ht) in Hinf.
    + apply threshold_search_none in Hnone as [Hall _].
      split; [done|]. intros _.
      apply (feasible_or_infeasible _ _ _ _ _ _ _ _ Ht).
      eapply Forall_forall; [exact Hall|].
      apply last_Some in Hlast as [pre ->]. apply elem_of_app. right. by left.
  - intros Hgt. apply choose_threshold_inv in Hchoose
      as [Hfound | (l & Hnone & Hlast & Ht & ->)].
    + apply threshold_search_found in Hfound as (_ & _ & _ & _ & _ & Hfit & _). lia.
    + apply threshold_search_none in Hnone as [_ ->].
      split; [done|]. by rewrite fmap_app.
Qed.

End search_end.

Lemma selection_exceeds_target_only_by_fallback_witness :
  ∃ meta_map Zlink candidates,
    read_meta meta3 = Ok meta_map
    ∧ linkage (SciPy := Hierarchy.returning T3) (squareform X3) (linkage_arg (a3 0))
      = Some Zlink
    ∧ candidate_thresholds (squareform X3) (max_threshold (a3 0)) = Ok candidates
    ∧ ((target (a3 0) < Z.of_nat (length [0]))%Z ↔
         Forall (infeasible_at (H := Hierarchy.returning T3) Zlink names3 X3
                   (run_mask (a3 0) names3 meta_map) (target (a3 0)))
                candidates)
    ∧ ((target (a3 0) < Z.of_nat (length [0]))%Z →
         last candidates = Some (NumPy.add (Fin 2) epsilon)
         ∧ [CallSquareform; CallLinkage [Fin 1; Fin 2; Fin 2] average;
            CallFcluster (Fin 1); CallFcluster (Fin 2);
            CallFcluster (NumPy.add (Fin 2) epsilon);
            CallFcluster (NumPy.add (Fin 2) epsilon)]
           = [CallSquareform; CallLinkage (squareform X3) (linkage_arg (a3 0))]
             ++ (CallFcluster <$> (candidates ++ [NumPy.add (Fin 2) epsilon]))).
Proof.
  apply (selection_exceeds_target_only_by_fallback (H := Hierarchy.returning T3)
           (a3 0) meta3 names3 X3
           {| chosen_indices := [0];
              chosen_records :=
                [{| cluster_id := 1; size := 3; required_count := 0;
                    selected_ids := ["x"] |}];
              chosen_threshold := NumPy.add (Fin 2) epsilon;
              selected_names := ["x"] |}).
  vm_compute. reflexivity.
Defined.

(** ** The calls into SciPy *)

Section calls.
Context `{SciPy}.

Lemma threshold_search_log (Zlink : dendrogram) (names : list string)
    (X : list (list float64)) (required_mask : list bool)
    (required_indices : list nat) (target : Z) (candidates : list float64) :
  let m := threshold_search Zlink candidates names X required_mask
             required_indices target in
  ∃ ts, m.2 = CallFcluster <$> ts
    ∧ ts `prefix_of` candidates
    ∧ (m.1 = Ok None → ts = candidates)
    ∧ (∀ c, m.1 = Ok (Some c) → last ts = Some c.2).
Proof.
  induction candidates as [|t rest (ts & Hlog & Hpre & Hnone & Hsome)].
  - exists []. split_and!; [done | done | done | by intros c [=]].
  - cbn zeta. rewrite threshold_search_cons.
    destruct (selection_at Zlink names X required_mask t) as [sel|e].
    + destruct (Z.of_nat (length sel.1) <=? target)%Z.
      * exists [t]. split_and!; [done | | done | by intros c [= <-]].
        by apply prefix_cons, prefix_nil.
      * exists (t :: ts). cbn [fst snd]. split_and!.
        -- by rewrite Hlog.
        -- by apply prefix_cons.
        -- intros Hn. by rewrite Hnone.
        -- intros c Hc. specialize (Hsome c Hc). rewrite <- Hsome.
           destruct ts as [|t' ts']; [done | done].
    + exists [t]. split_and!; [done | | done | done].
      by apply prefix_cons, prefix_nil.
Qed.

(** X9. The order of the calls into SciPy, in every run: nothing is called
    when the metadata or the priority check fails; [squareform] is called
    once, then [linkage] once, then [fcluster] on the candidate thresholds
    in the order of the list; only the last candidate can be evaluated a
    second time, after all the others.  In a run that returns, the
    threshold returned is the one of the last call of [fcluster]. *)
Theorem scipy_is_called_in_order (a : args) (meta_lines names : list string)
    (X : list (list float64)) :
  ∃ candidates,
    candidate_thresholds (squareform X) (max_threshold a) = Ok candidates
    ∧ ((main a meta_lines names X).2 = []
       ∨ (main a meta_lines names X).2 = [CallSquareform]
       ∨ ∃ ts,
           (main a meta_lines names X).2
           = [CallSquareform; CallLinkage (squareform X) (linkage_arg a)]
             ++ (CallFcluster <$> ts)
           ∧ (ts `prefix_of` candidates
              ∨ ∃ final, last candidates = Some final ∧ ts = candidates ++ [final])
           ∧ ∀ o, (main a meta_lines names X).1 = Ok o →
               last ts = Some (chosen_threshold o)).
Proof.
  destruct (candidate_thresholds_Ok (squareform X) (max_threshold a))
    as (candidates & final & Hcand & Hlast).
  exists candidates. split; [done|].
  rewrite main_stages.
  destruct (read_meta meta_lines) as [meta_map|e]; [|by left].
  cbn zeta.
  destruct (ensure_priority_subset _ _); [|by left].
  destruct (NumPy.any_isnan (squareform X)); [right; by left|].
  right. right.
  destruct (linkage (squareform X) (linkage_arg a)) as [Zlink|].
  2:{ exists []. split_and!; [done | left; apply prefix_nil | done]. }
  rewrite Hcand. cbn [fst snd].
  rewrite choose_threshold_eq. cbn zeta.
  destruct (threshold_search_log Zlink names X
              (required_mask_of (length names)
                 (required_indices_of names (priority_ids meta_map (priority a))))
              (required_indices_of names (priority_ids meta_map (priority a)))
              (target a) candidates) as (ts & Hlog & Hpre & Hnone & Hsome).
  cbn zeta in *.
  destruct (threshold_search Zlink candidates names X _ _ (target a)) as [r l].
  cbn [fst snd] in *. subst l.
  destruct r as [[chosen|]|e]; cbn [fst snd].
  - exists ts. split_and!; [done | by left |].
    intros o Ho. rewrite (Hsome chosen eq_refl).
    simpl in Ho. destruct (index_many names chosen.1.1); [|done].
    simpl in Ho. by injection Ho as <-.
  - rewrite (Hnone eq_refl), Hlast.
    destruct (selection_at Zlink names X _ final) as [sel|e]; cbn [fst snd].
    + exists (candidates ++ [final]). split_and!; [by rewrite fmap_app | right; eauto |].
      intros o Ho. rewrite last_snoc.
      simpl in Ho. destruct (index_many names sel.1); [|done].
      simpl in Ho. by injection Ho as <-.
    + exists (candidates ++ [final]). split_and!; [by rewrite fmap_app | right; eauto |].
      by intros o [=].
  - exists ts. split_and!; [done | by left | by intros o [=]].
Qed.

End calls.

(** ** Runs on well-formed input *)

Section well_formed.
Context `{SciPy}.

Lemma selection_at_Ok (Zlink : dendrogram) (names : list string)
    (X : list (list float64)) (required_mask : list bool) (n : nat) (t : float64) :
  length names = n → length required_mask = n → square n X →
  length (fcluster Zlink t) = n →
  ∃ sel, selection_at Zlink names X required_mask t = Ok sel
    ∧ length sel.1 ≤ n.
Proof.
  intros Hnames Hmask HX Hlabels.
  destruct (select_from_labels_Ok n (fcluster Zlink t) names X required_mask)
    as (pc & _ & Hsel); [done..|].
  eexists. split; [exact Hsel|]. simpl.
  etrans; [apply length_filter|]. by rewrite length_seq.
Qed.

(** X10. A target that is not below the number of items stops the search
    at once: on well-formed input the priority check passes and the run
    returns the selection of the first candidate threshold after a single
    call of [fcluster]. *)
Theorem target_of_item_count_stops_at_first_candidate (a : args)
    (meta_lines names : list string) (X : list (list float64)) (n : nat)
    (meta_map : gmap string string) (Zlink : dendrogram) :
  read_meta meta_lines = Ok meta_map →
  NumPy.any_isnan (squareform X) = false →
  linkage (squareform X) (linkage_arg a) = Some Zlink →
  length names = n → square n X → (∀ t, length (fcluster Zlink t) = n) →
  (Z.of_nat n <= target a)%Z →
  ∃ o first rest,
    candidate_thresholds (squareform X) (max_threshold a) = Ok (first :: rest)
    ∧ main a meta_lines names X
      = (Ok o, [CallSquareform; CallLinkage (squareform X) (linkage_arg a);
                CallFcluster first])
    ∧ chosen_threshold o = first
    ∧ selection_at Zlink names X (run_mask a names meta_map) first
      = Ok (chosen_indices o, chosen_records o).
Proof.
  intros Hread Hnan Hlink Hnames HX Hlabels Htarget.
  destruct (candidate_thresholds_Ok (squareform X) (max_threshold a))
    as (candidates & final & Hcand & Hlast).
  destruct candidates as [|first rest]; [done|].
  destruct (selection_at_Ok Zlink names X (run_mask a names meta_map) n first)
    as ([idx recs] & Hsel & Hlen); [done | | done | done |].
  { unfold run_mask. by rewrite required_mask_of_length. }
  simpl in Hlen.
  assert (choose_threshold Zlink (first :: rest) names X (run_mask a names meta_map)
            (run_required a names meta_map) (target a)
          = (Ok (idx, recs, first), [CallFcluster first])) as Hchoose.
  { rewrite choose_threshold_eq, threshold_search_cons, Hsel. cbn [fst snd].
    rewrite (proj2 (Z.leb_le _ _)) by lia. done. }
  destruct (main_Ok_intro a meta_lines names X meta_map Zlink (first :: rest)
              idx recs first [CallFcluster first]) as (selected & _ & Hmain);
    try done.
  { pose proof (required_indices_of_length names
                  (priority_ids meta_map (priority a))) as Hreq.
    unfold run_required. lia. }
  eexists _, first, rest. split_and!; [done | exact Hmain | done | done].
Qed.

(** X12. A run ends with the error of [linkage] exactly when the three
    checks before it pass (the metadata holds a record, the required items
    are within the target, the condensed matrix holds no NaN) and
    [linkage] raises; the run has then called [squareform] and [linkage],
    and has not called [fcluster]. *)
Theorem linkage_error_follows_the_checks (a : args) (meta_lines names : list string)
    (X : list (list float64)) :
  ((main a meta_lines names X).1 = Err LinkageError ↔
     (∃ meta_map, read_meta meta_lines = Ok meta_map
        ∧ (Z.of_nat (length (run_required a names meta_map)) <= target a)%Z)
     ∧ NumPy.any_isnan (squareform X) = false
     ∧ linkage (squareform X) (linkage_arg a) = None)
  ∧ ((main a meta_lines names X).1 = Err LinkageError →
     (main a meta_lines names X).2
     = [CallSquareform; CallLinkage (squareform X) (linkage_arg a)]).
Proof.
  destruct (read_meta meta_lines) as [meta_map|e0] eqn:Hread.
  2:{ rewrite main_stages, Hread. cbn [fst]. apply read_meta_Err in Hread as ->.
      split; [|done]. split; [done|]. by intros [(mm & [=] & _) _]. }
  destruct (decide (Z.of_nat (length (run_required a names meta_map)) <= target a)%Z)
    as [Hfits|Hover].
  2:{ assert (ensure_priority_subset (run_required a names meta_map) (target a)
              = Err PriorityExceedsTarget) as Hens.
      { apply ensure_priority_subset_Err. split; [done | lia]. }
      rewrite main_stages, Hread. cbn zeta. unfold run_required in Hens.
      rewrite Hens. cbn [fst]. split; [|done]. split; [done|].
      intros [(mm & [= <-] & Hle) _]. done. }
  assert (ensure_priority_subset (run_required a names meta_map) (target a) = Ok ())
    as Hens.
  { unfold ensure_priority_subset. rewrite Z.gtb_ltb.
    by rewrite (proj2 (Z.ltb_ge _ _)) by lia. }
  destruct (NumPy.any_isnan (squareform X)) eqn:Hnan.
  { rewrite main_stages, Hread. cbn zeta. unfold run_required in Hens.
    rewrite Hens, Hnan. cbn [fst]. split; [|done]. split; [done|].
    by intros (_ & [=] & _). }
  destruct (linkage (squareform X) (linkage_arg a)) as [Zlink|] eqn:Hlink.
  - assert ((main a meta_lines names X).1 ≠ Err LinkageError) as Hnot.
    { rewrite main_stages, Hread. cbn zeta. unfold run_required in Hens.
      rewrite Hens, Hnan, Hlink.
      destruct (candidate_thresholds_Ok (squareform X) (max_threshold a))
        as (candidates & final & -> & _).
      cbn [fst]. intros Herr. apply main_later_Err in Herr as [[=] | [=]]. }
    split; [|done]. split; [done|]. by intros (_ & _ & [=]).
  - rewrite main_stages, Hread. cbn zeta. unfold run_required in Hens.
    rewrite Hens, Hnan, Hlink. cbn [fst snd]. split; [|done]. split; [|done].
    intros _. split_and!; [|done..]. by exists meta_map.
Qed.

End well_formed.

Lemma target_of_item_count_stops_at_first_candidate_witness :
  ∃ o first rest,
    candidate_thresholds (squareform X6) None = Ok (first :: rest)
    ∧ main (H := Hierarchy.returning T6)
        {| priority := "ChongqingHan"; target := 6; linkage_arg := average;
           max_threshold := None |} meta6 names6 X6
      = (Ok o, [CallSquareform; CallLinkage (squareform X6) average;
                CallFcluster first])
    ∧ chosen_threshold o = first
    ∧ selection_at (H := Hierarchy.returning T6) T6 names6 X6
        (run_mask {| priority := "ChongqingHan"; target := 6; linkage_arg := average;
                     max_threshold := None |} names6 meta_map6) first
      = Ok (chosen_indices o, chosen_records o).
Proof.
  apply (target_of_item_count_stops_at_first_candidate (H := Hierarchy.returning T6)
           {| priority := "ChongqingHan"; target := 6; linkage_arg := average;
              max_threshold := None |} meta6 names6 X6 6 meta_map6 T6).
  - vm_compute. reflexivity.
  - vm_compute. reflexivity.
  - reflexivity.
  - reflexivity.
  - split; [reflexivity | repeat constructor].
  - intros t. apply cut_length.
  - vm_compute. discriminate.
Defined.

(** ** The candidate thresholds under a bound *)

(** X11. [--max-threshold] removes no candidate: with and without a bound
    the list holds the same heights, also those above the bound, and only
    the final sentinel differs; it is the bound plus epsilon when the bound
    is below the largest height, and the largest height plus epsilon
    otherwise. *)
Theorem max_threshold_only_moves_the_sentinel (condensed : list float64)
    (bound : float64) :
  ∃ heights top,
    last heights = Some top
    ∧ candidate_thresholds condensed None = Ok (heights ++ [NumPy.add top epsilon])
    ∧ candidate_thresholds condensed (Some bound)
      = Ok (heights ++ [NumPy.add (NumPy.py_min top bound) epsilon])
    ∧ ((flt bound top ∧ NumPy.py_min top bound = bound)
       ∨ (¬ flt bound top ∧ NumPy.py_min top bound = top)).
Proof.
  destruct (positive_distances_spec condensed) as (Hne & Hsorted & _).
  unfold candidate_thresholds.
  set (heights := if Nat.eqb (length (NumPy.unique (filter positive condensed))) 0
                  then [Fin 0]
                  else NumPy.unique (filter positive condensed)) in *.
  destruct (max_sorted heights Hne Hsorted) as (top & -> & Hlast).
  cbn [mbind result_bind]. exists heights, top. split_and!; [done..|].
  unfold NumPy.py_min, flt.
  destruct (NumPy.lt bound top); [by left | right]. split; [|done]. by intros [=].
Qed.

(** ** The distance file *)

Lemma gather_Some (n : nat) (values : list string) (handle : list string)
    (values' : list string) (rest : list string) :
  gather n values handle = Some (values', rest) ↔
    ∃ used,
      handle = used ++ rest
      ∧ Forall (λ l, l ≠ EmptyString) used
      ∧ values' = values ++ mjoin (fields <$> used)
      ∧ (∀ k, k < length used → length (values ++ mjoin (fields <$> take k used)) < n)
      ∧ n ≤ length values'.
Proof.
  revert values. induction handle as [|extra handle IH]; intros values.
  - simpl. case_decide as Hlt.
    + split; [done|]. intros (used & Hused & _ & -> & _ & Hn).
      symmetry in Hused. apply app_eq_nil in Hused as [-> ->].
      simpl in Hn. rewrite app_nil_r in Hn. lia.
    + split.
      * intros [= <- <-]. exists [].
        split_and!; [done | constructor | simpl; by rewrite app_nil_r
                    | intros k Hk; simpl in Hk; lia | lia].
      * intros (used & Hused & _ & -> & _ & _).
        symmetry in Hused. apply app_eq_nil in Hused as [-> ->].
        by rewrite app_nil_r.
  - simpl. case_decide as Hlt.
    + case_decide as Hempty.
      * split; [done|]. intros (used & Hused & Hne & -> & Hmin & Hn).
        destruct used as [|u used].
        { simpl in Hn. rewrite app_nil_r in Hn. lia. }
        injection Hused as <- _. by apply Forall_cons in Hne as [? _].
      * rewrite IH. split.
        -- intros (used & -> & Hne & -> & Hmin & Hn). exists (extra :: used).
           split_and!; [done | by constructor | | | done].
           ++ rewrite fmap_cons. simpl. by rewrite app_assoc.
           ++ intros [|k] Hk; simpl; [by rewrite app_nil_r|].
              rewrite app_assoc. apply Hmin. simpl in Hk. lia.
        -- intros (used & Hused & Hne & -> & Hmin & Hn).
           destruct used as [|u used].
           { simpl in Hn. rewrite app_nil_r in Hn. lia. }
           injection Hused as <- ->. apply Forall_cons in Hne as [_ Hne].
           exists used. rewrite fmap_cons in Hn |- *. simpl in Hn |- *.
           rewrite app_assoc in Hn |- *.
           split_and!; [done | done | done | | done].
           intros k Hk. specialize (Hmin (S k)). simpl in Hmin.
           rewrite app_assoc in Hmin. apply Hmin. lia.
    + split.
      * intros [= <- <-]. exists [].
        split_and!; [done | constructor | simpl; by rewrite app_nil_r
                    | intros k Hk; simpl in Hk; lia | lia].
      * intros (used & Hused & Hne & -> & Hmin & Hn).
        destruct used as [|u used]; [simpl in *; by rewrite app_nil_r, <- Hused|].
        specialize (Hmin 0). simpl in Hmin. rewrite app_nil_r in Hmin. lia.
Qed.

Lemma no_space_snoc (s : string) (c : ascii) :
  no_space (s +:+ String c EmptyString) = no_space s && negb (isspace c).
Proof.
  induction s as [|c' s IH]; simpl.
  - by rewrite andb_true_r.
  - rewrite IH. by rewrite andb_assoc.
Qed.

Lemma snoc_not_empty (s : string) (c : ascii) : s +:+ String c EmptyString ≠ EmptyString.
Proof. by destruct s. Qed.

Lemma split_go_tokens (cur s : string) :
  cur = EmptyString ∨ token cur → Forall token (split_go cur s).
Proof.
  revert cur. induction s as [|c s IH]; intros cur Hcur; simpl.
  - case_decide as Hempty; [constructor|].
    destruct Hcur as [-> | Hcur]; [done|]. by constructor.
  - destruct (isspace c) eqn:Hc.
    + case_decide as Hempty; [apply IH; by left|].
      destruct Hcur as [-> | Hcur]; [done|].
      constructor; [done|]. apply IH. by left.
    + apply IH. right. split; [apply snoc_not_empty|].
      rewrite no_space_snoc, Hc, andb_true_r.
      by destruct Hcur as [-> | [_ Hcur]].
Qed.

(** The fields of a line are not empty and hold no whitespace. *)
Lemma fields_tokens (line : string) : Forall token (fields line).
Proof. apply split_go_tokens. by left. Qed.

Section distance_file.
Variable py_int : string → option Z.
Variable np_float : string → option float64.

Lemma read_rows_Good (n count i : nat) (handle : list string)
    (names : list string) (matrix : list (list float64)) :
  read_rows np_float n count i handle = Good (names, matrix) ↔
    ∃ rows rest,
      holds_rows np_float n rows rest handle
      ∧ length rows = count
      ∧ names = row_name <$> rows
      ∧ matrix = row_values <$> rows.
Proof.
  revert i handle names matrix.
  induction count as [|count IH]; intros i handle names matrix.
  - simpl. split.
    + intros [= <- <-]. exists [], handle. split_and!; [|done..].
      split; [done | constructor].
    + intros (rows & rest & _ & Hlen & -> & ->).
      by apply nil_length_inv in Hlen as ->.
  - cbn [read_rows]. split.
    + destruct handle as [|line handle]; [done|]. cbn [readline].
      case_decide as Hline; [done|].
      destruct (split (strip line)) as [|name found] eqn:Hfields; [done|].
      destruct (gather n found handle) as [[values handle']|] eqn:Hgather; [|done].
      destruct (mapM np_float (take n values)) as [row|] eqn:Hrow; [|done].
      destruct (read_rows np_float n count (S i) handle') as [[names' matrix']|e]
        eqn:Hrest; [|done].
      intros [= <- <-].
      apply IH in Hrest as (rows & rest & [-> Hrows] & Hlen & -> & ->).
      apply gather_Some in Hgather as (used & -> & Hne & -> & Hmin & Hn).
      exists ({| row_name := name; row_values := row; row_text := line :: used |}
              :: rows), rest.
      split_and!; [| by simpl; rewrite Hlen | done | done].
      split.
      * rewrite fmap_cons. simpl. by rewrite app_assoc.
      * constructor; [|done]. simpl.
        exists (take n (found ++ mjoin (fields <$> used))). split; [|done].
        exists line, used, found. split_and!; [done | by constructor | done..].
    + intros (rows & rest & [-> Hrows] & Hlen & -> & ->).
      destruct rows as [|r rows]; [done|].
      apply Forall_cons in Hrows as [(values & Hr & Hvalues) Hrows].
      destruct Hr as (line & more & found & Htext & Hne & Hfields & Hmin & Hn & ->).
      rewrite fmap_cons. simpl. rewrite Htext. simpl.
      rewrite Htext in Hne. apply Forall_cons in Hne as [Hline Hne].
      rewrite decide_False by done.
      unfold fields in Hfields. rewrite Hfields, <- app_assoc.
      assert (gather n found (more ++ mjoin (row_text <$> rows) ++ rest)
              = Some (found ++ mjoin (fields <$> more),
                      mjoin (row_text <$> rows) ++ rest)) as ->.
      { apply gather_Some. by exists more. }
      rewrite Hvalues.
      assert (read_rows np_float n count (S i) (mjoin (row_text <$> rows) ++ rest)
              = Good (row_name <$> rows, row_values <$> rows)) as ->; [|done].
      apply IH. exists rows, rest. split_and!; [done | | done | done].
      simpl in Hlen. lia.
Qed.

Lemma read_mldist_Good (lines names : list string) (X : list (list float64)) :
  read_mldist py_int np_float lines = Good (names, X) ↔
    ∃ first handle n rows rest,
      lines = first :: handle
      ∧ first ≠ EmptyString
      ∧ py_int (strip first) = Some (Z.of_nat n)
      ∧ length rows = n
      ∧ holds_rows np_float n rows rest handle
      ∧ names = row_name <$> rows
      ∧ X = row_values <$> rows.
Proof.
  unfold read_mldist. split.
  - destruct lines as [|first handle]; [done|]. cbn [readline].
    case_decide as Hfirst; [done|].
    destruct (py_int (strip first)) as [z|] eqn:Hint; [|done].
    destruct (z <? 0)%Z eqn:Hneg; [done|]. apply Z.ltb_ge in Hneg.
    intros (rows & rest & Hrows & Hlen & -> & ->)%read_rows_Good.
    exists first, handle, (Z.to_nat z), rows, rest.
    split_and!; [done | done | | done..]. by rewrite Z2Nat.id.
  - intros (first & handle & n & rows & rest & -> & Hfirst & Hint & Hlen & Hrows
            & -> & ->).
    cbn [readline]. rewrite decide_False by done. rewrite Hint.
    rewrite (proj2 (Z.ltb_ge _ _)) by lia. rewrite Nat2Z.id.
    apply read_rows_Good. by exists rows, rest.
Qed.

(** X13. The files [read_mldist] accepts: a first line whose stripped
    text [int] reads as a number [n] that is not negative, then [n] rows,
    then any lines, which are ignored.  A row starts on a line of its own
    with its name; the fields after the name are its values, continued on
    the lines that follow while fewer than [n] were found; lines without a
    field inside a row are passed over, fields beyond the first [n] are
    dropped, and each of the [n] values is one NumPy reads as a float.  The
    names and rows returned are those of the file, in order. *)
Theorem read_mldist_accepts_the_row_layout (lines names : list string)
    (X : list (list float64)) :
  read_mldist py_int np_float lines = Good (names, X) ↔
    ∃ first handle n rows rest,
      lines = first :: handle
      ∧ first ≠ EmptyString
      ∧ py_int (strip first) = Some (Z.of_nat n)
      ∧ length rows = n
      ∧ holds_rows np_float n rows rest handle
      ∧ names = row_name <$> rows
      ∧ X = row_values <$> rows.
Proof. apply read_mldist_Good. Qed.

Lemma holds_rows_shape (n : nat) (rows : list file_row) (rest handle : list string) :
  holds_rows np_float n rows rest handle →
  Forall (λ row, length row = n) (row_values <$> rows)
  ∧ Forall token (row_name <$> rows)
  ∧ length rows ≤ length handle.
Proof.
  intros [-> Hrows]. induction Hrows as [|r rows (values & Hr & Hvalues) _ IH].
  - split_and!; [constructor | constructor | simpl; lia].
  - destruct IH as (IH1 & IH2 & IH3).
    destruct Hr as (line & more & found & Htext & _ & Hfields & _ & Hn & ->).
    rewrite !fmap_cons. split_and!.
    + constructor; [|done]. apply mapM_Some in Hvalues. apply Forall2_length in Hvalues.
      rewrite <- Hvalues, length_take. lia.
    + constructor; [|done]. pose proof (fields_tokens line) as Htok.
      rewrite Hfields in Htok. by apply Forall_cons in Htok as [? _].
    + simpl. rewrite Htext. rewrite !length_app in *. simpl. lia.
Qed.

(** X14. What [read_mldist] returns is well formed: as many names as the
    first line of the file announces, a square matrix of that size, names
    that are not empty and hold no whitespace; and the file has a line for
    every row after its first line. *)
Theorem read_mldist_returns_a_square_matrix (lines names : list string)
    (X : list (list float64)) :
  read_mldist py_int np_float lines = Good (names, X) →
  square (length names) X
  ∧ Forall token names
  ∧ length names < length lines
  ∧ ∃ first rest, lines = first :: rest
      ∧ py_int (strip first) = Some (Z.of_nat (length names)).
Proof.
  intros (first & handle & n & rows & rest & -> & _ & Hint & Hlen & Hrows & -> & ->)
    %read_mldist_Good.
  destruct (holds_rows_shape n rows rest handle Hrows) as (Hsq & Htok & Hlines).
  rewrite !length_fmap, Hlen.
  split_and!; [split; [by rewrite length_fmap | done] | done | simpl; lia |].
  by exists first, handle.
Qed.

End distance_file.

Lemma read_mldist_returns_a_square_matrix_witness :
  square (length names6) X6
  ∧ Forall token names6
  ∧ length names6 < length mldist6
  ∧ ∃ first rest, mldist6 = first :: rest
      ∧ int_of_decimal (strip first) = Some (Z.of_nat (length names6)).
Proof.
  apply (read_mldist_returns_a_square_matrix int_of_decimal float_of_decimal
           mldist6 names6 X6).
  vm_compute. reflexivity.
Defined.

Lemma read_mldist_accepts_the_row_layout_witness :
  ∃ first handle n rows rest,
    mldist6 = first :: handle
    ∧ first ≠ EmptyString
    ∧ int_of_decimal (strip first) = Some (Z.of_nat n)
    ∧ length rows = n
    ∧ holds_rows float_of_decimal n rows rest handle
    ∧ names6 = row_name <$> rows
    ∧ X6 = row_values <$> rows.
Proof.
  apply (proj1 (read_mldist_accepts_the_row_layout int_of_decimal float_of_decimal
                  mldist6 names6 X6)).
  vm_compute. reflexivity.
Defined.

(** ** The fields of the metadata *)

(** X15. What [read_meta] returns is never empty, and every sample id and
    every group it holds is a field of a line: not empty and without
    whitespace. *)
Theorem read_meta_holds_fields (lines : list string) (meta_map : gmap string string) :
  read_meta lines = Ok meta_map →
  meta_map ≠ ∅
  ∧ ∀ k g, meta_map !! k = Some g → token k ∧ token g.
Proof.
  unfold read_meta. case_decide as Hne; [done|]. intros [= <-]. split; [done|].
  intros k g (pre & line & post & rest & _ & Hfields & _)%read_loop_lookup.
  pose proof (fields_tokens line) as Htok. rewrite Hfields in Htok.
  apply Forall_cons in Htok as [Hk Htok]. by apply Forall_cons in Htok as [Hg _].
Qed.

Lemma read_meta_holds_fields_witness :
  meta_map6 ≠ ∅ ∧ ∀ k g, meta_map6 !! k = Some g → token k ∧ token g.
Proof.
  apply (read_meta_holds_fields meta6 meta_map6). vm_compute. reflexivity.
Defined.

(** ** The FASTA subset *)

Lemma filter_sublist_id {A} `{EqDecision A} (sel l : list A) :
  sel `sublist_of` l → NoDup l → filter (λ x, x ∈ sel) l = sel.
Proof.
  induction 1 as [|x sel l Hsub IH|x sel l Hsub IH]; intros Hnd.
  - done.
  - apply NoDup_cons in Hnd as [Hx Hnd].
    rewrite filter_cons_True by by left. f_equal.
    etrans; [|apply (IH Hnd)]. apply filter_ext_in. intros y Hy.
    rewrite elem_of_cons. split; [|by right]. intros [-> | Hsel]; [done | done].
  - apply NoDup_cons in Hnd as [Hx Hnd].
    rewrite filter_cons_False; [by apply IH|].
    intros Hsel. apply Hx. eapply sublist_subseteq; [exact Hsub | exact Hsel].
Qed.

Lemma write_fasta_subset_written (records : list fasta_record) (keep_names : list string) :
  (write_fasta_subset records keep_names).1
  = filter (λ record, record.1 ∈ keep_names) records.
Proof.
  unfold write_fasta_subset. cbn [fst]. apply filter_ext_in. intros r _.
  by rewrite elem_of_list_to_set.
Qed.

Lemma kept_ids_NoDup (records : list fasta_record) (keep_names : list string) :
  NoDup (records.*1) →
  NoDup ((filter (λ record, record.1 ∈ keep_names) records).*1).
Proof.
  induction records as [|r records IH]; [constructor|].
  rewrite fmap_cons. intros [Hr Hnd]%NoDup_cons.
  rewrite filter_cons. destruct (decide (r.1 ∈ keep_names)); [|by apply IH].
  rewrite fmap_cons. apply NoDup_cons. split; [|by apply IH].
  intros (r' & Heq & [_ Hin]%list_elem_of_filter)%list_elem_of_fmap.
  apply Hr, list_elem_of_fmap. by exists r'.
Qed.

Lemma write_fasta_subset_Good (records : list fasta_record) (keep_names : list string) :
  NoDup (records.*1) →
  (write_fasta_subset records keep_names).2 = Good () ↔
  ∀ name, name ∈ keep_names → name ∈ records.*1.
Proof.
  intros Hnd.
  pose proof (kept_ids_NoDup records keep_names Hnd) as Hkept.
  pose proof (write_fasta_subset_written records keep_names) as Hw.
  unfold write_fasta_subset in Hw |- *. cbn [fst snd] in Hw |- *. rewrite Hw.
  clear Hw.
  set (kept := filter (λ record, record.1 ∈ keep_names) records) in *.
  assert (length kept = base.size (list_to_set (kept.*1) : gset string)) as Hlen.
  { by rewrite size_list_to_set, length_fmap. }
  assert ((list_to_set (kept.*1) : gset string) ⊆ list_to_set keep_names) as Hsub.
  { intros name. rewrite !elem_of_list_to_set.
    intros (r & -> & [Hr _]%list_elem_of_filter)%list_elem_of_fmap. done. }
  case_decide as Hcount; split.
  + done.
  + intros Hall. exfalso. apply Hcount. rewrite Hlen. f_equal.
    apply (anti_symm (⊆)); [done|]. intros name. rewrite !elem_of_list_to_set.
    intros Hname. pose proof (Hall name Hname) as Hin.
    apply list_elem_of_fmap in Hin as (r & -> & Hr).
    apply list_elem_of_fmap. exists r. split; [done|].
    by apply list_elem_of_filter.
  + intros _ name Hname.
    assert ((list_to_set (kept.*1) : gset string) = list_to_set keep_names) as Heq.
    { apply set_subseteq_size_eq; [done|]. rewrite <- Hlen. lia. }
    assert (name ∈ (list_to_set (kept.*1) : gset string)) as Hin.
    { rewrite Heq. by apply elem_of_list_to_set. }
    apply elem_of_list_to_set in Hin.
    apply list_elem_of_fmap in Hin as (r & -> & [_ Hr]%list_elem_of_filter).
    apply list_elem_of_fmap. by exists r.
  + done.
Qed.

(** X16. [write_fasta_subset] writes the records whose id is one of the
    names to keep, in the order of the FASTA file.  When the ids of the
    FASTA file are distinct it returns without an error exactly when every
    name to keep has a record.  Without that the count it checks can agree
    by chance: a name that is missing is hidden by an id that occurs twice. *)
Theorem write_fasta_subset_checks_the_count (records : list fasta_record)
    (keep_names : list string) :
  NoDup (records.*1) →
  (write_fasta_subset records keep_names).1 `sublist_of` records
  ∧ (∀ r, r ∈ (write_fasta_subset records keep_names).1 ↔
       r ∈ records ∧ r.1 ∈ keep_names)
  ∧ ((write_fasta_subset records keep_names).2 = Good () ↔
       ∀ name, name ∈ keep_names → name ∈ records.*1)
  ∧ ∃ records' keep_names' name,
      (write_fasta_subset records' keep_names').2 = Good ()
      ∧ name ∈ keep_names' ∧ name ∉ records'.*1.
Proof.
  intros Hnd. rewrite write_fasta_subset_written. split_and!.
  - apply sublist_filter.
  - intros r. rewrite list_elem_of_filter. tauto.
  - by apply write_fasta_subset_Good.
  - exists [("a", "ACGT"); ("a", "ACGA")], ["a"; "b"], "b".
    split_and!; [by vm_compute | compute_done | compute_done].
Qed.

Lemma write_fasta_subset_checks_the_count_witness :
  (write_fasta_subset fasta6 ["A"; "C"]).1 `sublist_of` fasta6
  ∧ (∀ r, r ∈ (write_fasta_subset fasta6 ["A"; "C"]).1 ↔
       r ∈ fasta6 ∧ r.1 ∈ ["A"; "C"])
  ∧ ((write_fasta_subset fasta6 ["A"; "C"]).2 = Good () ↔
       ∀ name, name ∈ ["A"; "C"] → name ∈ fasta6.*1)
  ∧ ∃ records' keep_names' name,
      (write_fasta_subset records' keep_names').2 = Good ()
      ∧ name ∈ keep_names' ∧ name ∉ records'.*1.
Proof.
  apply (write_fasta_subset_checks_the_count fasta6 ["A"; "C"]).
  vm_compute. repeat (constructor; [compute_done|]). constructor.
Defined.

Lemma fmap_filter_comm {A B} (f : A → B) (P : B → Prop) `{∀ y, Decision (P y)}
    (l : list A) :
  f <$> filter (λ x, P (f x)) l = filter P (f <$> l).
Proof.
  induction l as [|x l IH]; [done|].
  rewrite fmap_cons, !filter_cons. destruct (decide (P (f x))); [|done].
  by rewrite fmap_cons, IH.
Qed.

Section outputs.
Context `{SciPy}.

Lemma main_Ok_selected (a : args) (meta_lines names : list string)
    (X : list (list float64)) (o : outcome) (log : list event) :
  main a meta_lines names X = (Ok o, log) →
  index_many names (chosen_indices o) = Ok (selected_names o)
  ∧ selected_names o `sublist_of` names
  ∧ (NoDup names → NoDup (selected_names o))
  ∧ length (selected_names o) = length (chosen_indices o).
Proof.
  intros (meta_map & Zlink & candidates & log' & _ & _ & _ & _ & _
          & Hchoose & Hnames & _)%main_Ok_inv.
  assert (selection_at Zlink names X (run_mask a names meta_map) (chosen_threshold o)
          = Ok (chosen_indices o, chosen_records o)) as Hsel.
  { apply choose_threshold_inv in Hchoose as [Hfound | (l & _ & _ & Ht & _)]; [|done].
    by apply threshold_search_found in Hfound as (_ & _ & _ & _ & Ht & _). }
  apply select_from_labels_ordered in Hsel
    as (_ & _ & _ & _ & emitted & Hemitted & Hsub & Hnd).
  rewrite Hnames in Hemitted. injection Hemitted as <-.
  split_and!; [done..|].
  apply index_many_Ok, Forall2_length in Hnames. done.
Qed.

(** X17. The FASTA subset of a run: when the FASTA file holds exactly the
    sequences of the distance file, in the same order and under distinct
    names, [write_fasta_subset] on the names selected by [main] raises no
    error and writes the records of the selected names, in the order of the
    selection. *)
Theorem selected_sequences_are_written (a : args) (meta_lines names : list string)
    (X : list (list float64)) (o : outcome) (log : list event)
    (records : list fasta_record) :
  main a meta_lines names X = (Ok o, log) →
  NoDup names → records.*1 = names →
  (write_fasta_subset records (selected_names o)).2 = Good ()
  ∧ (write_fasta_subset records (selected_names o)).1.*1 = selected_names o
  ∧ length (write_fasta_subset records (selected_names o)).1
    = length (chosen_indices o).
Proof.
  intros Hmain Hnd Hids.
  destruct (main_Ok_selected _ _ _ _ _ _ Hmain) as (_ & Hsub & _ & Hlen).
  assert ((write_fasta_subset records (selected_names o)).1.*1 = selected_names o)
    as Hwritten.
  { rewrite write_fasta_subset_written.
    etrans; [exact (fmap_filter_comm fst (λ name, name ∈ selected_names o) records)|].
    rewrite Hids. by apply filter_sublist_id. }
  split_and!; [| done |].
  - apply write_fasta_subset_Good; [by rewrite Hids|].
    intros name Hname. rewrite Hids. eapply sublist_subseteq; [exact Hsub | done].
  - rewrite <- Hlen.
    transitivity (length ((write_fasta_subset records (selected_names o)).1.*1));
      [by rewrite length_fmap | by rewrite Hwritten].
Qed.

End outputs.

Lemma selected_sequences_are_written_witness :
  (write_fasta_subset fasta6 (selected_names o6)).2 = Good ()
  ∧ (write_fasta_subset fasta6 (selected_names o6)).1.*1 = selected_names o6
  ∧ length (write_fasta_subset fasta6 (selected_names o6)).1
    = length (chosen_indices o6).
Proof.
  apply (selected_sequences_are_written (H := Hierarchy.returning T6)
           a6 meta6 names6 X6 o6
           [CallSquareform; CallLinkage (squareform X6) average; CallFcluster (Fin 1)]
           fasta6).
  - vm_compute. reflexivity.
  - vm_compute. repeat (constructor; [compute_done|]). constructor.
  - reflexivity.
Defined.

(** ** The whole of [main] *)

Lemma write_ids_Ok (indices : list nat) (names selected : list string) :
  index_many names indices = Ok selected →
  write_ids indices names = (unlines selected, Ok ()).
Proof.
  intros Hsel%index_many_Ok.
  induction Hsel as [|i name indices selected Hi _ IH]; [done|].
  simpl. by rewrite Hi, IH.
Qed.

Section program.
Context `{SciPy}.
Variable py_int : string → option Z.
Variable np_float : string → option float64.

Lemma read_mldist_square (lines names : list string) (X : list (list float64)) :
  read_mldist py_int np_float lines = Good (names, X) → square (length names) X.
Proof.
  intros (first & handle & n & rows & rest & -> & _ & Hint & Hlen & Hrows & -> & ->)
    %read_mldist_Good.
  destruct (holds_rows_shape np_float n rows rest handle Hrows) as (Hsq & _).
  rewrite !length_fmap, Hlen. split; [by rewrite length_fmap | done].
Qed.

(** X18. The files a failed run leaves.  A run that fails before its
    writes (with the empty-metadata error, with an error of the distance
    file, which is read after the metadata, or with an error raised between
    lines 241 and 309) has opened no output file.  A run that fails
    afterwards was given [--write-fasta] and fails because Biopython is
    missing or the FASTA count differs: the ids and the cluster report were
    written before.  Writing the ids raises no [IndexError]. *)
Theorem failed_run_leaves_the_files_written_before (a : args) (write_fasta : bool)
    (meta_lines dist_lines : list string) (bio : option (list fasta_record))
    (f : failure) :
  (main_program py_int np_float a write_fasta meta_lines dist_lines bio).1.1 = Bad f →
  (((f = Raised MetadataEmpty ∧ read_meta meta_lines = Err MetadataEmpty)
    ∨ (∃ e meta_map, f = DistanceFile e
         ∧ read_meta meta_lines = Ok meta_map
         ∧ read_mldist py_int np_float dist_lines = Bad e)
    ∨ (∃ e names X, f = Raised e
         ∧ read_mldist py_int np_float dist_lines = Good (names, X)
         ∧ (main a meta_lines names X).1 = Err e))
   ∧ (main_program py_int np_float a write_fasta meta_lines dist_lines bio).2
     = {| ids_txt := None; clusters_tsv := None; subset_fasta := None |})
  ∨ (write_fasta = true
     ∧ ∃ names X o log,
         read_mldist py_int np_float dist_lines = Good (names, X)
         ∧ main a meta_lines names X = (Ok o, log)
         ∧ ids_txt (main_program py_int np_float a write_fasta meta_lines
                      dist_lines bio).2 = Some (unlines (selected_names o))
         ∧ clusters_tsv (main_program py_int np_float a write_fasta meta_lines
                           dist_lines bio).2
           = Some (write_cluster_report (chosen_records o))
         ∧ ((f = BiopythonMissing ∧ bio = None)
            ∨ ∃ e records,
                f = Fasta e ∧ bio = Some records
                ∧ (write_fasta_subset records (selected_names o)).2 = Bad e)).
Proof.
  unfold main_program.
  destruct (read_meta meta_lines) as [meta_map|e] eqn:Hread.
  2:{ apply read_meta_Err in Hread as ->. intros [= <-]. left.
      split; [by left | done]. }
  destruct (read_mldist py_int np_float dist_lines) as [[names X]|e] eqn:Hdist.
  2:{ intros [= <-]. left. split; [right; left; by exists e, meta_map | done]. }
  destruct (main a meta_lines names X) as [[o|e] log] eqn:Hmain; cbn [fst snd] in *.
  2:{ intros [= <-]. left. split; [|done]. right. right. exists e, names, X.
      by rewrite Hmain. }
  destruct (main_Ok_selected _ _ _ _ _ _ Hmain) as (Hsel & _).
  unfold write_outputs. rewrite (write_ids_Ok _ _ _ Hsel). cbn [fst snd].
  destruct write_fasta; [|done].
  destruct bio as [records|].
  - cbn [fst snd].
    destruct (write_fasta_subset records (selected_names o)).2 as [[]|e] eqn:Hw;
      [done|].
    intros [= <-]. right. split; [done|].
    exists names, X, o, log. split_and!; try done. right. by exists e, records.
  - cbn [fst snd]. intros [= <-]. right. split; [done|].
    exists names, X, o, log. split_and!; try done. by left.
Qed.

(** X19. The files of a run that returns: the ids file holds the names of
    the selected items, one per line, in the order of the distance file;
    the cluster report holds its header and one line per cluster record;
    the FASTA subset is written only with [--write-fasta], and holds the
    records of the FASTA file whose id was selected, as many as there are
    distinct selected names. *)
Theorem run_writes_the_selection (a : args) (write_fasta : bool)
    (meta_lines dist_lines : list string) (bio : option (list fasta_record))
    (o : outcome) (log : list event) (fs : files) :
  main_program py_int np_float a write_fasta meta_lines dist_lines bio
  = (Good o, log, fs) →
  ∃ names X,
    read_mldist py_int np_float dist_lines = Good (names, X)
    ∧ main a meta_lines names X = (Ok o, log)
    ∧ ids_txt fs = Some (unlines (selected_names o))
    ∧ selected_names o `sublist_of` names
    ∧ length (selected_names o) = length (chosen_indices o)
    ∧ clusters_tsv fs = Some (write_cluster_report (chosen_records o))
    ∧ length (write_cluster_report (chosen_records o)) = S (length (chosen_records o))
    ∧ (if write_fasta
       then ∃ records written,
              bio = Some records
              ∧ subset_fasta fs = Some written
              ∧ written = filter (λ record, record.1 ∈ selected_names o) records
              ∧ length written
                = base.size (list_to_set (selected_names o) : gset string)
       else subset_fasta fs = None).
Proof.
  unfold main_program.
  destruct (read_meta meta_lines) as [meta_map|e]; [|done].
  destruct (read_mldist py_int np_float dist_lines) as [[names X]|e]; [|done].
  destruct (main a meta_lines names X) as [[o'|e] log'] eqn:Hmain;
    cbn [fst snd]; [|done].
  destruct (main_Ok_selected _ _ _ _ _ _ Hmain) as (Hsel & Hsub & _ & Hlen).
  unfold write_outputs. rewrite (write_ids_Ok _ _ _ Hsel). cbn [fst snd].
  assert (length (write_cluster_report (chosen_records o'))
          = S (length (chosen_records o'))) as Hreport.
  { unfold write_cluster_report. simpl. by rewrite length_fmap. }
  destruct write_fasta.
  - destruct bio as [records|]; [|done]. cbn [fst snd].
    destruct (write_fasta_subset records (selected_names o')).2 as [[]|e] eqn:Hw;
      [|done].
    intros [= <- <- <-]. exists names, X. cbn [ids_txt clusters_tsv subset_fasta].
    split_and!; [done..|].
    exists records, (write_fasta_subset records (selected_names o')).1.
    split_and!; [done | done | apply write_fasta_subset_written |].
    unfold write_fasta_subset in Hw |- *. cbn [fst snd] in Hw |- *.
    case_decide as Hcount; [done|]. done.
  - intros [= <- <- <-]. exists names, X. by split_and!.
Qed.

End program.

(** The six items with [--write-fasta] and a FASTA file that holds A only:
    two names were selected and one record was written. *)
Lemma failed_run_leaves_the_files_written_before_witness :
  (((Fasta (WroteOtherCount 2 1) = Raised MetadataEmpty
     ∧ read_meta meta6 = Err MetadataEmpty)
   ∨ (∃ e meta_map, Fasta (WroteOtherCount 2 1) = DistanceFile e
        ∧ read_meta meta6 = Ok meta_map
        ∧ read_mldist int_of_decimal float_of_decimal mldist6 = Bad e)
   ∨ (∃ e names X, Fasta (WroteOtherCount 2 1) = Raised e
        ∧ read_mldist int_of_decimal float_of_decimal mldist6 = Good (names, X)
        ∧ (main (H := Hierarchy.returning T6) a6 meta6 names X).1 = Err e))
   ∧ (main_program (H := Hierarchy.returning T6) int_of_decimal float_of_decimal
        a6 true meta6 mldist6 (Some [("A", "ACGT")])).2
     = {| ids_txt := None; clusters_tsv := None; subset_fasta := None |})
  ∨ (true = true
     ∧ ∃ names X o log,
         read_mldist int_of_decimal float_of_decimal mldist6 = Good (names, X)
         ∧ main (H := Hierarchy.returning T6) a6 meta6 names X = (Ok o, log)
         ∧ ids_txt (main_program (H := Hierarchy.returning T6) int_of_decimal
                      float_of_decimal a6 true meta6 mldist6
                      (Some [("A", "ACGT")])).2 = Some (unlines (selected_names o))
         ∧ clusters_tsv (main_program (H := Hierarchy.returning T6) int_of_decimal
                           float_of_decimal a6 true meta6 mldist6
                           (Some [("A", "ACGT")])).2
           = Some (write_cluster_report (chosen_records o))
         ∧ ((Fasta (WroteOtherCount 2 1) = BiopythonMissing
             ∧ Some [("A", "ACGT")] = None)
            ∨ ∃ e records,
                Fasta (WroteOtherCount 2 1) = Fasta e
                ∧ Some [("A", "ACGT")] = Some records
                ∧ (write_fasta_subset records (selected_names o)).2 = Bad e)).
Proof.
  apply (failed_run_leaves_the_files_written_before (H := Hierarchy.returning T6)
           int_of_decimal float_of_decimal a6 true meta6 mldist6
           (Some [("A", "ACGT")]) (Fasta (WroteOtherCount 2 1))).
  vm_compute. reflexivity.
Defined.

Lemma run_writes_the_selection_witness :
  ∃ names X,
    read_mldist int_of_decimal float_of_decimal mldist6 = Good (names, X)
    ∧ main (H := Hierarchy.returning T6) a6 meta6 names X
      = (Ok o6, [CallSquareform; CallLinkage (squareform X6) average;
                 CallFcluster (Fin 1)])
    ∧ ids_txt files6 = Some (unlines (selected_names o6))
    ∧ selected_names o6 `sublist_of` names
    ∧ length (selected_names o6) = length (chosen_indices o6)
    ∧ clusters_tsv files6 = Some (write_cluster_report (chosen_records o6))
    ∧ length (write_cluster_report (chosen_records o6)) = S (length (chosen_records o6))
    ∧ ∃ records written,
        Some fasta6 = Some records
        ∧ subset_fasta files6 = Some written
        ∧ written = filter (λ record, record.1 ∈ selected_names o6) records
        ∧ length written = base.size (list_to_set (selected_names o6) : gset string).
Proof.
  apply (run_writes_the_selection (H := Hierarchy.returning T6)
           int_of_decimal float_of_decimal a6 true meta6 mldist6 (Some fasta6)).
  vm_compute. reflexivity.
Defined.

(** ** Sample ids with an underscore *)

(** X21. A sample id of the metadata that holds an underscore matches no
    sequence, because [base_id] cuts every name at its first underscore:
    when every sample id of the priority group holds an underscore, no item
    is required, whatever the names are. *)
Theorem sample_ids_with_underscore_match_nothing (names : list string)
    (meta_map : gmap string string) (p : string) :
  (∀ k, meta_map !! k = Some p → contains "_" k = true) →
  required_indices_of names (priority_ids meta_map p) = []
  ∧ ∀ i, required_mask_of (length names)
           (required_indices_of names (priority_ids meta_map p)) !! i ≠ Some true.
Proof.
  intros Hkeys.
  assert (required_indices_of names (priority_ids meta_map p) = []) as Hnil.
  { apply elem_of_nil_inv. intros i (name & _ & Hid)%required_indices_of_elem.
    apply elem_of_priority_ids, Hkeys in Hid.
    by rewrite base_id_no_underscore in Hid. }
  split; [done|]. intros i Hi%required_mask_of_lookup.
  rewrite Hnil in Hi. destruct Hi as [Hi _]. by apply elem_of_nil in Hi.
Qed.

Lemma sample_ids_with_underscore_match_nothing_witness :
  required_indices_of ["HG1_a"; "HG1"; "HG"]
    (priority_ids (<["HG1_a" := "Han"]> (<["HG" := "Dai"]> ∅)) "Han") = []
  ∧ ∀ i, required_mask_of (length ["HG1_a"; "HG1"; "HG"])
           (required_indices_of ["HG1_a"; "HG1"; "HG"]
              (priority_ids (<["HG1_a" := "Han"]> (<["HG" := "Dai"]> ∅)) "Han")) !! i
         ≠ Some true.
Proof.
  apply (sample_ids_with_underscore_match_nothing ["HG1_a"; "HG1"; "HG"]
           (<["HG1_a" := "Han"]> (<["HG" := "Dai"]> ∅)) "Han").
  intros k Hk.
  destruct (decide (k = "HG1_a")) as [->|Hne1]; [reflexivity|].
  rewrite lookup_insert_ne in Hk by done.
  destruct (decide (k = "HG")) as [->|Hne2].
  - rewrite lookup_insert_eq in Hk. discriminate.
  - rewrite lookup_insert_ne in Hk by done. by rewrite lookup_empty in Hk.
Defined.

(** ** Targets that cannot be met *)

Lemma selection_not_empty (cluster_labels : list nat) (names : list string)
    (X : list (list float64)) (required_mask : list bool)
    (sel : list nat) (recs : list cluster_record) :
  select_from_labels cluster_labels names X required_mask = Ok (sel, recs) →
  cluster_labels ≠ [] → 0 < length sel.
Proof.
  intros Hsel Hne.
  destruct (select_from_labels_structure _ _ _ _ _ _ Hsel)
    as (pc & _ & _ & _ & Hrecs & Hlen).
  destruct (select_from_labels_records _ _ _ _ _ _ Hsel) as (Hids & _).
  destruct cluster_labels as [|c labels]; [done|].
  assert (c ∈ cluster_id <$> recs) as Hc by (apply Hids; by left).
  assert (0 < length recs) as Hpos.
  { destruct recs; [by apply elem_of_nil in Hc | simpl; lia]. }
  rewrite Hlen, <- Hrecs.
  eapply Nat.lt_le_trans; [exact Hpos|].
  apply sum_list_with_ge_length. intros rec. lia.
Qed.

Section unmet_targets.
Context `{SciPy}.

Lemma threshold_search_all_infeasible (Zlink : dendrogram) (names : list string)
    (X : list (list float64)) (required_mask : list bool)
    (required_indices : list nat) (target : Z) (candidates : list float64) :
  Forall (infeasible_at Zlink names X required_mask target) candidates →
  threshold_search Zlink candidates names X required_mask required_indices target
  = (Ok None, CallFcluster <$> candidates).
Proof.
  induction 1 as [|t rest (sel & Hsel & Hgt) _ IH]; [done|].
  rewrite threshold_search_cons, Hsel.
  rewrite (proj2 (Z.leb_gt _ _)) by done. by rewrite IH.
Qed.

(** X20. Targets that cannot be met.  With a negative target the run fails
    the priority check as soon as the metadata was read, before any call
    into SciPy, even without a priority sample.  With a target of zero, no
    required item and some input, no threshold is feasible, because every
    selection holds an item: the run evaluates every candidate, then the
    last one again, and returns its selection, which is not empty. *)
Theorem targets_below_one (a : args) (meta_lines names : list string)
    (X : list (list float64)) (n : nat) (meta_map : gmap string string)
    (Zlink : dendrogram) :
  read_meta meta_lines = Ok meta_map →
  ((target a < 0)%Z → main a meta_lines names X = (Err PriorityExceedsTarget, []))
  ∧ (target a = 0%Z → run_required a names meta_map = [] →
     NumPy.any_isnan (squareform X) = false →
     linkage (squareform X) (linkage_arg a) = Some Zlink →
     length names = n → square n X → (∀ t, length (fcluster Zlink t) = n) →
     0 < n →
     ∃ o candidates final,
       candidate_thresholds (squareform X) (max_threshold a) = Ok candidates
       ∧ last candidates = Some final
       ∧ main a meta_lines names X
         = (Ok o, [CallSquareform; CallLinkage (squareform X) (linkage_arg a)]
                  ++ (CallFcluster <$> (candidates ++ [final])))
       ∧ chosen_threshold o = final
       ∧ 0 < length (chosen_indices o)).
Proof.
  intros Hread. split.
  - intros Hneg. rewrite main_stages, Hread. cbn zeta.
    assert (ensure_priority_subset
              (required_indices_of names (priority_ids meta_map (priority a)))
              (target a) = Err PriorityExceedsTarget) as ->; [|done].
    apply ensure_priority_subset_Err. split; [done | lia].
  - intros Hzero Hnone Hnan Hlink Hnames HX Hlabels Hpos.
    destruct (candidate_thresholds_Ok (squareform X) (max_threshold a))
      as (candidates & final & Hcand & Hlast).
    assert (∀ t, ∃ idx recs,
              selection_at Zlink names X (run_mask a names meta_map) t = Ok (idx, recs)
              ∧ 0 < length idx) as Hsel.
    { intros t.
      destruct (selection_at_Ok Zlink names X (run_mask a names meta_map) n t)
        as ([idx recs] & Hsel & _); [done | | done | done |].
      { unfold run_mask. by rewrite required_mask_of_length. }
      exists idx, recs. split; [done|].
      eapply selection_not_empty; [exact Hsel|].
      intros Hnil. specialize (Hlabels t). rewrite Hnil in Hlabels. simpl in Hlabels. lia. }
    assert (Forall (infeasible_at Zlink names X (run_mask a names meta_map) (target a))
              candidates) as Hall.
    { apply Forall_forall. intros t _. destruct (Hsel t) as (idx & recs & Ht & Hlen).
      exists (idx, recs). split; [done|]. simpl. lia. }
    destruct (Hsel final) as (idx & recs & Hfinal & Hlen).
    assert (choose_threshold Zlink candidates names X (run_mask a names meta_map)
              (run_required a names meta_map) (target a)
            = (Ok (idx, recs, final), (CallFcluster <$> candidates) ++ [CallFcluster final]))
      as Hchoose.
    { rewrite choose_threshold_eq, threshold_search_all_infeasible by done.
      cbn zeta. cbn [fst snd]. by rewrite Hlast, Hfinal. }
    destruct (main_Ok_intro a meta_lines names X meta_map Zlink candidates
                idx recs final ((CallFcluster <$> candidates) ++ [CallFcluster final]))
      as (selected & _ & Hmain); try done.
    { rewrite Hnone, Hzero. simpl. lia. }
    exists {| chosen_indices := idx; chosen_records := recs;
              chosen_threshold := final; selected_names := selected |},
      candidates, final.
    split_and!; [done | done | | done | done].
    rewrite Hmain. by rewrite fmap_app.
Qed.

End unmet_targets.

Lemma targets_below_one_witness :
  main (H := Hierarchy.returning T3) (a3 (-1)) meta3 names3 X3
  = (Err PriorityExceedsTarget, [])
  ∧ ∃ o candidates final,
      candidate_thresholds (squareform X3) (max_threshold (a3 0)) = Ok candidates
      ∧ last candidates = Some final
      ∧ main (H := Hierarchy.returning T3) (a3 0) meta3 names3 X3
        = (Ok o, [CallSquareform; CallLinkage (squareform X3) (linkage_arg (a3 0))]
                 ++ (CallFcluster <$> (candidates ++ [final])))
      ∧ chosen_threshold o = final
      ∧ 0 < length (chosen_indices o).
Proof.
  split.
  - apply (proj1 (targets_below_one (H := Hierarchy.returning T3)
                    (a3 (-1)) meta3 names3 X3 3 meta_map3 T3 eq_refl)).
    reflexivity.
  - apply (proj2 (targets_below_one (H := Hierarchy.returning T3)
                    (a3 0) meta3 names3 X3 3 meta_map3 T3 eq_refl));
      [reflexivity | reflexivity | reflexivity | reflexivity | reflexivity
      | split; [reflexivity | repeat constructor] | intros t; apply cut_length | lia].
Defined.

(** ** Reading the ids file back *)

Lemma append_cons (c : ascii) (s r : string) : String c s +:+ r = String c (s +:+ r).
Proof. reflexivity. Qed.

Lemma append_empty_r (s : string) : s +:+ EmptyString = s.
Proof. induction s as [|c s IH]; [done|]. by rewrite append_cons, IH. Qed.

Lemma append_snoc (cur s : string) (c : ascii) :
  (cur +:+ String c EmptyString) +:+ s = cur +:+ String c s.
Proof. induction cur as [|c' cur IH]; [done|]. by rewrite !append_cons, IH. Qed.

Lemma split_go_no_space (cur s rest : string) :
  no_space s = true → split_go cur (s +:+ rest) = split_go (cur +:+ s) rest.
Proof.
  revert cur. induction s as [|c s IH]; intros cur Hs.
  - by rewrite append_empty_r.
  - simpl in Hs. apply andb_true_iff in Hs as [Hc Hs]. apply negb_true_iff in Hc.
    rewrite append_cons. cbn [split_go]. rewrite Hc, IH by done.
    by rewrite append_snoc.
Qed.

Lemma split_go_unlines (l : list string) :
  Forall token l → split_go EmptyString (unlines l) = l.
Proof.
  induction 1 as [|s l [Hne Hs] _ IH]; [done|].
  cbn [unlines foldr]. rewrite split_go_no_space by done.
  change (EmptyString +:+ s) with s. unfold newline. rewrite append_cons.
  cbn [split_go]. change (isspace "010") with true. cbn iota.
  rewrite decide_False by done. f_equal. exact IH.
Qed.

(** X22. The ids file can be read back: when the names written hold no
    whitespace and are not empty, as the names [read_mldist] returns are,
    splitting the text of the file at whitespace gives the names again, in
    order.  [write_ids] writes the name of every index, one per line, and
    stops with an [IndexError] at the first index out of range. *)
Theorem ids_file_reads_back (indices : list nat) (names : list string) :
  Forall token names →
  (∀ selected, index_many names indices = Ok selected →
     write_ids indices names = (unlines selected, Ok ())
     ∧ split (unlines selected) = selected)
  ∧ (Forall (λ i, i < length names) indices ↔ (write_ids indices names).2 = Ok ())
  ∧ (¬ Forall (λ i, i < length names) indices ↔
       (write_ids indices names).2 = Err IndexError).
Proof.
  intros Htok.
  assert (Forall (λ i, i < length names) indices ↔ (write_ids indices names).2 = Ok ())
    as Hok.
  { induction indices as [|i indices IH]; simpl.
    - split; [done | constructor].
    - destruct (names !! i) as [name|] eqn:Hi; cbn [snd].
      + rewrite <- IH, Forall_cons. apply lookup_lt_Some in Hi. tauto.
      + split; [|done]. intros [Hlt _]%Forall_cons.
        apply lookup_ge_None in Hi. lia. }
  split_and!; [| done |].
  - intros selected Hsel. split; [by apply write_ids_Ok|].
    apply split_go_unlines. apply index_many_Ok in Hsel.
    apply Forall_forall. intros name Hname.
    destruct (Forall2_elem_of_r _ _ _ _ Hsel Hname) as (i & _ & Hi).
    eapply Forall_forall; [exact Htok|]. by eapply list_elem_of_lookup_2.
  - rewrite Hok. clear. induction indices as [|i indices IH]; simpl.
    + split; [by intros [] | done].
    + destruct (names !! i); cbn [snd]; [exact IH | done].
Qed.

Lemma ids_file_reads_back_witness :
  (∀ selected, index_many names6 [0; 2] = Ok selected →
     write_ids [0; 2] names6 = (unlines selected, Ok ())
     ∧ split (unlines selected) = selected)
  ∧ (Forall (λ i, i < length names6) [0; 2] ↔ (write_ids [0; 2] names6).2 = Ok ())
  ∧ (¬ Forall (λ i, i < length names6) [0; 2] ↔
       (write_ids [0; 2] names6).2 = Err IndexError).
Proof.
  apply (ids_file_reads_back [0; 2] names6).
  repeat (constructor; [by split|]). constructor.
Defined.

(** ** Reading the cluster report back *)

Lemma plain_app_inj (a a' r r' : string) (c c' : ascii) :
  plain a = true → plain a' = true → separator c = true → separator c' = true →
  a +:+ String c r = a' +:+ String c' r' → a = a' ∧ c = c' ∧ r = r'.
Proof.
  intros Ha Ha' Hc Hc'. revert a' Ha'.
  induction a as [|x a IH]; intros [|x' a'] Ha' Heq.
  - by injection Heq as -> ->.
  - injection Heq as -> _. simpl in Ha'. by rewrite Hc in Ha'.
  - injection Heq as -> _. simpl in Ha. by rewrite Hc' in Ha.
  - rewrite !append_cons in Heq. injection Heq as -> Heq.
    simpl in Ha, Ha'. apply andb_true_iff in Ha as [_ Ha].
    apply andb_true_iff in Ha' as [_ Ha'].
    destruct (IH Ha a' Ha' Heq) as (-> & -> & ->). done.
Qed.

Lemma pretty_N_go_plain (x : N) (s : string) :
  plain s = true → plain (pretty_N_go x s) = true.
Proof.
  revert s. induction (N.lt_wf_0 x) as [x _ IH]; intros s Hs.
  assert (x = 0 ∨ 0 < x)%N as [->|Hpos] by lia.
  - by rewrite pretty_N_go_0.
  - rewrite pretty_N_go_step by done. apply IH.
    { by apply N.div_lt. }
    simpl. rewrite Hs, andb_true_r.
    unfold pretty_N_char. by repeat case_match.
Qed.

Lemma pretty_nat_plain (n : nat) : plain (pretty n) = true.
Proof.
  unfold pretty, pretty_nat, pretty, pretty_N.
  case_decide; [done|]. by apply pretty_N_go_plain.
Qed.

Lemma append_assoc (a b c : string) : (a +:+ b) +:+ c = a +:+ (b +:+ c).
Proof. induction a as [|x a IH]; [done|]. by rewrite !append_cons, IH. Qed.

Lemma joined_cons (x : string) (l : list string) :
  ∃ c r, separator c = true
    ∧ String.concat "," (x :: l) +:+ newline = x +:+ String c r
    ∧ ((l = [] ∧ c = "010"%char ∧ r = EmptyString)
       ∨ (l ≠ [] ∧ c = ","%char ∧ r = String.concat "," l +:+ newline)).
Proof.
  destruct l as [|y l].
  - exists "010"%char, EmptyString. split_and!; [done | done | by left].
  - exists ","%char, (String.concat "," (y :: l) +:+ newline).
    split_and!; [done | | by right].
    change (String.concat "," (x :: y :: l))
      with (x +:+ "," +:+ String.concat "," (y :: l)).
    by rewrite !append_assoc.
Qed.

Lemma joined_inj (l l' : list string) :
  Forall (λ s, s ≠ EmptyString ∧ plain s = true) l →
  Forall (λ s, s ≠ EmptyString ∧ plain s = true) l' →
  String.concat "," l +:+ newline = String.concat "," l' +:+ newline → l = l'.
Proof.
  intros Hl. revert l'. induction Hl as [|x l [Hx Hpx] _ IH]; intros l' Hl' Heq.
  - destruct Hl' as [|x' l' [Hx' Hpx'] _]; [done|].
    destruct (joined_cons x' l') as (c' & r' & Hc' & Heq' & _).
    rewrite Heq' in Heq.
    destruct (plain_app_inj EmptyString x' EmptyString r' "010" c') as (<- & _);
      done.
  - destruct Hl' as [|x' l' [Hx' Hpx'] Hl'].
    + destruct (joined_cons x l) as (c & r & Hc & Heq' & _). rewrite Heq' in Heq.
      destruct (plain_app_inj x EmptyString r EmptyString c "010") as (-> & _);
        done.
    + destruct (joined_cons x l) as (c & r & Hc & Heq1 & Hcase).
      destruct (joined_cons x' l') as (c' & r' & Hc' & Heq2 & Hcase').
      rewrite Heq1, Heq2 in Heq.
      destruct (plain_app_inj x x' r r' c c') as (<- & <- & <-); [done..|].
      destruct Hcase as [(-> & -> & _) | (Hne & -> & ->)],
               Hcase' as [(-> & Hc2 & _) | (Hne' & Hc2 & Hr)]; try done.
      f_equal. by apply IH.
Qed.

(** X23. The cluster report can be read back: when no selected id is empty
    or holds a tabulator, a line end or a comma, two records with the same
    line are the same record, and two lists of records with the same report
    are the same list.  The report has its header line and one line per
    record. *)
Theorem cluster_report_reads_back (records records' : list cluster_record) :
  Forall (λ rec, Forall (λ s, s ≠ EmptyString ∧ plain s = true) (selected_ids rec))
         records →
  Forall (λ rec, Forall (λ s, s ≠ EmptyString ∧ plain s = true) (selected_ids rec))
         records' →
  length (write_cluster_report records) = S (length records)
  ∧ (write_cluster_report records = write_cluster_report records' →
     records = records').
Proof.
  intros Hrecs Hrecs'. split.
  { unfold write_cluster_report. simpl. by rewrite length_fmap. }
  unfold write_cluster_report. intros [= Heq].
  revert records' Hrecs' Heq.
  induction Hrecs as [|r records Hr _ IH]; intros records' Hrecs' Heq.
  - by destruct records'.
  - destruct Hrecs' as [|r' records' Hr' Hrecs']; [done|].
    rewrite !fmap_cons in Heq. injection Heq as Hline Heq.
    f_equal; [|by apply IH].
    unfold report_line in Hline.
    destruct r as [id sz rc ids], r' as [id' sz' rc' ids']. simpl in *.
    unfold tab in Hline.
    apply plain_app_inj in Hline as (Hid%(inj pretty) & _ & Hline);
      [|apply pretty_nat_plain.. | done | done].
    apply plain_app_inj in Hline as (Hsz%(inj pretty) & _ & Hline);
      [|apply pretty_nat_plain.. | done | done].
    apply plain_app_inj in Hline as (Hrc%(inj pretty) & _ & Hline);
      [|apply pretty_nat_plain.. | done | done].
    apply joined_inj in Hline; [|done..]. by subst.
Qed.

Lemma cluster_report_reads_back_witness :
  length (write_cluster_report (chosen_records o6)) = S (length (chosen_records o6))
  ∧ (write_cluster_report (chosen_records o6)
     = write_cluster_report (chosen_records o6) →
     chosen_records o6 = chosen_records o6).
Proof.
  apply (cluster_report_reads_back (chosen_records o6) (chosen_records o6));
    repeat (constructor; [repeat (constructor; [by split|]); constructor|]);
    constructor.
Defined.

(** ** The errors of the distance file *)

Lemma gather_None (n : nat) (values : list string) (handle : list string) :
  Forall (λ l, l ≠ EmptyString) handle →
  length (values ++ mjoin (fields <$> handle)) < n →
  gather n values handle = None.
Proof.
  intros Hne. revert values. induction Hne as [|extra handle Hextra _ IH];
    intros values Hlen; simpl.
  - simpl in Hlen. rewrite app_nil_r in Hlen. by rewrite decide_True.
  - rewrite fmap_cons in Hlen. simpl in Hlen.
    rewrite decide_True by (rewrite length_app in Hlen; lia).
    rewrite decide_False by done.
    apply IH. by rewrite <- app_assoc.
Qed.

Section defects.
Variable py_int : string → option Z.
Variable np_float : string → option float64.

Lemma read_rows_prefix (n count i : nat) (rows : list file_row)
    (rest handle : list string) :
  holds_rows np_float n rows rest handle →
  read_rows np_float n (length rows + count) i handle
  = match read_rows np_float n count (i + length rows) rest with
    | Good (names, matrix) =>
        Good ((row_name <$> rows) ++ names, (row_values <$> rows) ++ matrix)
    | Bad e => Bad e
    end.
Proof.
  intros [-> Hrows]. revert i.
  induction Hrows as [|r rows (values & Hr & Hvalues) _ IH]; intros i.
  - simpl. rewrite Nat.add_0_r. by destruct (read_rows np_float n count i rest) as [[]|].
  - destruct Hr as (line & more & found & Htext & Hne & Hfields & Hmin & Hn & ->).
    rewrite Htext in Hne. apply Forall_cons in Hne as [Hline Hne].
    rewrite fmap_cons. simpl. rewrite Htext. simpl.
    rewrite decide_False by done.
    unfold fields in Hfields. rewrite Hfields, <- app_assoc.
    assert (gather n found (more ++ mjoin (row_text <$> rows) ++ rest)
            = Some (found ++ mjoin (fields <$> more),
                    mjoin (row_text <$> rows) ++ rest)) as ->.
    { apply gather_Some. by exists more. }
    rewrite Hvalues, IH.
    replace (S i + length rows) with (i + S (length rows)) by lia.
    by destruct (read_rows np_float n count (i + S (length rows)) rest) as [[]|].
Qed.
Lemma read_mldist_rows (first : string) (handle : list string) (n : nat) :
  first ≠ EmptyString → py_int (strip first) = Some (Z.of_nat n) →
  read_mldist py_int np_float (first :: handle) = read_rows np_float n n 0 handle.
Proof.
  intros Hfirst Hint. unfold read_mldist. cbn [readline].
  rewrite decide_False by done. rewrite Hint.
  rewrite (proj2 (Z.ltb_ge _ _)) by lia. by rewrite Nat2Z.id.
Qed.

(** X24. The error [read_mldist] raises for the first defect of a file:
    no line at all; a first line that [int] rejects, or that gives a
    negative number; and, after [k] rows that were read, with fewer than
    [n] rows so far: the end of the file, a line without a field (reported
    with the row number [k]), a row whose values end with the file before
    there are [n] of them (reported with the name of the row), or a row
    with a value that is not a float. *)
Theorem read_mldist_reports_the_first_defect (lines : list string) :
  (lines = [] → read_mldist py_int np_float lines = Bad EmptyDistanceFile)
  ∧ ∀ first handle, lines = first :: handle → first ≠ EmptyString →
      (py_int (strip first) = None →
         read_mldist py_int np_float lines = Bad BadCount)
      ∧ (∀ z, py_int (strip first) = Some z → (z < 0)%Z →
           read_mldist py_int np_float lines = Bad NegativeCount)
      ∧ ∀ n rows rest,
          py_int (strip first) = Some (Z.of_nat n) →
          holds_rows np_float n rows rest handle → length rows < n →
          (rest = [] → read_mldist py_int np_float lines = Bad EndedPrematurely)
          ∧ (∀ line rest', rest = line :: rest' → line ≠ EmptyString →
               fields line = [] →
               read_mldist py_int np_float lines = Bad (BlankRow (length rows)))
          ∧ (∀ line rest' name found, rest = line :: rest' → line ≠ EmptyString →
               fields line = name :: found →
               Forall (λ l, l ≠ EmptyString) rest' →
               length (found ++ mjoin (fields <$> rest')) < n →
               read_mldist py_int np_float lines = Bad (MissingDistances name))
          ∧ (∀ name values text rest', rest = text ++ rest' →
               row_lines n name values text →
               mapM np_float values = None →
               read_mldist py_int np_float lines = Bad BadDistance).
Proof.
  split; [by intros ->|].
  intros first handle -> Hfirst. split_and!.
  - intros Hint. unfold read_mldist. cbn [readline].
    rewrite decide_False by done. by rewrite Hint.
  - intros z Hint Hneg. unfold read_mldist. cbn [readline].
    rewrite decide_False by done. rewrite Hint.
    by rewrite (proj2 (Z.ltb_lt _ _)) by done.
  - intros n rows rest Hint Hrows Hlt.
    assert (read_mldist py_int np_float (first :: handle)
            = match read_rows np_float n (S (n - S (length rows))) (length rows) rest with
              | Good (names, matrix) =>
                  Good ((row_name <$> rows) ++ names, (row_values <$> rows) ++ matrix)
              | Bad e => Bad e
              end) as ->.
    { rewrite (read_mldist_rows first handle n) by done.
      rewrite <- (read_rows_prefix n _ 0 rows rest handle Hrows). f_equal. lia. }
    cbn [read_rows]. split_and!.
    + by intros ->.
    + intros line rest' -> Hline Hfields. cbn [readline].
      rewrite decide_False by done. unfold fields in Hfields. by rewrite Hfields.
    + intros line rest' name found -> Hline Hfields Hne Hlen. cbn [readline].
      rewrite decide_False by done. unfold fields in Hfields. rewrite Hfields.
      by rewrite gather_None.
    + intros name values text rest' -> Hrow Hvalues.
      destruct Hrow as (line & more & found & -> & Hne & Hfields & Hmin & Hn & ->).
      apply Forall_cons in Hne as [Hline Hne].
      rewrite <- app_comm_cons. cbn [readline].
      rewrite decide_False by done. unfold fields in Hfields. rewrite Hfields.
      assert (gather n found (more ++ rest')
              = Some (found ++ mjoin (fields <$> more), rest')) as ->.
      { apply gather_Some. by exists more. }
      by rewrite Hvalues.
Qed.

End defects.

Lemma read_mldist_reports_the_first_defect_witness :
  read_mldist int_of_decimal float_of_decimal (take 3 mldist6)
  = Bad (MissingDistances "B")
  ∧ read_mldist int_of_decimal float_of_decimal
      (take 2 mldist6 ++ [" " +:+ newline]) = Bad (BlankRow 1).
Proof.
  pose proof (read_mldist_reports_the_first_defect int_of_decimal float_of_decimal)
    as Hdefect.
  split.
  - destruct (Hdefect (take 3 mldist6)) as [_ Hrows].
    destruct (Hrows ("6" +:+ newline)
                (take 2 (drop 1 mldist6)) eq_refl) as (_ & _ & Hafter); [done|].
    destruct (Hafter 6
                [{| row_name := "A";
                    row_values := [Fin 0; Fin 0; Fin 10; Fin 10; Fin 10; Fin 10];
                    row_text := ["A 0 0 10 10 10 10" +:+ newline] |}]
                ["B 0 0 10" +:+ newline]) as (_ & _ & Hmissing & _).
    + reflexivity.
    + split; [reflexivity|]. constructor; [|constructor].
      exists ["0"; "0"; "10"; "10"; "10"; "10"]. split; [|reflexivity].
      exists ("A 0 0 10 10 10 10" +:+ newline), [], ["0"; "0"; "10"; "10"; "10"; "10"].
      split_and!; [done | by constructor | by vm_compute
                  | intros k Hk; simpl in Hk; lia | simpl; lia | done].
    + simpl. lia.
    + apply (Hmissing ("B 0 0 10" +:+ newline) [] "B" ["0"; "0"; "10"]);
        [done | done | by vm_compute | constructor | simpl; lia].
  - destruct (Hdefect (take 2 mldist6 ++ [" " +:+ newline])) as [_ Hrows].
    destruct (Hrows ("6" +:+ newline)
                (take 1 (drop 1 mldist6) ++ [" " +:+ newline]) eq_refl)
      as (_ & _ & Hafter); [done|].
    destruct (Hafter 6
                [{| row_name := "A";
                    row_values := [Fin 0; Fin 0; Fin 10; Fin 10; Fin 10; Fin 10];
                    row_text := ["A 0 0 10 10 10 10" +:+ newline] |}]
                [" " +:+ newline]) as (_ & Hblank & _).
    + reflexivity.
    + split; [reflexivity|]. constructor; [|constructor].
      exists ["0"; "0"; "10"; "10"; "10"; "10"]. split; [|reflexivity].
      exists ("A 0 0 10 10 10 10" +:+ newline), [], ["0"; "0"; "10"; "10"; "10"; "10"].
      split_and!; [done | by constructor | by vm_compute
                  | intros k Hk; simpl in Hk; lia | simpl; lia | done].
    + simpl. lia.
    + apply (Hblank (" " +:+ newline) []); [done | done | by vm_compute].
Defined.
